(** * XYZ Hub connector: partition store, schema migrator and hub client

    A shallow embedding of [modules/layer/layer.py] (class [XYZLayer]) and
    [modules/network/network.py] (class [NetManager]), with the properties
    of the partition store, the schema migration and the request builder
    stated and proved over it.

    Python values are modelled as follows: [str] as [string], [int] as [Z],
    a [dict] keyed by strings as [gmap string _], a [list] as [list], an
    exception as the error branch of a result type.  Objects of the QGIS and
    Qt libraries (layers, layer-tree groups, network replies, timers) are
    modelled by the data this code stores in them or reads from them. *)

From Stdlib Require Import ZArith List String Ascii Lia Bool.
From stdpp Require Import base option list gmap strings pretty.

#[local] Set Warnings "-register-all".
Local Open Scope string_scope.
Local Open Scope list_scope.
Local Open Scope Z_scope.

(** The members of [QgsVectorFileWriter] that the source names: two modes of
    [actionOnExistingFile] and two error codes; every other error code of the
    writer is an [ErrOther]. *)
Inductive ActionOnExistingFile : Type :=
  | CreateOrOverwriteFile
  | CreateOrOverwriteLayer.

Inductive WriterError : Type :=
  | NoError
  | ErrCreateDataSource
  | ErrOther (code : nat).

(** An action on an SQLite connection: [cur.execute(sql)], [conn.commit()],
    [conn.close()]. *)
Inductive db_action : Type :=
  | Execute (sql : string)
  | Commit
  | Close.

(** Outcome of a call that may raise.  [WriterException err msg] is
    [Exception("%s: %s" % err)] for the pair [err] the file writer returned,
    [SqliteError a] the error the SQLite engine raises on the action [a]. *)
Inductive exn : Type :=
  | AssertionError (msg : string)
  | KeyError (key : string)
  | IndexError
  | TypeError
  | AttributeError
  | Exception (msg : string)
  | WriterException (err : WriterError) (msg : string)
  | SqliteError (a : db_action).

Inductive result (A : Type) : Type :=
  | Ok (a : A)
  | Raise (e : exn).
Arguments Ok {A} a.
Arguments Raise {A} e.

(** ** Python string operations used by the source *)

Module PyStr.

(** [old in s] at the head of [s]: [s.startswith(old)]. *)
Fixpoint startswith (old s : string) : bool :=
  match old, s with
  | EmptyString, _ => true
  | String a old', String b s' => if Ascii.eqb a b then startswith old' s' else false
  | String _ _, EmptyString => false
  end.

(** [sub in s] for strings: substring test. *)
Fixpoint contains (sub s : string) : bool :=
  startswith sub s ||
  match s with
  | EmptyString => false
  | String _ s' => contains sub s'
  end.

(** [s.replace(old, new)] for a non-empty [old]: scan left to right, replace
    each leftmost occurrence and continue after it.  [skip] counts the
    characters of a matched occurrence that remain to be dropped. *)
Fixpoint replace_go (old new s : string) (skip : nat) : string :=
  match s with
  | EmptyString => EmptyString
  | String c s' =>
      match skip with
      | S k => replace_go old new s' k
      | O =>
          if startswith old s
          then new +:+ replace_go old new s' (Nat.pred (String.length old))
          else String c (replace_go old new s' O)
      end
  end.

(** [s.replace("", new)] puts [new] before every character and at the end. *)
Fixpoint replace_empty (new s : string) : string :=
  match s with
  | EmptyString => new
  | String c s' => new +:+ String c (replace_empty new s')
  end.

Definition replace (s old new : string) : string :=
  match old with
  | EmptyString => replace_empty new s
  | String _ _ => replace_go old new s O
  end.

(** [s.partition(sep)] for a one-character separator: the text before the
    first [sep], the separator and the text after it; [(s, "", "")] when
    [sep] does not occur. *)
Fixpoint partition_char (sep : ascii) (s : string) : string * string * string :=
  match s with
  | EmptyString => (EmptyString, EmptyString, EmptyString)
  | String c s' =>
      if Ascii.eqb c sep then (EmptyString, String sep EmptyString, s')
      else let '(a, m, b) := partition_char sep s' in (String c a, m, b)
  end.

(** [sep.join(l)]. *)
Fixpoint join (sep : string) (l : list string) : string :=
  match l with
  | [] => EmptyString
  | [x] => x
  | x :: l' => x +:+ sep +:+ join sep l'
  end.

(** [str(n)] for an [int]: the decimal numeral, with a leading minus. *)
Definition str_int (n : Z) : string := pretty n.

(** The double quote character, and a text between double quotes. *)
Definition dq : string := String (ascii_of_nat 34) EmptyString.
Definition quoted (s : string) : string := dq +:+ s +:+ dq.

(** [l[i]] for a Python list: a negative index counts from the end, an
    index out of range raises [IndexError] (here [None]). *)
Definition index {A} (l : list A) (i : Z) : option A :=
  let n := Z.of_nat (length l) in
  if Z.leb 0 i then (if Z.ltb i n then l !! Z.to_nat i else None)
  else (if Z.leb (- n) i then l !! Z.to_nat (n + i) else None).

End PyStr.

(** ** JSON documents and the records of [models] *)

Module Models.

(** A decoded JSON document, as [json.loads] returns it: [None], [bool],
    [int], [str], [list], and [dict] with its items in insertion order. *)
Inductive json : Type :=
  | JNull
  | JBool (b : bool)
  | JNum (n : Z)
  | JStr (s : string)
  | JArr (l : list json)
  | JObj (items : list (string * json)).

(** [d.get(k)] on the items of a [dict]. *)
Fixpoint dict_get (items : list (string * json)) (k : string) : option json :=
  match items with
  | [] => None
  | (k', v) :: rest => if String.eqb k k' then Some v else dict_get rest k
  end.

(** [d.get(k, default)]. *)
Definition dict_get_default (items : list (string * json)) (k : string) (d : json) : json :=
  default d (dict_get items k).

(** Modelled from the spec: the class [SpaceConnectionInfo] of [models] is
    not among the sources.  The spec describes the connection descriptor as
    base URL, space identifier, authentication token and optional custom
    headers, persisted as JSON with the credentials included. *)
Record SpaceConnectionInfo : Type := {
  server : string;
  space_id : string;
  token : string;
  headers : list (string * string)
}.

(** Modelled from the spec: [SpaceConnectionInfo.to_dict], the descriptor as
    a JSON object. *)
Definition to_dict (c : SpaceConnectionInfo) : json :=
  JObj [("server", JStr (server c)); ("space_id", JStr (space_id c));
        ("token", JStr (token c));
        ("headers", JObj (map (fun kv => (fst kv, JStr (snd kv))) (headers c)))].

Definition as_str (j : json) : option string :=
  match j with JStr s => Some s | _ => None end.

Fixpoint as_str_items (items : list (string * json)) : option (list (string * string)) :=
  match items with
  | [] => Some []
  | (k, v) :: rest =>
      match as_str v, as_str_items rest with
      | Some s, Some l => Some ((k, s) :: l)
      | _, _ => None
      end
  end.

(** Modelled from the spec: [SpaceConnectionInfo.from_dict], the inverse of
    [to_dict]; [None] when the document is not a descriptor. *)
Definition from_dict (j : json) : option SpaceConnectionInfo :=
  match j with
  | JObj items =>
      match dict_get items "server" ≫= as_str, dict_get items "space_id" ≫= as_str,
            dict_get items "token" ≫= as_str, dict_get items "headers" with
      | Some sv, Some sp, Some tk, Some (JObj hs) =>
          match as_str_items hs with
          | Some h => Some {| server := sv; space_id := sp; token := tk; headers := h |}
          | None => None
          end
      | _, _, _, _ => None
      end
  | _ => None
  end.

End Models.

(** ** A JSON printer and parser

    [dumps] writes a document the way [json.dumps(x, ensure_ascii=False)]
    does; [loads] reads one back.  They stand for the module [json] where a
    concrete one is needed. *)

Module Json.
Import Models.


Definition hex_digit (n : nat) : ascii :=
  ascii_of_nat (if Nat.ltb n 10 then 48 + n else 87 + n).

(** One character of a string literal, escaped as [json.dumps] does with
    [ensure_ascii=False]. *)
Definition escape_char (c : ascii) : string :=
  let n := nat_of_ascii c in
  if Nat.eqb n 34 then String "\" PyStr.dq
  else if Nat.eqb n 92 then "\\"
  else if Nat.eqb n 10 then "\n"
  else if Nat.eqb n 13 then "\r"
  else if Nat.eqb n 9 then "\t"
  else if Nat.eqb n 8 then "\b"
  else if Nat.eqb n 12 then "\f"
  else if Nat.ltb n 32
       then "\u00" +:+ String (hex_digit (n / 16)) (String (hex_digit (n mod 16)) EmptyString)
  else String c EmptyString.

Fixpoint escape (s : string) : string :=
  match s with
  | EmptyString => EmptyString
  | String c s' => escape_char c +:+ escape s'
  end.

Definition quote (s : string) : string := PyStr.dq +:+ escape s +:+ PyStr.dq.

Fixpoint dumps (j : json) : string :=
  match j with
  | JNull => "null"
  | JBool true => "true"
  | JBool false => "false"
  | JNum n => PyStr.str_int n
  | JStr s => quote s
  | JArr l => "[" +:+ PyStr.join ", " (map dumps l) +:+ "]"
  | JObj items =>
      "{" +:+ PyStr.join ", " (map (fun kv => let '(k, v) := kv in quote k +:+ ": " +:+ dumps v) items)
          +:+ "}"
  end.

Definition is_ws (c : ascii) : bool :=
  let n := nat_of_ascii c in
  (Nat.eqb n 32 || Nat.eqb n 10 || Nat.eqb n 13 || Nat.eqb n 9)%bool.

Fixpoint skip_ws (s : string) : string :=
  match s with
  | String c s' => if is_ws c then skip_ws s' else s
  | EmptyString => s
  end.

Definition unhex (c : ascii) : option nat :=
  let n := nat_of_ascii c in
  if (Nat.leb 48 n && Nat.leb n 57)%bool then Some (n - 48)%nat
  else if (Nat.leb 97 n && Nat.leb n 102)%bool then Some (n - 87)%nat
  else if (Nat.leb 65 n && Nat.leb n 70)%bool then Some (n - 55)%nat
  else None.

(** The characters of a string literal after its opening quote, up to the
    closing quote; only escapes of characters below 256 are decoded. *)
Fixpoint parse_chars (s : string) : option (string * string) :=
  match s with
  | EmptyString => None
  | String c s' =>
      if Nat.eqb (nat_of_ascii c) 34 then Some (EmptyString, s')
      else if Nat.eqb (nat_of_ascii c) 92 then
        match s' with
        | String e s'' =>
            let lit (x : nat) rest :=
              match parse_chars rest with
              | Some (body, rest') => Some (String (ascii_of_nat x) body, rest')
              | None => None
              end in
            let n := nat_of_ascii e in
            if Nat.eqb n 34 then lit 34%nat s''
            else if Nat.eqb n 92 then lit 92%nat s''
            else if Nat.eqb n 47 then lit 47%nat s''
            else if Nat.eqb n 110 then lit 10%nat s''
            else if Nat.eqb n 114 then lit 13%nat s''
            else if Nat.eqb n 116 then lit 9%nat s''
            else if Nat.eqb n 98 then lit 8%nat s''
            else if Nat.eqb n 102 then lit 12%nat s''
            else if Nat.eqb n 117 then
              match s'' with
              | String "0" (String "0" (String h (String l s3))) =>
                  match unhex h, unhex l with
                  | Some a, Some b => lit (16 * a + b)%nat s3
                  | _, _ => None
                  end
              | _ => None
              end
            else None
        | EmptyString => None
        end
      else
        match parse_chars s' with
        | Some (body, rest) => Some (String c body, rest)
        | None => None
        end
  end.

Fixpoint parse_digits (s : string) (acc : Z) (seen : bool) : option (Z * string) :=
  match s with
  | String c s' =>
      let n := nat_of_ascii c in
      if (Nat.leb 48 n && Nat.leb n 57)%bool
      then parse_digits s' (10 * acc + Z.of_nat (n - 48)) true
      else if seen then Some (acc, s) else None
  | EmptyString => if seen then Some (acc, s) else None
  end.

Fixpoint parse_value (fuel : nat) (s : string) : option (json * string) :=
  match fuel with
  | O => None
  | S fuel' =>
      let parse_elems := fix parse_elems (n : nat) (s : string) : option (list json * string) :=
        match n with
        | O => None
        | S n' =>
            match parse_value fuel' s with
            | Some (v, rest) =>
                match skip_ws rest with
                | String "," rest' =>
                    match parse_elems n' rest' with
                    | Some (vs, rest'') => Some (v :: vs, rest'')
                    | None => None
                    end
                | String "]" rest' => Some ([v], rest')
                | _ => None
                end
            | None => None
            end
        end in
      let parse_members := fix parse_members (n : nat) (s : string)
          : option (list (string * json) * string) :=
        match n with
        | O => None
        | S n' =>
            match skip_ws s with
            | String c s1 =>
                if Nat.eqb (nat_of_ascii c) 34 then
                  match parse_chars s1 with
                  | Some (k, s2) =>
                      match skip_ws s2 with
                      | String ":" s3 =>
                          match parse_value fuel' s3 with
                          | Some (v, rest) =>
                              match skip_ws rest with
                              | String "," rest' =>
                                  match parse_members n' rest' with
                                  | Some (kvs, rest'') => Some ((k, v) :: kvs, rest'')
                                  | None => None
                                  end
                              | String "}" rest' => Some ([(k, v)], rest')
                              | _ => None
                              end
                          | None => None
                          end
                      | _ => None
                      end
                  | None => None
                  end
                else None
            | EmptyString => None
            end
        end in
      match skip_ws s with
      | String "n" (String "u" (String "l" (String "l" rest))) => Some (JNull, rest)
      | String "t" (String "r" (String "u" (String "e" rest))) => Some (JBool true, rest)
      | String "f" (String "a" (String "l" (String "s" (String "e" rest)))) =>
          Some (JBool false, rest)
      | String "[" rest =>
          match skip_ws rest with
          | String "]" rest' => Some (JArr [], rest')
          | _ =>
              match parse_elems (String.length rest) rest with
              | Some (vs, rest') => Some (JArr vs, rest')
              | None => None
              end
          end
      | String "{" rest =>
          match skip_ws rest with
          | String "}" rest' => Some (JObj [], rest')
          | _ =>
              match parse_members (String.length rest) rest with
              | Some (kvs, rest') => Some (JObj kvs, rest')
              | None => None
              end
          end
      | String "-" rest =>
          match parse_digits rest 0 false with
          | Some (n, rest') => Some (JNum (- n), rest')
          | None => None
          end
      | String c rest =>
          if Nat.eqb (nat_of_ascii c) 34 then
            match parse_chars rest with
            | Some (str, rest') => Some (JStr str, rest')
            | None => None
            end
          else
            match parse_digits (String c rest) 0 false with
            | Some (n, rest') => Some (JNum n, rest')
            | None => None
            end
      | EmptyString => None
      end
  end.

(** [json.loads]: one value, and nothing but white space after it. *)
Definition loads (s : string) : option json :=
  match parse_value (S (String.length s)) s with
  | Some (v, rest) => match skip_ws rest with EmptyString => Some v | _ => None end
  | None => None
  end.

End Json.

(** ** The partition store: class [XYZLayer] of [layer.py] *)

Module Layer.
Import Models.

(** A value held in a custom property of a layer-tree node or a layer. *)
Inductive qvariant : Type :=
  | QvStr (s : string)
  | QvInt (n : Z).

(** A [QgsVectorLayer], by what this code gives it and asks of it: its data
    source, name and provider, the display string of its WKB type, its
    fields and its custom properties. *)
Record QgsVectorLayer : Type := {
  vl_source : string;
  vl_name : string;
  vl_provider : string;
  vl_wkb : string;
  vl_fields : list string;
  vl_props : gmap string qvariant
}.

(** A node of the layer tree: a group with its child nodes in display order,
    or a layer node.  [id] stands for the identity of the group object, which
    is what [qgroups] holds. *)
Inductive qnode : Type :=
  | QGroup (id : nat) (name : string) (props : gmap string qvariant) (children : list qnode)
  | QLayerNode (v : QgsVectorLayer).

(** The attributes set by [XYZLayer.__init__]; [qtree] is the main group of
    this store in the project's layer tree, once [add_empty_group] made it
    (the object that [qgroups["main"]] refers to). *)
Record XYZLayer : Type := {
  ext : string;
  conn_info : SpaceConnectionInfo;
  meta : list (string * json);
  tags : string;
  unique : Z;
  _group_name : string;
  map_vlayer : gmap string (list QgsVectorLayer);
  map_fields : gmap string (list (list string));
  qgroups : gmap string nat;
  qtree : option qnode
}.

Definition NO_GEOM : string := "No geometry".

(** [GEOM_ORDER = dict((k,i) for i,k in enumerate([...]))]. *)
Definition GEOM_ORDER : gmap string nat :=
  list_to_map [("Point", 0%nat); ("Line", 1%nat); ("Polygon", 2%nat);
               ("Unknown geometry", 3%nat); (NO_GEOM, 4%nat)].

(** [unique or int(time.time() * 10)], with [now10] the clock reading
    [int(time.time() * 10)]. *)
Definition unique_or (unique : option Z) (now10 : Z) : Z :=
  match unique with
  | Some u => if Z.eqb u 0 then now10 else u
  | None => now10
  end.

Definition __init__ (conn : SpaceConnectionInfo) (m : list (string * json))
    (tgs : string) (unq : option Z) (group_name : string) (ex : string)
    (now10 : Z) : XYZLayer :=
  {| ext := ex; conn_info := conn; meta := m; tags := tgs;
     unique := unique_or unq now10; _group_name := group_name;
     map_vlayer := ∅; map_fields := ∅; qgroups := ∅; qtree := None |}.

Definition get_id (self : XYZLayer) : Z := unique self.
Definition get_name (self : XYZLayer) : string := _group_name self.
Definition get_map_fields (self : XYZLayer) : gmap string (list (list string)) :=
  map_fields self.

(** The partitions registered for a geometry kind, in order (empty when the
    kind has no entry). *)
Definition partitions (self : XYZLayer) (geom_str : string) : list QgsVectorLayer :=
  default [] (map_vlayer self !! geom_str).

Definition has_layer (self : XYZLayer) (geom_str : string) (idx : Z) : bool :=
  bool_decide (geom_str ∈ dom (map_vlayer self)) &&
  Z.ltb idx (Z.of_nat (length (partitions self geom_str))).

Definition get_layer (self : XYZLayer) (geom_str : string) (idx : Z) : result QgsVectorLayer :=
  match map_vlayer self !! geom_str with
  | None => Raise (KeyError geom_str)
  | Some lst =>
      match PyStr.index lst idx with
      | Some v => Ok v
      | None => Raise IndexError
      end
  end.

(** [d.setdefault(k, list())]: the list held under [k], entered as empty when
    [k] was absent. *)
Definition setdefault {A} (d : gmap string (list A)) (k : string) : list A * gmap string (list A) :=
  match d !! k with
  | Some lst => (lst, d)
  | None => ([], <[k := []]> d)
  end.

Definition set_map_vlayer (self : XYZLayer) (m : gmap string (list QgsVectorLayer)) : XYZLayer :=
  {| ext := ext self; conn_info := conn_info self; meta := meta self; tags := tags self;
     unique := unique self; _group_name := _group_name self;
     map_vlayer := m; map_fields := map_fields self; qgroups := qgroups self;
     qtree := qtree self |}.

(** [_add_layer]: the assertion is checked after [setdefault] has entered the
    kind, and the list is extended in place. *)
Definition _add_layer (self : XYZLayer) (geom_str : string) (vlayer : QgsVectorLayer)
    (idx : Z) : result unit * XYZLayer :=
  let '(lst, m) := setdefault (map_vlayer self) geom_str in
  if Z.eqb idx (Z.of_nat (length lst))
  then (Ok tt, set_map_vlayer self (<[geom_str := lst ++ [vlayer]]> m))
  else (Raise (AssertionError "vlayer count mismatch"), set_map_vlayer self m).

(** *** Names derived from the store identity *)

Section Naming.

(** [str(x)] of a [list] or a [dict], to which [str.format] resorts for a
    metadata value that is not a scalar. *)
Variable repr_container : json -> string.

(** What [str.format] puts for a JSON value. *)
Definition py_format (j : json) : string :=
  match j with
  | JStr s => s
  | JNum n => PyStr.str_int n
  | JNull => "None"
  | JBool true => "True"
  | JBool false => "False"
  | JArr _ | JObj _ => repr_container j
  end.

(** [self.meta.get(k, "")] as formatted text. *)
Definition meta_text (self : XYZLayer) (k : string) : string :=
  py_format (dict_get_default (meta self) k (JStr "")).

(** ["-(%s)" % (self.tags) if len(self.tags) else ""]. *)
Definition tags_suffix (self : XYZLayer) : string :=
  if Nat.eqb (String.length (tags self)) 0 then "" else "-(" +:+ tags self +:+ ")".

Definition _make_group_name (self : XYZLayer) (idx : option nat) : string :=
  match idx with
  | None => meta_text self "title" +:+ "-" +:+ meta_text self "id" +:+ tags_suffix self
  | Some i =>
      meta_text self "title" +:+ "-" +:+ meta_text self "id" +:+ tags_suffix self
        +:+ "-" +:+ PyStr.str_int (Z.of_nat i)
  end.

Definition _layer_name (self : XYZLayer) (geom_str : string) (idx : Z) : string :=
  meta_text self "title" +:+ "-" +:+ meta_text self "id" +:+ tags_suffix self
    +:+ "-" +:+ geom_str +:+ "-" +:+ PyStr.str_int idx.

Definition _db_layer_name (geom_str : string) (idx : Z) : string :=
  geom_str +:+ "_" +:+ PyStr.str_int idx.

Definition _layer_fname (self : XYZLayer) : string :=
  let tgs := if Nat.eqb (String.length (tags self)) 0 then ""
             else PyStr.replace (tags self) "," "_" in
  meta_text self "id" +:+ "_" +:+ tgs +:+ "_" +:+ PyStr.str_int (unique self).

End Naming.

(** *** Writing the partition table and retrofitting the constraint *)

(** [QgsVectorFileWriter.SaveVectorOptions], the attributes the source sets;
    the coordinate transform [ct] is the identity on the layer's own CRS. *)
Record SaveVectorOptions : Type := {
  fileEncoding : string;
  driverName : string;
  layerName : string;
  actionOnExistingFile : ActionOnExistingFile
}.

(** What the code takes from outside this file: the files on disk [W] with
    the vector file writer, the SQLite engine and the OGR and memory data
    providers acting on them, and the helpers and constants of the modules
    [utils], [parser] and [json]. *)
Class Env : Type := {
  W : Type;
  (** [QgsVectorFileWriter.writeAsVectorFormat(vlayer, fname, options)]: the
      pair of error code and message, and the files afterwards. *)
  writeAsVectorFormat :
    QgsVectorLayer -> string -> SaveVectorOptions -> W -> (WriterError * string) * W;
  (** The rows [(type, sql)] that
      [SELECT type, sql FROM sqlite_master WHERE tbl_name="<layer_name>"]
      yields on the file [fname]; [sql] is [None] in the row of an index that
      SQLite made by itself for a [UNIQUE] or [PRIMARY KEY] column. *)
  select_master : string -> string -> W -> list (string * option string);
  (** One action on a connection to the file [fname]; [None] when the engine
      raises. *)
  sqlite_step : string -> db_action -> W -> option W;
  (** [QgsWkbTypes.displayString(vlayer.wkbType())] and [vlayer.fields()] of
      a layer opened with the given source and provider. *)
  provider_wkb : string -> string -> W -> string;
  provider_fields : string -> string -> W -> list string;
  (** [QgsWkbTypes.geometryDisplayString(QgsWkbTypes.geometryType(
      QgsWkbTypes.parseType(geom_str)))]. *)
  geometryDisplayString : string -> string;
  (** [QgsCoordinateReferenceSystem('EPSG:4326').toWkt()]. *)
  crs_wkt : string;
  (** [utils.make_fixed_full_path(fname, ext=ext)]. *)
  make_fixed_full_path : string -> string -> string;
  (** [parser.QGS_XYZ_ID]. *)
  QGS_XYZ_ID : string;
  (** [str] of a [list] or [dict]. *)
  repr_container : json -> string;
  (** [json.dumps(x, ensure_ascii=False)] and [json.loads(s)]; [None] when
      [json.loads] raises. *)
  json_dumps : json -> string;
  json_loads : string -> option json
}.

(** [s.upper()] on ASCII letters. *)
Definition upper_char (c : ascii) : ascii :=
  let n := nat_of_ascii c in
  if (Nat.leb 97 n && Nat.leb n 122)%bool then ascii_of_nat (n - 32) else c.

Fixpoint upper (s : string) : string :=
  match s with
  | EmptyString => EmptyString
  | String c s' => String (upper_char c) (upper s')
  end.

(** Lines 272-281 of [_init_constraint]: the table-creation statement with
    the table name replaced by the temporary name and the constraint put in
    front of the first closing parenthesis. *)
Definition rewrite_create (sql_create layer_name sql_constraint : string) : string :=
  let tmp_name := "tmp_" +:+ layer_name in
  let sql_create := PyStr.replace sql_create layer_name tmp_name in
  let '(p0, p1, p2) := PyStr.partition_char ")" sql_create in
  p0 +:+ (", " +:+ sql_constraint) +:+ p1 +:+ p2.

(** The statements that [_init_constraint] puts in front of the captured ones
    and behind them. *)
Definition lst_sql_head (sql_constraint layer_name sql_create : string) : list string :=
  let tmp_name := "tmp_" +:+ layer_name in
  ["PRAGMA foreign_keys = '0'";
   "BEGIN TRANSACTION";
   rewrite_create sql_create layer_name sql_constraint;
   "PRAGMA defer_foreign_keys = '1'";
   "DROP TABLE " +:+ PyStr.quoted layer_name;
   "ALTER TABLE " +:+ PyStr.quoted tmp_name +:+ " RENAME TO " +:+ PyStr.quoted layer_name;
   "PRAGMA defer_foreign_keys = '0'"].

Definition lst_sql_tail : list string :=
  ["COMMIT";
   "PRAGMA foreign_keys = '1'"].

(** The list [lst_sql] built by [_init_constraint] from the [sql] column of
    the rows captured in the catalogue, the first of which is taken to create
    the table; a captured [None] stays in the list. *)
Definition lst_sql (sql_constraint layer_name : string) (sql_create : string)
    (lst_old_sql : list (option string)) : list (option string) :=
  map Some (lst_sql_head sql_constraint layer_name sql_create)
  ++ lst_old_sql ++ map Some lst_sql_tail.

(** [lst_sql] when every captured row has a statement. *)
Definition lst_sql_text (sql_constraint layer_name : string) (sql_create : string)
    (lst_old_sql : list string) : list string :=
  lst_sql_head sql_constraint layer_name sql_create ++ lst_old_sql ++ lst_sql_tail.

(** The body of the loop [for s in lst_sql]: a statement in which the text
    [COMMIT] occurs is answered by [conn.commit()], any other is executed. *)
Definition dispatch (s : string) : db_action :=
  if PyStr.contains "COMMIT" s then Commit else Execute s.

(** [c in s] for a character. *)
Fixpoint occurs (c : ascii) (s : string) : bool :=
  match s with
  | EmptyString => false
  | String c' s' => Ascii.eqb c' c || occurs c s'
  end.

(** The spec's reading of the rewrite (section 4.5, step 2): the constraint
    goes immediately before the parenthesis that closes the column list, which
    is the one matching the first opening parenthesis.  [closing_split d s]
    splits [s], read at nesting depth [d], in front of that parenthesis. *)
Fixpoint closing_split (depth : nat) (s : string) : option (string * string) :=
  match s with
  | EmptyString => None
  | String c s' =>
      let keep d :=
        match closing_split d s' with
        | Some (a, b) => Some (String c a, b)
        | None => None
        end in
      if Ascii.eqb c "(" then keep (S depth)
      else if Ascii.eqb c ")" then
        match depth with
        | O => None
        | S O => Some (EmptyString, s)
        | S d => keep d
        end
      else keep depth
  end.

Definition spec_rewrite_create (sql_create layer_name sql_constraint : string) : option string :=
  let renamed := PyStr.replace sql_create layer_name ("tmp_" +:+ layer_name) in
  match closing_split 0 renamed with
  | Some (a, b) => Some (a +:+ ", " +:+ sql_constraint +:+ b)
  | None => None
  end.

(** The spec's order of the migration (section 4.5, step 3): foreign keys
    off, begin, then inside the transaction the renamed table, the deferral,
    the drop, the rename, the end of the deferral and the other captured
    statements, then commit and foreign keys on. *)
Definition migration_order (sql_constraint layer_name sql_create : string)
    (lst_old_sql : list string) : list db_action :=
  [Execute "PRAGMA foreign_keys = '0'"; Execute "BEGIN TRANSACTION"]
  ++ map Execute
       ([rewrite_create sql_create layer_name sql_constraint;
         "PRAGMA defer_foreign_keys = '1'";
         "DROP TABLE " +:+ PyStr.quoted layer_name;
         "ALTER TABLE " +:+ PyStr.quoted ("tmp_" +:+ layer_name) +:+ " RENAME TO "
            +:+ PyStr.quoted layer_name;
         "PRAGMA defer_foreign_keys = '0'"]
        ++ lst_old_sql)
  ++ [Commit; Execute "PRAGMA foreign_keys = '1'"].

Section WithEnv.
Context {E : Env}.

(** Actions on the connection to [fname], one after the other; stops at the
    first one on which the engine raises.  Returns the outcome, the actions
    carried out and the files afterwards. *)
Fixpoint run_actions (fname : string) (pending : list db_action) (w : W)
    : result unit * list db_action * W :=
  match pending with
  | [] => (Ok tt, [], w)
  | a :: rest =>
      match sqlite_step fname a w with
      | None => (Raise (SqliteError a), [], w)
      | Some w' =>
          let '(r, done, w'') := run_actions fname rest w' in (r, a :: done, w'')
      end
  end.

Definition select_sql (layer_name : string) : string :=
  "SELECT type, sql FROM sqlite_master WHERE tbl_name=" +:+ PyStr.quoted layer_name.

(** The loop [for s in lst_sql]: each statement is answered as [dispatch]
    says; for a [None] among the statements the test ["COMMIT" in s] raises
    [TypeError].  Stops at the first statement that raises. *)
Fixpoint run_statements (fname : string) (lst : list (option string)) (w : W)
    : result unit * list db_action * W :=
  match lst with
  | [] => (Ok tt, [], w)
  | None :: _ => (Raise TypeError, [], w)
  | Some s :: rest =>
      match sqlite_step fname (dispatch s) w with
      | None => (Raise (SqliteError (dispatch s)), [], w)
      | Some w' =>
          let '(r, done, w'') := run_statements fname rest w' in (r, dispatch s :: done, w'')
      end
  end.

(** [_init_constraint(fname, sql_constraint, layer_name)]: the outcome, the
    actions carried out on the connection, in order, and the files
    afterwards.  When the first captured row has no statement,
    [sql_create.replace] raises [AttributeError]. *)
Definition _init_constraint (fname sql_constraint layer_name : string) (w : W)
    : result unit * list db_action * W :=
  match sqlite_step fname (Execute (select_sql layer_name)) w with
  | None => (Raise (SqliteError (Execute (select_sql layer_name))), [], w)
  | Some w1 =>
      let lst := select_master fname layer_name w1 in
      match map snd lst with
      | [] => (Raise (Exception "No layer found in GPKG"), [Execute (select_sql layer_name)], w1)
      | None :: _ => (Raise AttributeError, [Execute (select_sql layer_name)], w1)
      | Some sql_create :: lst_old_sql =>
          let '(r, done, w2) :=
            run_statements fname (lst_sql sql_constraint layer_name sql_create lst_old_sql) w1 in
          match r with
          | Raise e => (Raise e, Execute (select_sql layer_name) :: done, w2)
          | Ok _ =>
              let '(r', done', w3) := run_actions fname [Commit; Close] w2 in
              (r', Execute (select_sql layer_name) :: done ++ done', w3)
          end
      end
  end.

(** Lines 236-247 of [_init_ext_layer]: the write in the mode
    [CreateOrOverwriteLayer], the second write in the mode
    [CreateOrOverwriteFile], and the check of the error code.  Returns the
    outcome, the modes in which the writer was called, in order, and the files
    afterwards. *)
Definition write_partition (vlayer : QgsVectorLayer) (fname driver_name db_layer_name : string)
    (w : W) : result unit * list ActionOnExistingFile * W :=
  let options mode :=
    {| fileEncoding := "UTF-8"; driverName := driver_name; layerName := db_layer_name;
       actionOnExistingFile := mode |} in
  let '(err, w1) := writeAsVectorFormat vlayer fname (options CreateOrOverwriteLayer) w in
  let '(err, modes, w2) :=
    match fst err with
    | ErrCreateDataSource =>
        let '(err', w2) := writeAsVectorFormat vlayer fname (options CreateOrOverwriteFile) w1 in
        (err', [CreateOrOverwriteLayer; CreateOrOverwriteFile], w2)
    | _ => (err, [CreateOrOverwriteLayer], w1)
    end in
  match fst err with
  | NoError => (Ok tt, modes, w2)
  | _ => (Raise (WriterException (fst err) (snd err)), modes, w2)
  end.

(** [QgsVectorLayer(source, name, provider)]. *)
Definition QgsVectorLayer_new (source name provider : string) (w : W) : QgsVectorLayer :=
  {| vl_source := source; vl_name := name; vl_provider := provider;
     vl_wkb := provider_wkb source provider w;
     vl_fields := provider_fields source provider w;
     vl_props := ∅ |}.

End WithEnv.

(** *** The layer tree *)

Definition is_group (n : qnode) : bool :=
  match n with QGroup _ _ _ _ => true | QLayerNode _ => false end.

(** [node.name()] of a group. *)
Definition node_name (n : qnode) : string :=
  match n with QGroup _ nm _ _ => nm | QLayerNode v => vl_name v end.

(** [group.findGroups()]: the child groups. *)
Definition findGroups (n : qnode) : list qnode :=
  match n with
  | QGroup _ _ _ children => List.filter is_group children
  | QLayerNode _ => []
  end.

(** [[i.layer() for i in group.findLayers()]]: the layers of all layer nodes
    below the group, in display order. *)
Fixpoint findLayers (n : qnode) : list QgsVectorLayer :=
  match n with
  | QGroup _ _ _ children => flat_map findLayers children
  | QLayerNode v => [v]
  end.

(** An identity that no group of the tree has. *)
Fixpoint max_id (n : qnode) : nat :=
  match n with
  | QGroup id _ _ children => foldr Nat.max id (map max_id children)
  | QLayerNode _ => 0%nat
  end.

Definition fresh_id (t : option qnode) : nat :=
  match t with
  | Some n => S (max_id n)
  | None => 0%nat
  end.

(** [g.insertGroup(index, name)] on the group [g] of identity [gid]: the new
    empty group goes to position [index] of the children, or to the end when
    [index] is not below their number. *)
Fixpoint insertGroup (gid : nat) (index : nat) (new_id : nat) (name : string) (n : qnode) : qnode :=
  match n with
  | QGroup id nm pr children =>
      let children' := map (insertGroup gid index new_id name) children in
      if Nat.eqb id gid
      then QGroup id nm pr (take index children' ++ QGroup new_id name ∅ [] :: drop index children')
      else QGroup id nm pr children'
  | QLayerNode v => QLayerNode v
  end.

(** [g.addGroup(name)]: the new empty group goes to the end. *)
Fixpoint addGroup (gid : nat) (new_id : nat) (name : string) (n : qnode) : qnode :=
  match n with
  | QGroup id nm pr children =>
      let children' := map (addGroup gid new_id name) children in
      if Nat.eqb id gid
      then QGroup id nm pr (children' ++ [QGroup new_id name ∅ []])
      else QGroup id nm pr children'
  | QLayerNode v => QLayerNode v
  end.

(** [g.addLayer(vlayer)]: a layer node for [vlayer] goes to the end. *)
Fixpoint addLayer (gid : nat) (vlayer : QgsVectorLayer) (n : qnode) : qnode :=
  match n with
  | QGroup id nm pr children =>
      let children' := map (addLayer gid vlayer) children in
      if Nat.eqb id gid
      then QGroup id nm pr (children' ++ [QLayerNode vlayer])
      else QGroup id nm pr children'
  | QLayerNode v => QLayerNode v
  end.

Definition set_tree (self : XYZLayer) (name : string) (g : gmap string nat) (t : option qnode)
    : XYZLayer :=
  {| ext := ext self; conn_info := conn_info self; meta := meta self; tags := tags self;
     unique := unique self; _group_name := name;
     map_vlayer := map_vlayer self; map_fields := map_fields self; qgroups := g;
     qtree := t |}.

Section WithEnv2.
Context {E : Env}.

(** *** Saving and loading the provenance *)

(** [_save_meta_node(qnode)]: the four [setCustomProperty] calls, as the
    change they make to the custom properties of [qnode]. *)
Definition _save_meta_node (self : XYZLayer) (props : gmap string qvariant)
    : gmap string qvariant :=
  <["xyz-hub-id" := QvInt (get_id self)]>
  (<["xyz-hub-tags" := QvStr (tags self)]>
  (<["xyz-hub-conn" := QvStr (json_dumps (to_dict (conn_info self)))]>
  (<["xyz-hub" := QvStr (json_dumps (JObj (meta self)))]> props))).

(** [_save_meta(vlayer)], its call of [_save_meta_node]; the licence and the
    rights it copies into the metadata of the layer are left out. *)
Definition _save_meta (self : XYZLayer) (vlayer : QgsVectorLayer) : QgsVectorLayer :=
  {| vl_source := vl_source vlayer; vl_name := vl_name vlayer;
     vl_provider := vl_provider vlayer; vl_wkb := vl_wkb vlayer;
     vl_fields := vl_fields vlayer;
     vl_props := _save_meta_node self (vl_props vlayer) |}.

(** [json.loads(qnode.customProperty(key))]: [TypeError] when the property is
    absent or not a string, an [Exception] when the text is not JSON. *)
Definition loads_property (props : gmap string qvariant) (key : string) : result json :=
  match props !! key with
  | Some (QvStr s) =>
      match json_loads s with
      | Some j => Ok j
      | None => Raise (Exception "JSONDecodeError")
      end
  | _ => Raise TypeError
  end.

(** [d.setdefault(k, list()).append(x)]. *)
Definition setdefault_append {A} (d : gmap string (list A)) (k : string) (x : A)
    : gmap string (list A) :=
  let '(lst, d') := setdefault d k in <[k := lst ++ [x]]> d'.

(** The inner loop of [load_from_qnode] for one layer of a group. *)
Definition load_vlayer (acc : gmap string (list QgsVectorLayer) * gmap string (list (list string)))
    (vlayer : QgsVectorLayer) :=
  let geom_str := vl_wkb vlayer in
  (setdefault_append (fst acc) geom_str vlayer,
   setdefault_append (snd acc) geom_str (vl_fields vlayer)).

(** The outer loop of [load_from_qnode] for one child group [g]. *)
Definition load_group
    (acc : gmap string nat * (gmap string (list QgsVectorLayer) * gmap string (list (list string))))
    (g : qnode) :=
  match g with
  | QGroup id nm _ _ => (<[nm := id]> (fst acc), foldl load_vlayer (snd acc) (findLayers g))
  | QLayerNode _ => acc
  end.

(** The store that [load_from_qnode] returns.  Its attributes [meta], [tags]
    and [unique] are what the custom properties of the node hold, taken
    without a check: any JSON document, any property value or [None], and a
    property value that is not falsy. *)
Record LoadedXYZLayer : Type := {
  ld_ext : string;
  ld_conn_info : SpaceConnectionInfo;
  ld_meta : json;
  ld_tags : option qvariant;
  ld_unique : qvariant;
  ld_group_name : string;
  ld_map_vlayer : gmap string (list QgsVectorLayer);
  ld_map_fields : gmap string (list (list string));
  ld_qgroups : gmap string nat;
  ld_qtree : option qnode
}.

Definition ld_partitions (obj : LoadedXYZLayer) (geom_str : string) : list QgsVectorLayer :=
  default [] (ld_map_vlayer obj !! geom_str).

(** [unique or int(time.time() * 10)] for the value of a property: [None],
    [0] and the empty text are falsy. *)
Definition unique_or_property (unique : option qvariant) (now10 : Z) : qvariant :=
  match unique with
  | Some (QvInt u) => if Z.eqb u 0 then QvInt now10 else QvInt u
  | Some (QvStr t) => if Nat.eqb (String.length t) 0 then QvInt now10 else QvStr t
  | None => QvInt now10
  end.

(** The loaded store as an [XYZLayer], when its metadata are a [dict], its
    tags a [str] and its token an [int]. *)
Definition as_XYZLayer (obj : LoadedXYZLayer) : option XYZLayer :=
  match ld_meta obj, ld_tags obj, ld_unique obj with
  | JObj m, Some (QvStr tgs), QvInt u =>
      Some {| ext := ld_ext obj; conn_info := ld_conn_info obj; meta := m; tags := tgs;
              unique := u; _group_name := ld_group_name obj;
              map_vlayer := ld_map_vlayer obj; map_fields := ld_map_fields obj;
              qgroups := ld_qgroups obj; qtree := ld_qtree obj |}
  | _, _, _ => None
  end.

(** [qnode.customProperty(key)] reads from these. *)
Definition node_props (n : qnode) : gmap string qvariant :=
  match n with QGroup _ _ props _ => props | QLayerNode v => vl_props v end.

(** [XYZLayer.load_from_qnode(qnode)].  Nothing is checked but what
    [json.loads] and [from_dict] check; the failure of [from_dict], which is
    modelled from the spec, is taken to be a [TypeError].  A layer node has no
    [findGroups], which is an [AttributeError] once the store is made. *)
Definition load_from_qnode (node : qnode) (now10 : Z) : result LoadedXYZLayer :=
  let props := node_props node in
  let tags := props !! "xyz-hub-tags" in
  let unique := props !! "xyz-hub-id" in
  let name := node_name node in
  match loads_property props "xyz-hub" with
  | Raise e => Raise e
  | Ok meta =>
  match loads_property props "xyz-hub-conn" with
  | Raise e => Raise e
  | Ok conn_doc =>
  match from_dict conn_doc with
  | None => Raise TypeError
  | Some conn_info =>
  match node with
  | QLayerNode _ => Raise AttributeError
  | QGroup id _ _ _ =>
      let '(groups, (vlayers, fields)) :=
        foldl load_group (<["main" := id]> ∅, (∅, ∅)) (findGroups node) in
      Ok {| ld_ext := "gpkg"; ld_conn_info := conn_info; ld_meta := meta; ld_tags := tags;
            ld_unique := unique_or_property unique now10; ld_group_name := name;
            ld_map_vlayer := vlayers; ld_map_fields := fields; ld_qgroups := groups;
            ld_qtree := Some node |}
  end
  end
  end
  end.

(** *** Creating a partition *)

(** [add_empty_group()], with [all_names] the names of the groups at the root
    of the project's layer tree.  The group inserted at the root becomes the
    main group of the store, with the provenance saved in it.  Returns the
    identity of the main group. *)
Definition add_empty_group (self : XYZLayer) (all_names : list string) : nat * XYZLayer :=
  match qgroups self !! "main" with
  | Some group => (group, self)
  | None =>
      let name := _make_group_name repr_container self None in
      let dupe_names := List.filter (PyStr.startswith name) all_names in
      let idx := length dupe_names in
      let name := if Nat.eqb idx 0 then name
                  else _make_group_name repr_container self (Some idx) in
      let group := fresh_id (qtree self) in
      (group, set_tree self name (<["main" := group]> (qgroups self))
                (Some (QGroup group name (_save_meta_node self ∅) [])))
  end.

(** [_group_geom_name(geom_str)]. *)
Definition _group_geom_name (geom_str : string) : string :=
  if Nat.eqb (String.length geom_str) 0 then NO_GEOM else geometryDisplayString geom_str.

Definition _init_ext_layer (self : XYZLayer) (geom_str : string) (idx : Z) (crs : string)
    (w : W) : result QgsVectorLayer * W :=
  let driver_name := upper (ext self) in
  let layer_name := _layer_name repr_container self geom_str idx in
  let fname := make_fixed_full_path (_layer_fname repr_container self) (ext self) in
  let vlayer :=
    QgsVectorLayer_new (geom_str +:+ "?crs=" +:+ crs +:+ "&index=yes") layer_name "memory" w in
  let db_layer_name := _db_layer_name geom_str idx in
  match write_partition vlayer fname driver_name db_layer_name w with
  | (Raise e, _, w1) => (Raise e, w1)
  | (Ok _, _, w1) =>
      let sql_constraint := PyStr.quoted QGS_XYZ_ID +:+ " TEXT UNIQUE ON CONFLICT REPLACE" in
      match _init_constraint fname sql_constraint db_layer_name w1 with
      | (Raise e, _, w2) => (Raise e, w2)
      | (Ok _, _, w2) =>
          let uri := fname +:+ "|layername=" +:+ db_layer_name in
          let vlayer := QgsVectorLayer_new uri layer_name "ogr" w2 in
          (Ok (_save_meta self vlayer), w2)
      end
  end.

(** [add_ext_layer(geom_str, idx)].  The style given to the layer, its entry
    in the project and the active layer of the interface are left out. *)
Definition add_ext_layer (self : XYZLayer) (geom_str : string) (idx : Z)
    (all_names : list string) (w : W) : result QgsVectorLayer * XYZLayer * W :=
  let crs := crs_wkt in
  match _init_ext_layer self geom_str idx crs w with
  | (Raise e, w1) => (Raise e, self, w1)
  | (Ok vlayer, w1) =>
      match _add_layer self geom_str vlayer idx with
      | (Raise e, self1) => (Raise e, self1, w1)
      | (Ok _, self1) =>
          let '(group, self2) := add_empty_group self1 all_names in
          let geom := _group_geom_name geom_str in
          let order := GEOM_ORDER !! geom in
          let '(group_geom, tree) :=
            match qgroups self2 !! geom with
            | Some g => (g, qtree self2)
            | None =>
                let g := fresh_id (qtree self2) in
                (g, match order with
                    | Some o => insertGroup group o g geom <$> qtree self2
                    | None => addGroup group g geom <$> qtree self2
                    end)
            end in
          let self3 := set_tree self2 (_group_name self2)
                         (<[geom := group_geom]> (qgroups self2))
                         (addLayer group_geom vlayer <$> tree) in
          (Ok vlayer, self3, w1)
      end
  end.

(** *** The main group of a store, as the store builds it *)

(** A display group below the main group: its identity, its name and the
    layers of its layer nodes, in order. *)
Record child : Type := {
  c_id : nat;
  c_name : string;
  c_layers : list QgsVectorLayer
}.

Definition child_node (c : child) : qnode :=
  QGroup (c_id c) (c_name c) ∅ (map QLayerNode (c_layers c)).

Definition tree_of (mid : nat) (nm : string) (pr : gmap string qvariant) (view : list child)
    : qnode :=
  QGroup mid nm pr (map child_node view).

Definition all_layers (view : list child) : list QgsVectorLayer :=
  flat_map c_layers view.

(** The layers of a list whose WKB type displays as [k]. *)
Definition of_kind (k : string) (l : list QgsVectorLayer) : list QgsVectorLayer :=
  List.filter (fun v => String.eqb (vl_wkb v) k) l.

Definition child_add (gid : nat) (v : QgsVectorLayer) (c : child) : child :=
  if Nat.eqb (c_id c) gid
  then {| c_id := c_id c; c_name := c_name c; c_layers := c_layers c ++ [v] |}
  else c.

Definition new_child (g : nat) (geom : string) : child :=
  {| c_id := g; c_name := geom; c_layers := [] |}.

(** [_save_meta_node(qnode)] on a group of the layer tree. *)
Definition save_to_node (self : XYZLayer) (node : qnode) : qnode :=
  match node with
  | QGroup id nm pr children => QGroup id nm (_save_meta_node self pr) children
  | QLayerNode v => QLayerNode v
  end.

(** The stores that this code builds: made by [__init__] and grown by calls
    of [add_ext_layer], whether they return or raise. *)
Inductive reachable : XYZLayer -> Prop :=
  | reach_init conn m tgs unq name ex now10 :
      reachable (__init__ conn m tgs unq name ex now10)
  | reach_add self geom_str idx all_names w :
      reachable self ->
      reachable (snd (fst (add_ext_layer self geom_str idx all_names w))).

(** Every partition is registered under the kind that the data provider
    reports for its layer, and the display group of that kind is not called
    [main], the key under which [qgroups] keeps the main group. *)
Definition kinds_reported (self : XYZLayer) : Prop :=
  forall k v, v ∈ partitions self k -> vl_wkb v = k /\ _group_geom_name k <> "main".

(** What holds of a store and the display groups [view] below its main
    group [mid]: [qgroups] knows the main group and exactly the display
    groups, by name; identities and names are not shared; every layer sits in
    the display group of its kind; and the partitions of a kind are the layers
    of that kind in display order. *)
Record view_ok (self : XYZLayer) (mid : nat) (view : list child) : Prop := {
  vo_main : qgroups self !! "main" = Some mid;
  vo_ids : NoDup (map c_id view);
  vo_mid : mid ∉ map c_id view;
  vo_names : NoDup (map c_name view);
  vo_group : forall c v, c ∈ view -> v ∈ c_layers c ->
             _group_geom_name (vl_wkb v) = c_name c;
  vo_keys : forall c, c ∈ view -> c_name c <> "main" /\ qgroups self !! c_name c = Some (c_id c);
  vo_keys_inv : forall g gid, qgroups self !! g = Some gid -> g <> "main" ->
                exists c, c ∈ view /\ c_name c = g /\ c_id c = gid;
  vo_parts : forall k, partitions self k = of_kind k (all_layers view)
}.

Definition inv (self : XYZLayer) : Prop :=
  match qtree self with
  | None => qgroups self = ∅ /\ forall k, partitions self k = []
  | Some q => exists mid nm pr view, q = tree_of mid nm pr view /\ view_ok self mid view
  end.

(** *** What a registered partition is opened on *)

(** A character of a decimal numeral. *)
Definition numeral_char (c : ascii) : bool :=
  let n := nat_of_ascii c in
  (Nat.leb 48 n && Nat.leb n 57)%bool || Ascii.eqb c "-".

(** The data source of the partition of kind [geom_str] and index [idx]:
    the table of that name in the file of the store. *)
Definition partition_source (self : XYZLayer) (geom_str : string) (idx : Z) : string :=
  make_fixed_full_path (_layer_fname repr_container self) (ext self)
    +:+ "|layername=" +:+ _db_layer_name geom_str idx.

(** The layer registered at position [i] of the kind [geom_str] is the one
    that [_init_ext_layer] opens for that kind and index: on the table of
    that name, under the layer name of that kind and index, with the OGR
    provider and with the provenance of the store in its properties. *)
Definition opened_for (self : XYZLayer) (geom_str : string) (i : nat) (v : QgsVectorLayer)
    : Prop :=
  vl_source v = partition_source self geom_str (Z.of_nat i) /\
  vl_name v = _layer_name repr_container self geom_str (Z.of_nat i) /\
  vl_provider v = "ogr" /\
  vl_props v !! "xyz-hub-id" = Some (QvInt (unique self)) /\
  vl_props v !! "xyz-hub-tags" = Some (QvStr (tags self)).

(** Two states of a store with the same identity and file extension. *)
Definition same_identity (self self' : XYZLayer) : Prop :=
  ext self' = ext self /\ conn_info self' = conn_info self /\ meta self' = meta self /\
  tags self' = tags self /\ unique self' = unique self.

End WithEnv2.

End Layer.

(** ** The hub client: class [NetManager] of [network.py] *)

Module Network.
Import Models.

Definition TIMEOUT_COUNT : Z := 1000.

(** A scalar given as a keyword argument or as a feature id, and its [str]. *)
Inductive atom : Type :=
  | AStr (s : string)
  | AInt (n : Z).

Definition py_str (a : atom) : string :=
  match a with
  | AStr s => s
  | AInt n => PyStr.str_int n
  end.

(** The value of a keyword argument: a scalar or a sequence of scalars. *)
Inductive value : Type :=
  | VAtom (a : atom)
  | VSeq (l : list atom).

Inductive verb : Type := GET | POST | PUT | PATCH | DELETE.

(** The request that [make_conn_request(conn_info, endpoint, **kw_request)]
    is asked for: the connection, the endpoint template and the keyword
    arguments. *)
Record request : Type := {
  rq_conn : SpaceConnectionInfo;
  rq_endpoint : string;
  rq_kw : gmap string value
}.

(** Modelled from the spec: the request factory [make_conn_request] of
    [net_utils] is not among the sources.  By section 4.1 of the spec the
    query parameters are the keyword arguments other than the body mode
    [req_type], which the caller selects per call, and a value that is a
    sequence is written as its items joined by commas. *)
Definition serialize_value (v : value) : string :=
  match v with
  | VAtom a => py_str a
  | VSeq l => PyStr.join "," (map py_str l)
  end.

(** Modelled from the spec: the query parameters that [make_conn_request]
    serializes for a request, by name. *)
Definition query_items (rq : request) : gmap string string :=
  serialize_value <$> delete "req_type" (rq_kw rq).

(** What [set_qt_property(reply, conn_info=conn_info, **kw_prop)] attaches
    to a reply. *)
Record reply_props : Type := {
  rp_conn : SpaceConnectionInfo;
  rp_kw : gmap string value
}.

(** A request handed to the [QNetworkAccessManager], with the document given
    as its body, if any. *)
Record sent : Type := {
  s_verb : verb;
  s_request : request;
  s_body : option json
}.

Inductive reply_state : Type := Running | Finished | Aborted.

(** The slot a timer calls when it fires. *)
Inductive callback : Type :=
  | AbortReply (reply : nat).

(** The state around a [NetManager]: the requests sent, in order (a reply is
    known by the position of its request), the state and the properties of
    the replies, and the single-shot timers installed, each with its
    interval. *)
Record NetManager : Type := {
  outbox : list sent;
  states : gmap nat reply_state;
  props : gmap nat reply_props;
  timers : list (Z * callback)
}.

Definition _pre_send_request (conn_info : SpaceConnectionInfo) (endpoint : string)
    (kw_request : gmap string value) : request :=
  {| rq_conn := conn_info; rq_endpoint := endpoint; rq_kw := kw_request |}.

(** [self.network.get(request)] and the like: the request is sent and a
    running reply returned. *)
Definition network_send (self : NetManager) (v : verb) (rq : request) (body : option json)
    : nat * NetManager :=
  let reply := length (outbox self) in
  (reply,
   {| outbox := outbox self ++ [{| s_verb := v; s_request := rq; s_body := body |}];
      states := <[reply := Running]> (states self);
      props := props self;
      timers := timers self |}).

Definition _post_send_request (self : NetManager) (reply : nat)
    (conn_info : SpaceConnectionInfo) (kw_prop : gmap string value) : NetManager :=
  {| outbox := outbox self; states := states self;
     props := <[reply := {| rp_conn := conn_info; rp_kw := kw_prop |}]> (props self);
     timers := timers self |}.

Definition _send_request (self : NetManager) (conn_info : SpaceConnectionInfo)
    (endpoint : string) (kw_request kw_prop : gmap string value) : nat * NetManager :=
  let request := _pre_send_request conn_info endpoint kw_request in
  let '(reply, self1) := network_send self GET request None in
  (reply, _post_send_request self1 reply conn_info kw_prop).

Definition _get_space_ (self : NetManager) (conn_info : SpaceConnectionInfo)
    (reply_tag : string) : nat * NetManager :=
  let tag := if String.eqb reply_tag "space_meta" then "" else "/" +:+ reply_tag in
  let endpoint := "/spaces/{space_id}" +:+ tag in
  _send_request self conn_info endpoint ∅ {[ "reply_tag" := VAtom (AStr reply_tag) ]}.

(** [QTimer.singleShot(msec, slot)]. *)
Definition singleShot (self : NetManager) (msec : Z) (slot : callback) : NetManager :=
  {| outbox := outbox self; states := states self; props := props self;
     timers := timers self ++ [(msec, slot)] |}.

Definition get_statistics (self : NetManager) (conn_info : SpaceConnectionInfo)
    : nat * NetManager :=
  let '(reply, self1) := _get_space_ self conn_info "statistics" in
  let timeout := TIMEOUT_COUNT in
  (reply, singleShot self1 timeout (AbortReply reply)).

Definition get_count (self : NetManager) (conn_info : SpaceConnectionInfo)
    : nat * NetManager :=
  _get_space_ self conn_info "count".

Definition get_meta (self : NetManager) (conn_info : SpaceConnectionInfo)
    : nat * NetManager :=
  _get_space_ self conn_info "space_meta".

(** [reply.abort()]: a running reply is aborted, any other is left as it
    is. *)
Definition abort (self : NetManager) (reply : nat) : NetManager :=
  match states self !! reply with
  | Some Running =>
      {| outbox := outbox self; states := <[reply := Aborted]> (states self);
         props := props self; timers := timers self |}
  | _ => self
  end.

(** A timer fires: its slot is called. *)
Definition fire (self : NetManager) (slot : callback) : NetManager :=
  match slot with
  | AbortReply reply => abort self reply
  end.

(** [_add_features(conn_info, added_feat, send_request, **kw)], with
    [send_request] given by its verb ([self.network.post] or
    [self.network.put]).  [dict(req_type="geo", **kw)] raises [TypeError] when
    [kw] has the key [req_type] itself. *)
Definition _add_features (self : NetManager) (conn_info : SpaceConnectionInfo)
    (added_feat : json) (send_request : verb) (kw : gmap string value)
    : result nat * NetManager :=
  let endpoint := "/spaces/{space_id}/features" in
  let kw := match kw !! "tags" with
            | Some t => <["addTags" := t]> kw
            | None => kw
            end in
  match kw !! "req_type" with
  | Some _ => (Raise TypeError, self)
  | None =>
      let kw_request := <["req_type" := VAtom (AStr "geo")]> kw in
      let kw_prop := kw ∪ {[ "reply_tag" := VAtom (AStr "add_feat") ]} in
      let request := _pre_send_request conn_info endpoint kw_request in
      let payload := added_feat in
      let '(reply, self1) := network_send self send_request request (Some payload) in
      (Ok reply, _post_send_request self1 reply conn_info kw_prop)
  end.

Definition add_features (self : NetManager) (conn_info : SpaceConnectionInfo)
    (added_feat : json) (kw : gmap string value) : result nat * NetManager :=
  _add_features self conn_info added_feat POST kw.

Definition modify_features (self : NetManager) (conn_info : SpaceConnectionInfo)
    (added_feat : json) (kw : gmap string value) : result nat * NetManager :=
  add_features self conn_info added_feat kw.

Definition replace_features (self : NetManager) (conn_info : SpaceConnectionInfo)
    (added_feat : json) (kw : gmap string value) : result nat * NetManager :=
  _add_features self conn_info added_feat PUT kw.

Definition del_features (self : NetManager) (conn_info : SpaceConnectionInfo)
    (removed_feat : list atom) (kw : gmap string value) : nat * NetManager :=
  let query_del : gmap string value :=
    {[ "id" := VAtom (AStr (PyStr.join "," (map py_str removed_feat))) ]} in
  let kw := query_del ∪ kw in
  let endpoint := "/spaces/{space_id}/features" in
  let kw_request := kw in
  let kw_prop : gmap string value := {[ "reply_tag" := VAtom (AStr "del_feat") ]} in
  let request := _pre_send_request conn_info endpoint kw_request in
  let '(reply, self1) := network_send self DELETE request None in
  (reply, _post_send_request self1 reply conn_info kw_prop).

Definition empty_manager : NetManager :=
  {| outbox := []; states := ∅; props := ∅; timers := [] |}.

(** *** The other requests of [NetManager] *)

Definition list_spaces (self : NetManager) (conn_info : SpaceConnectionInfo)
    : nat * NetManager :=
  let endpoint := "/spaces" in
  _send_request self conn_info endpoint
    {[ "includeRights" := VAtom (AStr "true") ]} {[ "reply_tag" := VAtom (AStr "spaces") ]}.

Section Spaces.

(** [net_utils.prepare_new_space_info(space_info)]. *)
Variable prepare_new_space_info : json -> json.

(** [add_space(conn_info, space_info)]; the body is what [make_payload] is
    given. *)
Definition add_space (self : NetManager) (conn_info : SpaceConnectionInfo)
    (space_info : json) : nat * NetManager :=
  let space_info := prepare_new_space_info space_info in
  let endpoint := "/spaces" in
  let kw_request : gmap string value := {[ "req_type" := VAtom (AStr "json") ]} in
  let kw_prop : gmap string value := {[ "reply_tag" := VAtom (AStr "add_space") ]} in
  let request := _pre_send_request conn_info endpoint kw_request in
  let '(reply, self1) := network_send self POST request (Some space_info) in
  (reply, _post_send_request self1 reply conn_info kw_prop).

End Spaces.

(** [edit_space(conn_info, space_info)]; the body is what [make_buffer] is
    given. *)
Definition edit_space (self : NetManager) (conn_info : SpaceConnectionInfo)
    (space_info : json) : nat * NetManager :=
  let endpoint := "/spaces/{space_id}" in
  let kw_request : gmap string value := {[ "req_type" := VAtom (AStr "json") ]} in
  let kw_prop : gmap string value := {[ "reply_tag" := VAtom (AStr "edit_space") ]} in
  let request := _pre_send_request conn_info endpoint kw_request in
  let '(reply, self1) := network_send self PATCH request (Some space_info) in
  (reply, _post_send_request self1 reply conn_info kw_prop).

Definition del_space (self : NetManager) (conn_info : SpaceConnectionInfo)
    : nat * NetManager :=
  let endpoint := "/spaces/{space_id}" in
  let kw_request : gmap string value := ∅ in
  let kw_prop : gmap string value := {[ "reply_tag" := VAtom (AStr "del_space") ]} in
  let request := _pre_send_request conn_info endpoint kw_request in
  let '(reply, self1) := network_send self DELETE request None in
  (reply, _post_send_request self1 reply conn_info kw_prop).

(** [_load_features_endpoint(endpoint, conn_info, reply_tag, **kw_iterate)]. *)
Definition _load_features_endpoint (self : NetManager) (endpoint : string)
    (conn_info : SpaceConnectionInfo) (reply_tag : value) (kw_iterate : gmap string value)
    : nat * NetManager :=
  let kw_request := kw_iterate in
  let kw_prop := kw_iterate ∪ {[ "reply_tag" := reply_tag ]} in
  _send_request self conn_info endpoint kw_request kw_prop.

(** The call
    [self._load_features_endpoint(endpoint, conn_info, reply_tag=reply_tag, **kw)]:
    a key of [kw] that names a parameter of the method gives that parameter a
    second value, which is a [TypeError]. *)
Definition call_load_features_endpoint (self : NetManager) (endpoint : string)
    (conn_info : SpaceConnectionInfo) (reply_tag : value) (kw : gmap string value)
    : result nat * NetManager :=
  if bool_decide (Exists (fun name => is_Some (kw !! name))
                    ["self"; "endpoint"; "conn_info"; "reply_tag"])
  then (Raise TypeError, self)
  else let '(reply, self') := _load_features_endpoint self endpoint conn_info reply_tag kw in
       (Ok reply, self').

(** [load_features_tile(conn_info, tile_id, tile_schema, **kw)]; the defaults
    of [tile_id] and [tile_schema] are ["0"] and ["quadkey"]. *)
Definition load_features_tile (self : NetManager) (conn_info : SpaceConnectionInfo)
    (tile_id tile_schema : atom) (kw : gmap string value) : result nat * NetManager :=
  let reply_tag := "tile" in
  let tile_url := "tile/" +:+ py_str tile_schema +:+ "/" +:+ py_str tile_id in
  let endpoint := "/spaces/{space_id}/" +:+ tile_url in
  call_load_features_endpoint self endpoint conn_info (VAtom (AStr reply_tag)) kw.

(** [load_features_iterate(conn_info, **kw_iterate)]:
    [kw_iterate.pop("reply_tag", "iterate")] takes the tag out of the keyword
    arguments. *)
Definition load_features_iterate (self : NetManager) (conn_info : SpaceConnectionInfo)
    (kw_iterate : gmap string value) : result nat * NetManager :=
  let reply_tag := default (VAtom (AStr "iterate")) (kw_iterate !! "reply_tag") in
  let kw_iterate := delete "reply_tag" kw_iterate in
  let endpoint := "/spaces/{space_id}/iterate" in
  call_load_features_endpoint self endpoint conn_info reply_tag kw_iterate.

Definition load_features_search (self : NetManager) (conn_info : SpaceConnectionInfo)
    (kw_iterate : gmap string value) : result nat * NetManager :=
  let reply_tag := default (VAtom (AStr "search")) (kw_iterate !! "reply_tag") in
  let kw_iterate := delete "reply_tag" kw_iterate in
  let endpoint := "/spaces/{space_id}/search" in
  call_load_features_endpoint self endpoint conn_info reply_tag kw_iterate.

(** A call of a method of [NetManager], with its arguments. *)
Inductive call : Type :=
  | GetStatistics (conn_info : SpaceConnectionInfo)
  | GetCount (conn_info : SpaceConnectionInfo)
  | GetMeta (conn_info : SpaceConnectionInfo)
  | ListSpaces (conn_info : SpaceConnectionInfo)
  | AddSpace (conn_info : SpaceConnectionInfo) (space_info : json)
  | EditSpace (conn_info : SpaceConnectionInfo) (space_info : json)
  | DelSpace (conn_info : SpaceConnectionInfo)
  | LoadFeaturesTile (conn_info : SpaceConnectionInfo) (tile_id tile_schema : atom)
      (kw : gmap string value)
  | LoadFeaturesIterate (conn_info : SpaceConnectionInfo) (kw : gmap string value)
  | LoadFeaturesSearch (conn_info : SpaceConnectionInfo) (kw : gmap string value)
  | AddFeatures (conn_info : SpaceConnectionInfo) (added_feat : json) (kw : gmap string value)
  | ModifyFeatures (conn_info : SpaceConnectionInfo) (added_feat : json)
      (kw : gmap string value)
  | ReplaceFeatures (conn_info : SpaceConnectionInfo) (added_feat : json)
      (kw : gmap string value)
  | DelFeatures (conn_info : SpaceConnectionInfo) (removed_feat : list atom)
      (kw : gmap string value).

Definition call_conn (c : call) : SpaceConnectionInfo :=
  match c with
  | GetStatistics ci | GetCount ci | GetMeta ci | ListSpaces ci | AddSpace ci _
  | EditSpace ci _ | DelSpace ci | LoadFeaturesTile ci _ _ _ | LoadFeaturesIterate ci _
  | LoadFeaturesSearch ci _ | AddFeatures ci _ _ | ModifyFeatures ci _ _
  | ReplaceFeatures ci _ _ | DelFeatures ci _ _ => ci
  end.

Section Perform.

Variable prepare_new_space_info : json -> json.

Definition no_raise (r : nat * NetManager) : result nat * NetManager :=
  (Ok (fst r), snd r).

(** The method called, on the manager [self]. *)
Definition perform (self : NetManager) (c : call) : result nat * NetManager :=
  match c with
  | GetStatistics ci => no_raise (get_statistics self ci)
  | GetCount ci => no_raise (get_count self ci)
  | GetMeta ci => no_raise (get_meta self ci)
  | ListSpaces ci => no_raise (list_spaces self ci)
  | AddSpace ci info => no_raise (add_space prepare_new_space_info self ci info)
  | EditSpace ci info => no_raise (edit_space self ci info)
  | DelSpace ci => no_raise (del_space self ci)
  | LoadFeaturesTile ci tile_id tile_schema kw => load_features_tile self ci tile_id tile_schema kw
  | LoadFeaturesIterate ci kw => load_features_iterate self ci kw
  | LoadFeaturesSearch ci kw => load_features_search self ci kw
  | AddFeatures ci feat kw => add_features self ci feat kw
  | ModifyFeatures ci feat kw => modify_features self ci feat kw
  | ReplaceFeatures ci feat kw => replace_features self ci feat kw
  | DelFeatures ci ids kw => no_raise (del_features self ci ids kw)
  end.

(** Calls one after the other; a call that raises is passed over. *)
Definition perform_all (self : NetManager) (calls : list call) : NetManager :=
  foldl (fun n c => snd (perform n c)) self calls.

End Perform.

(** What a request that is sent changes: the reply is a new one, its request
    is appended, it is running, and the connection and a reply tag are
    attached to it. *)
Record sends_one (self self' : NetManager) (ci : SpaceConnectionInfo) (reply : nat) : Prop := {
  so_reply : reply = length (outbox self);
  so_outbox : exists entry, outbox self' = outbox self ++ [entry] /\
                            rq_conn (s_request entry) = ci;
  so_states : states self' = <[reply := Running]> (states self);
  so_props : exists p, props self' = <[reply := p]> (props self) /\ rp_conn p = ci /\
                       is_Some (rp_kw p !! "reply_tag")
}.

Definition is_get_statistics (c : call) : bool :=
  match c with GetStatistics _ => true | _ => false end.

(** The books of a manager agree: the replies that have a state and
    properties are those of the requests sent, and every timer has the
    interval [TIMEOUT_COUNT] and aborts the reply of a request for the
    statistics of a space. *)
Record consistent (n : NetManager) : Prop := {
  co_props : forall r, (r < length (outbox n))%nat <-> is_Some (props n !! r);
  co_states : forall r, (r < length (outbox n))%nat <-> is_Some (states n !! r);
  co_timers : forall t slot, (t, slot) ∈ timers n ->
      exists r e, slot = AbortReply r /\ t = TIMEOUT_COUNT /\ outbox n !! r = Some e /\
                  s_verb e = GET /\ rq_endpoint (s_request e) = "/spaces/{space_id}/statistics"
}.

End Network.

(** ** A concrete store and a concrete environment, for running the model *)

Module Demo.
Import Models Layer.

Definition demo_conn : SpaceConnectionInfo :=
  {| server := "https://xyz.api.here.com/hub"; space_id := "abc"; token := "tok";
     headers := [] |}.

Definition demo_vlayer (name : string) : QgsVectorLayer :=
  {| vl_source := "abc_15710.gpkg|layername=" +:+ name; vl_name := name;
     vl_provider := "ogr"; vl_wkb := "Point"; vl_fields := []; vl_props := ∅ |}.

Definition demo_store : XYZLayer :=
  __init__ demo_conn [("id", JStr "abc"); ("title", JStr "roads")] "a,b" (Some 15710)
    "XYZ Hub Layer" "gpkg" 99.

Definition demo_store1 : XYZLayer :=
  snd (_add_layer demo_store "Point" (demo_vlayer "Point_0") 0).

Definition demo_store_failed : XYZLayer :=
  snd (_add_layer demo_store "Line" (demo_vlayer "Line_3") 3).

Definition demo_store_other : XYZLayer :=
  __init__ demo_conn [("id", JStr "abc"); ("title", JStr "roads")] "a,b" (Some 15711)
    "XYZ Hub Layer" "gpkg" 99.

(** The files: for each file name the tables in it, each with the WKB type
    of the layer written into it. *)
Definition files : Type := gmap string (gmap string string).

Definition drop_layername (s : string) : string :=
  let '(_, _, rest) := PyStr.partition_char "=" s in rest.

(** The writer adds a table to a file that exists and reports
    [ErrCreateDataSource] for one that does not, unless asked to create the
    file. *)
Definition demo_write (vlayer : QgsVectorLayer) (fname : string) (options : SaveVectorOptions)
    (w : files) : (WriterError * string) * files :=
  match actionOnExistingFile options, w !! fname with
  | CreateOrOverwriteLayer, None => ((ErrCreateDataSource, "creation of data source failed"), w)
  | CreateOrOverwriteLayer, Some tables =>
      ((NoError, ""), <[fname := <[layerName options := vl_wkb vlayer]> tables]> w)
  | CreateOrOverwriteFile, _ =>
      ((NoError, ""), <[fname := {[layerName options := vl_wkb vlayer]}]> w)
  end.

(** The catalogue entries of a table as the GeoPackage driver creates it. *)
Definition gpkg_catalog (layer_name : string) : list (string * string) :=
  [("table", "CREATE TABLE " +:+ PyStr.quoted layer_name +:+ " ( " +:+ PyStr.quoted "fid"
             +:+ " INTEGER PRIMARY KEY AUTOINCREMENT NOT NULL, " +:+ PyStr.quoted "geom"
             +:+ " POINT)");
   ("trigger", "CREATE TRIGGER " +:+ PyStr.quoted ("rtree_" +:+ layer_name +:+ "_geom_delete")
             +:+ " AFTER DELETE ON " +:+ PyStr.quoted layer_name
             +:+ " BEGIN DELETE FROM " +:+ PyStr.quoted ("rtree_" +:+ layer_name +:+ "_geom")
             +:+ " WHERE id = OLD." +:+ PyStr.quoted "fid" +:+ "; END")].

Definition demo_wkb (source provider : string) (w : files) : string :=
  if String.eqb provider "memory" then
    let '(geom, _, _) := PyStr.partition_char "?" source in geom
  else
    let '(fname, _, rest) := PyStr.partition_char "|" source in
    default "" (w !! fname ≫= fun tables => tables !! drop_layername rest).

Definition demo_geometry (geom_str : string) : string :=
  if PyStr.contains "Point" geom_str then "Point"
  else if PyStr.contains "Line" geom_str then "Line"
  else if PyStr.contains "Polygon" geom_str then "Polygon"
  else if String.eqb geom_str "NoGeometry" then NO_GEOM
  else "Unknown geometry".

(** What QGIS reports for a layer without geometry. *)
Definition demo_wkb_nogeom (source provider : string) (w : files) : string :=
  let reported := demo_wkb source provider w in
  if String.eqb reported "" then "NoGeometry" else reported.

(** An environment over [files] in which the catalogue of every table of a
    file holds the rows [rows], the layers report their kind as [wkb] says,
    and the engine carries out every action. *)
Definition demo_env_of (rows : string -> list (string * option string))
    (wkb : string -> string -> files -> string) : Env :=
  {| W := files;
     writeAsVectorFormat := demo_write;
     select_master := fun fname layer_name w =>
       match w !! fname ≫= fun tables => tables !! layer_name with
       | Some _ => rows layer_name
       | None => []
       end;
     sqlite_step := fun _ _ w => Some w;
     provider_wkb := wkb;
     provider_fields := fun _ _ _ => [];
     geometryDisplayString := demo_geometry;
     crs_wkt := "EPSG:4326";
     make_fixed_full_path := fun fname ext => "/data/" +:+ fname +:+ "." +:+ ext;
     QGS_XYZ_ID := "xyz_id";
     repr_container := Json.dumps;
     json_dumps := Json.dumps;
     json_loads := Json.loads |}.

(** The environment in which every row of the catalogue has its statement. *)
Definition demo_env (catalog : string -> list (string * string)) : Env :=
  demo_env_of (fun layer_name => map (fun row => (fst row, Some (snd row))) (catalog layer_name))
    demo_wkb.




(** The catalogue of a table that has the constraint already: the row of the
    index that SQLite made for the [UNIQUE] column has no statement. *)
Definition unique_rows (layer_name : string) : list (string * option string) :=
  [("table", Some ("CREATE TABLE " +:+ PyStr.quoted layer_name +:+ " ( " +:+ PyStr.quoted "fid"
                   +:+ " INTEGER PRIMARY KEY AUTOINCREMENT NOT NULL, " +:+ PyStr.quoted "xyz_id"
                   +:+ " TEXT UNIQUE ON CONFLICT REPLACE)"));
   ("index", None)].

Definition demo_env_unique : Env := demo_env_of unique_rows demo_wkb.

Definition demo_files : files := {[ "/data/abc.gpkg" := {[ "Point_0" := "Point" ]} ]}.

Definition demo_constraint : string :=
  PyStr.quoted "xyz_id" +:+ " TEXT UNIQUE ON CONFLICT REPLACE".

(** Two partitions added to the store in the environment of the GeoPackage
    driver, starting from no file. *)
Definition demo_env_gpkg : Env := demo_env gpkg_catalog.

Definition demo_added1 : XYZLayer :=
  snd (fst (@add_ext_layer demo_env_gpkg demo_store "Point" 0 [] ∅)).

Definition demo_files1 : files :=
  snd (@add_ext_layer demo_env_gpkg demo_store "Point" 0 [] ∅).

Definition demo_added2 : XYZLayer :=
  snd (fst (@add_ext_layer demo_env_gpkg demo_added1 "LineString" 0 [] demo_files1)).

Definition demo_files2 : files :=
  snd (@add_ext_layer demo_env_gpkg demo_added1 "LineString" 0 [] demo_files1).

Definition demo_added3 : XYZLayer :=
  snd (fst (@add_ext_layer demo_env_gpkg demo_added2 "Point" 1 [] demo_files2)).

(** The layer that a call returned. *)
Definition returned (r : result QgsVectorLayer * XYZLayer * files) : QgsVectorLayer :=
  match fst (fst r) with
  | Ok v => v
  | Raise _ => demo_vlayer EmptyString
  end.

Definition demo_tree3 : qnode :=
  default (QLayerNode (demo_vlayer "Point_0")) (qtree demo_added3).

(** The identity and the children of a group. *)
Definition group_id (n : qnode) : nat :=
  match n with QGroup id _ _ _ => id | QLayerNode _ => 0%nat end.

Definition group_children (n : qnode) : list qnode :=
  match n with QGroup _ _ _ children => children | QLayerNode _ => [] end.

(** A partition of the empty kind, for features without geometry, added in an
    environment in which the layer reports the kind [NoGeometry], and the
    store loaded back from the main group. *)
Definition demo_env_nogeom : Env :=
  demo_env_of (fun layer_name =>
                 map (fun row => (fst row, Some (snd row))) (gpkg_catalog layer_name))
    demo_wkb_nogeom.

Definition demo_nogeom_added : XYZLayer :=
  snd (fst (@add_ext_layer demo_env_nogeom demo_store "" 0 [] ∅)).

Definition demo_nogeom_tree : qnode :=
  default (QLayerNode (demo_vlayer "")) (qtree demo_nogeom_added).

Definition demo_nogeom_loaded : result LoadedXYZLayer :=
  @load_from_qnode demo_env_nogeom
    (@save_to_node demo_env_nogeom demo_nogeom_added demo_nogeom_tree) 7.

(** A saved main group with a layer of its own beside a display group. *)
Definition demo_loose_tree_props : gmap string qvariant :=
  @_save_meta_node demo_env_gpkg demo_store ∅.



Definition demo_store_x : XYZLayer :=
  __init__ demo_conn [("id", JStr "xyz"); ("title", JStr "rivers")] "" (Some 15712)
    "XYZ Hub Layer" "gpkg" 99.

Import Network.

Definition demo_features : json := JArr [JObj [("type", JStr "FeatureCollection")]].

Definition demo_kw : gmap string value := {[ "tags" := VSeq [AStr "a"; AStr "b"] ]}.

(** Paging arguments: a page size and the cursor of the previous page. *)
Definition demo_page : gmap string value :=
  {[ "limit" := VAtom (AInt 2); "handle" := VAtom (AStr "h-17") ]}.

Definition demo_page_tagged : gmap string value :=
  <["reply_tag" := VAtom (AStr "init_layer")]> demo_page.

End Demo.

(** * Properties *)

(** ** The string operations on examples *)

Example replace_ex1 : PyStr.replace "a,b,,c" "," "_" = "a_b__c".
Proof. reflexivity. Qed.

Example replace_ex2 : PyStr.replace "aaa" "aa" "b" = "ba".
Proof. reflexivity. Qed.

Example replace_ex3 : PyStr.replace "ab" "" "-" = "-a-b-".
Proof. reflexivity. Qed.

Example partition_ex1 : PyStr.partition_char ")" "f(x) g(y)" = ("f(x", ")", " g(y)").
Proof. reflexivity. Qed.

Example partition_ex2 : PyStr.partition_char ")" "abc" = ("abc", "", "").
Proof. reflexivity. Qed.

Example str_int_ex : PyStr.str_int (-15710) = "-15710" /\ PyStr.str_int 0 = "0".
Proof. split; reflexivity. Qed.

Example index_ex : PyStr.index [10; 20; 30] (-1) = Some 30 /\ PyStr.index [10; 20; 30] 3 = None.
Proof. split; reflexivity. Qed.

(** ** The connection descriptor survives [to_dict] and [from_dict] *)

Module ModelsFacts.
Import Models.

Lemma as_str_items_map (h : list (string * string)) :
  as_str_items (map (fun kv => (fst kv, JStr (snd kv))) h) = Some h.
Proof.
  induction h as [|[k v] h IH]; simpl; [reflexivity|].
  now rewrite IH.
Qed.

Lemma from_dict_to_dict (c : SpaceConnectionInfo) : from_dict (to_dict c) = Some c.
Proof.
  destruct c as [sv sp tk h]. unfold from_dict, to_dict. simpl.
  now rewrite as_str_items_map.
Qed.

End ModelsFacts.

(** ** Registering and looking up partitions *)

Module LayerFacts.
Import Models Layer Demo.

Lemma partitions_set_map_vlayer (self : XYZLayer) (m : gmap string (list QgsVectorLayer)) (k : string) :
  partitions (set_map_vlayer self m) k = default [] (m !! k).
Proof. reflexivity. Qed.

Lemma setdefault_fst {A} (d : gmap string (list A)) (k : string) :
  fst (setdefault d k) = default [] (d !! k).
Proof. unfold setdefault. now destruct (d !! k). Qed.

Lemma setdefault_snd_lookup {A} (d : gmap string (list A)) (k k' : string) :
  default [] (snd (setdefault d k) !! k') = default [] (d !! k').
Proof.
  unfold setdefault. destruct (d !! k) eqn:E; simpl; [reflexivity|].
  destruct (decide (k = k')) as [->|Hne].
  - now rewrite lookup_insert_eq, E.
  - now rewrite lookup_insert_ne.
Qed.

Lemma index_last {A} (l : list A) (x : A) :
  PyStr.index (l ++ [x]) (Z.of_nat (length l)) = Some x.
Proof.
  unfold PyStr.index. rewrite length_app. simpl.
  destruct (Z.leb_spec 0 (Z.of_nat (length l))); [|lia].
  destruct (Z.ltb_spec (Z.of_nat (length l)) (Z.of_nat (length l + 1))); [|lia].
  rewrite Nat2Z.id. rewrite lookup_app_r by lia.
  now rewrite Nat.sub_diag.
Qed.

(** The two outcomes of [_add_layer]; nothing but [map_vlayer] changes. *)
Lemma add_layer_cases (self : XYZLayer) (k : string) (v : QgsVectorLayer) (i : Z) :
  let r := _add_layer self k v i in
  (qgroups (snd r) = qgroups self /\ qtree (snd r) = qtree self /\
   unique (snd r) = unique self /\ meta (snd r) = meta self /\
   tags (snd r) = tags self /\ conn_info (snd r) = conn_info self /\
   _group_name (snd r) = _group_name self) /\
  (i = Z.of_nat (length (partitions self k)) ->
     fst r = Ok tt /\
     partitions (snd r) k = partitions self k ++ [v] /\
     forall k', k' <> k -> partitions (snd r) k' = partitions self k') /\
  (i <> Z.of_nat (length (partitions self k)) ->
     fst r = Raise (AssertionError "vlayer count mismatch") /\
     forall k', partitions (snd r) k' = partitions self k').
Proof.
  intros r. subst r. unfold _add_layer.
  pose proof (setdefault_fst (map_vlayer self) k) as Hfst.
  pose proof (setdefault_snd_lookup (map_vlayer self) k) as Hsnd.
  destruct (setdefault (map_vlayer self) k) as [lst m]. simpl in Hfst, Hsnd.
  fold (partitions self k) in Hfst. subst lst.
  destruct (Z.eqb_spec i (Z.of_nat (length (partitions self k)))) as [Heq|Hne]; simpl.
  - split; [repeat split|]. split; [|tauto]. intros _.
    rewrite !partitions_set_map_vlayer, lookup_insert_eq. simpl.
    repeat split.
    intros k' Hk'. rewrite partitions_set_map_vlayer, lookup_insert_ne by congruence.
    apply Hsnd.
  - split; [repeat split|]. split; [tauto|]. intros _.
    split; [reflexivity|]. intros k'. rewrite partitions_set_map_vlayer. apply Hsnd.
Qed.

(** C1. [_add_layer] succeeds exactly when [idx] is the number of partitions
    already registered for the kind; then the new partition is appended at
    position [idx], the count grows by one and the other kinds keep their
    lists.  For any other [idx] the call raises the assertion error and no
    kind gains or loses a partition. *)
Theorem add_layer_appends_at_count (self : XYZLayer) (k : string)
    (v : QgsVectorLayer) (i : Z) :
  let n := length (partitions self k) in
  let r := _add_layer self k v i in
  (fst r = Ok tt <-> i = Z.of_nat n) /\
  (i = Z.of_nat n ->
     partitions (snd r) k = partitions self k ++ [v] /\
     length (partitions (snd r) k) = S n /\
     PyStr.index (partitions (snd r) k) i = Some v /\
     forall k', k' <> k -> partitions (snd r) k' = partitions self k') /\
  (i <> Z.of_nat n ->
     fst r = Raise (AssertionError "vlayer count mismatch") /\
     forall k', partitions (snd r) k' = partitions self k').
Proof.
  intros n r. subst n r.
  destruct (add_layer_cases self k v i) as (_ & Hok & Hraise).
  split; [|split].
  - split.
    + intros Hr. destruct (Z.eq_dec i (Z.of_nat (length (partitions self k)))) as [|Hne];
        [assumption|].
      destruct (Hraise Hne) as [Hr' _]. rewrite Hr' in Hr. discriminate Hr.
    + intros Heq. now destruct (Hok Heq).
  - intros Heq. destruct (Hok Heq) as (_ & Happ & Hother).
    split; [exact Happ|]. rewrite Happ. split; [|split; [|exact Hother]].
    + rewrite length_app. simpl. lia.
    + rewrite Heq. apply index_last.
  - exact Hraise.
Qed.

Lemma add_layer_appends_at_count_witness :
  partitions (snd (_add_layer demo_store1 "Point" (demo_vlayer "Point_1") 1)) "Point"
    = [demo_vlayer "Point_0"; demo_vlayer "Point_1"] /\
  fst (_add_layer demo_store1 "Point" (demo_vlayer "Point_3") 3)
    = Raise (AssertionError "vlayer count mismatch").
Proof.
  split.
  - pose proof (add_layer_appends_at_count demo_store1 "Point" (demo_vlayer "Point_1") 1) as H.
    simpl in H. destruct H as (_ & H & _).
    destruct (H eq_refl) as (H1 & _). exact H1.
  - pose proof (add_layer_appends_at_count demo_store1 "Point" (demo_vlayer "Point_3") 3) as H.
    simpl in H. destruct H as (_ & _ & H).
    destruct H as (H1 & _); [discriminate|]. exact H1.
Defined.

Lemma index_nat {A} (l : list A) (i : Z) :
  0 <= i -> PyStr.index l i = if Z.ltb i (Z.of_nat (length l)) then l !! Z.to_nat i else None.
Proof.
  intros Hi. unfold PyStr.index. now destruct (Z.leb_spec 0 i); [|lia].
Qed.

(** C10. For an index [i >= 0], [has_layer] holds exactly when the kind has an
    entry and [i] is below its number of partitions; then [get_layer] returns
    the partition at position [i], and when [has_layer] is false [get_layer]
    raises. *)
Theorem has_layer_guards_get_layer (self : XYZLayer) (k : string) (i : Z) (Hi : 0 <= i) :
  (has_layer self k i = true <->
     k ∈ dom (map_vlayer self) /\ i < Z.of_nat (length (partitions self k))) /\
  (has_layer self k i = true ->
     exists v, get_layer self k i = Ok v /\ partitions self k !! Z.to_nat i = Some v) /\
  (has_layer self k i = false -> exists e, get_layer self k i = Raise e).
Proof.
  assert (Hiff : has_layer self k i = true <->
     k ∈ dom (map_vlayer self) /\ i < Z.of_nat (length (partitions self k))).
  { unfold has_layer. rewrite andb_true_iff, bool_decide_eq_true, Z.ltb_lt. reflexivity. }
  split; [exact Hiff|]. split.
  - intros Ht. apply Hiff in Ht. destruct Ht as [Hdom Hlt].
    apply elem_of_dom in Hdom. destruct Hdom as [lst Hl].
    unfold get_layer, partitions in *. rewrite Hl in *. simpl in *.
    rewrite index_nat by assumption.
    destruct (Z.ltb_spec i (Z.of_nat (length lst))); [|lia].
    destruct (lookup_lt_is_Some_2 lst (Z.to_nat i)) as [v Hv]; [lia|].
    exists v. now rewrite Hv.
  - intros Hf. unfold has_layer in Hf. apply andb_false_iff in Hf.
    unfold get_layer, partitions in *.
    destruct (map_vlayer self !! k) as [lst|] eqn:Hl; [|eauto].
    destruct Hf as [Hf|Hf].
    + apply bool_decide_eq_false in Hf. exfalso. apply Hf. apply elem_of_dom. eauto.
    + simpl in Hf. rewrite index_nat by assumption. rewrite Hf. eauto.
Qed.

Lemma has_layer_guards_get_layer_witness :
  (exists v, get_layer demo_store1 "Point" 0 = Ok v /\
             partitions demo_store1 "Point" !! Z.to_nat 0 = Some v) /\
  (exists e, get_layer demo_store1 "Point" 1 = Raise e) /\
  (exists e, get_layer demo_store1 "Line" 0 = Raise e).
Proof.
  pose proof (has_layer_guards_get_layer demo_store1 "Point" 0 ltac:(lia)) as (_ & H0 & _).
  pose proof (has_layer_guards_get_layer demo_store1 "Point" 1 ltac:(lia)) as (_ & _ & H1).
  pose proof (has_layer_guards_get_layer demo_store1 "Line" 0 ltac:(lia)) as (_ & _ & H2).
  split; [apply H0; reflexivity|]. split; [apply H1; reflexivity|apply H2; reflexivity].
Defined.

(** C6. The file name is a function of the space id, the tag string and the
    uniqueness token: stores that agree on the space id and on the tags have
    the same file name when their tokens are equal, and different file names
    when their tokens differ. *)
Theorem layer_fname_deterministic_distinct (repr_container : json -> string)
    (s1 s2 : XYZLayer) :
  dict_get_default (meta s1) "id" (JStr "") = dict_get_default (meta s2) "id" (JStr "") ->
  tags s1 = tags s2 ->
  (unique s1 = unique s2 -> _layer_fname repr_container s1 = _layer_fname repr_container s2) /\
  (unique s1 <> unique s2 -> _layer_fname repr_container s1 <> _layer_fname repr_container s2).
Proof.
  intros Hid Htags. unfold _layer_fname, meta_text. rewrite Hid, Htags.
  split.
  - now intros ->.
  - intros Hne Heq. apply Hne.
    repeat (apply (inj (String.append _)) in Heq).
    unfold PyStr.str_int in Heq. exact (inj pretty _ _ Heq).
Qed.

Lemma layer_fname_deterministic_distinct_witness :
  _layer_fname (fun _ => "") demo_store = "abc_a_b_15710" /\
  _layer_fname (fun _ => "") demo_store <> _layer_fname (fun _ => "") demo_store_other.
Proof.
  split; [reflexivity|].
  apply (layer_fname_deterministic_distinct (fun _ => "") demo_store demo_store_other);
    [reflexivity | reflexivity | discriminate].
Defined.

End LayerFacts.

(** ** Writing the table and migrating its schema *)

Module StorageFacts.
Import Models Layer Demo.

Lemma append_cons (c : ascii) (a b : string) : String c a +:+ b = String c (a +:+ b).
Proof. reflexivity. Qed.

Lemma append_nil_l (b : string) : EmptyString +:+ b = b.
Proof. reflexivity. Qed.

Lemma append_assoc (a b c : string) : (a +:+ b) +:+ c = a +:+ (b +:+ c).
Proof.
  induction a as [|x a IH]; [reflexivity|].
  now rewrite !append_cons, IH.
Qed.

Lemma append_empty_r (a : string) : a +:+ EmptyString = a.
Proof.
  induction a as [|x a IH]; [reflexivity|].
  now rewrite append_cons, IH.
Qed.

Lemma partition_char_split (sep : ascii) (a b : string) :
  occurs sep a = false ->
  PyStr.partition_char sep (a +:+ String sep b) = (a, String sep EmptyString, b).
Proof.
  induction a as [|c a IH]; intros Ha.
  - rewrite append_nil_l. simpl. now rewrite Ascii.eqb_refl.
  - simpl in Ha. apply orb_false_iff in Ha. destruct Ha as [Hc Ha].
    rewrite append_cons. simpl. rewrite Hc. now rewrite (IH Ha).
Qed.

Lemma partition_char_none (sep : ascii) (s : string) :
  occurs sep s = false ->
  PyStr.partition_char sep s = (s, EmptyString, EmptyString).
Proof.
  induction s as [|c s IH]; simpl; intros Hs; [reflexivity|].
  apply orb_false_iff in Hs. destruct Hs as [Hc Hs].
  rewrite Hc. now rewrite (IH Hs).
Qed.

Lemma closing_split_app (s : string) :
  forall d a b, closing_split d s = Some (a, b) ->
  s = a +:+ b /\ exists b', b = String ")" b'.
Proof.
  induction s as [|c s IH]; intros d a b; simpl; [discriminate|].
  assert (Hkeep : forall d',
    match closing_split d' s with
    | Some (a0, b0) => Some (String c a0, b0)
    | None => None
    end = Some (a, b) -> String c s = a +:+ b /\ exists b', b = String ")" b').
  { intros d'. destruct (closing_split d' s) as [[a0 b0]|] eqn:E; [|discriminate].
    intros [= <- <-]. destruct (IH _ _ _ E) as [-> Hb]. split; [reflexivity|exact Hb]. }
  destruct (Ascii.eqb c "(") eqn:Hopen; [apply Hkeep|].
  destruct (Ascii.eqb_spec c ")") as [->|Hclose]; [|apply Hkeep].
  destruct d as [|[|d]]; [discriminate| |apply Hkeep].
  intros [= <- <-]. split; [reflexivity|eauto].
Qed.

(** X21. Where the constraint goes.  The rewritten statement is the original
    with every occurrence of the table name replaced by the temporary name and
    with [", <constraint>"] put directly before the first closing parenthesis
    of the renamed statement, or at its end when it has none.  When the
    parenthesis that matches the first opening one has no closing parenthesis
    anywhere in front of it, neither in the table name nor in the column
    list, this is the statement with the constraint directly before the
    parenthesis that closes the column list. *)
Theorem rewrite_create_before_first_paren (sql_create layer_name sql_constraint : string) :
  let renamed := PyStr.replace sql_create layer_name ("tmp_" +:+ layer_name) in
  (forall a b, renamed = a +:+ String ")" b -> occurs ")" a = false ->
     rewrite_create sql_create layer_name sql_constraint
       = a +:+ ", " +:+ sql_constraint +:+ String ")" b) /\
  (occurs ")" renamed = false ->
     rewrite_create sql_create layer_name sql_constraint = renamed +:+ ", " +:+ sql_constraint) /\
  (forall a b, closing_split 0 renamed = Some (a, b) -> occurs ")" a = false ->
     spec_rewrite_create sql_create layer_name sql_constraint
       = Some (rewrite_create sql_create layer_name sql_constraint)).
Proof.
  intros renamed.
  assert (H1 : forall a b, renamed = a +:+ String ")" b -> occurs ")" a = false ->
     rewrite_create sql_create layer_name sql_constraint
       = a +:+ ", " +:+ sql_constraint +:+ String ")" b).
  { intros a b Hr Ha. unfold rewrite_create. fold renamed. rewrite Hr.
    rewrite (partition_char_split _ _ _ Ha). reflexivity. }
  split; [exact H1|]. split.
  - intros Hr. unfold rewrite_create. fold renamed.
    rewrite (partition_char_none _ _ Hr). simpl. now rewrite !append_empty_r.
  - intros a b Hs Ha. unfold spec_rewrite_create. fold renamed. rewrite Hs.
    destruct (closing_split_app _ _ _ _ Hs) as [Hr [b' ->]].
    now rewrite (H1 a b' Hr Ha).
Qed.

Lemma rewrite_create_before_first_paren_witness :
  rewrite_create (snd (hd (EmptyString, EmptyString) (gpkg_catalog "Point_0"))) "Point_0"
      demo_constraint
    = "CREATE TABLE " +:+ PyStr.quoted "tmp_Point_0" +:+ " ( " +:+ PyStr.quoted "fid"
        +:+ " INTEGER PRIMARY KEY AUTOINCREMENT NOT NULL, " +:+ PyStr.quoted "geom"
        +:+ " POINT, " +:+ PyStr.quoted "xyz_id" +:+ " TEXT UNIQUE ON CONFLICT REPLACE)".
Proof.
  destruct (rewrite_create_before_first_paren
              (snd (hd (EmptyString, EmptyString) (gpkg_catalog "Point_0"))) "Point_0"
              demo_constraint) as (H & _ & _).
  apply (H ("CREATE TABLE " +:+ PyStr.quoted "tmp_Point_0" +:+ " ( " +:+ PyStr.quoted "fid"
        +:+ " INTEGER PRIMARY KEY AUTOINCREMENT NOT NULL, " +:+ PyStr.quoted "geom"
        +:+ " POINT") EmptyString); reflexivity.
Defined.


Section WithEnv.
Context {E : Env}.


Lemma run_actions_prefix (fname : string) (pending : list db_action) :
  forall w, let '(r, done, _) := run_actions fname pending w in
  done `prefix_of` pending /\ (r = Ok tt <-> done = pending).
Proof.
  induction pending as [|a pending IH]; intros w; simpl.
  - split; [reflexivity|tauto].
  - destruct (sqlite_step fname a w) as [w'|].
    + specialize (IH w'). destruct (run_actions fname pending w') as [[r done] w''].
      destruct IH as [Hp Hiff]. split.
      * now apply prefix_cons.
      * rewrite Hiff. split; [now intros ->|now intros [= ->]].
    + split; [apply prefix_nil|]. split; discriminate.
Qed.

Lemma run_actions_total (fname : string) (pending : list db_action) :
  (forall a w', is_Some (sqlite_step fname a w')) ->
  forall w, fst (fst (run_actions fname pending w)) = Ok tt.
Proof.
  intros Hacc. induction pending as [|a pending IH]; intros w; simpl; [reflexivity|].
  destruct (Hacc a w) as [w' ->]. specialize (IH w').
  now destruct (run_actions fname pending w') as [[r done] w''].
Qed.

Lemma dispatch_no_commit (l : list string) :
  Forall (fun s => PyStr.contains "COMMIT" s = false) l -> map dispatch l = map Execute l.
Proof.
  induction 1 as [|s l Hs _ IH]; simpl; [reflexivity|].
  unfold dispatch at 1. now rewrite Hs, IH.
Qed.

(** What the loop of [_init_constraint] does with [lst_sql] when [COMMIT] is
    the only statement in which the text COMMIT occurs. *)
Lemma dispatch_lst_sql (sql_constraint layer_name sql_create : string)
    (lst_old_sql : list string) :
  Forall (fun s => PyStr.contains "COMMIT" s = false)
    ([rewrite_create sql_create layer_name sql_constraint;
      "DROP TABLE " +:+ PyStr.quoted layer_name;
      "ALTER TABLE " +:+ PyStr.quoted ("tmp_" +:+ layer_name) +:+ " RENAME TO "
         +:+ PyStr.quoted layer_name] ++ lst_old_sql) ->
  map dispatch (lst_sql_text sql_constraint layer_name sql_create lst_old_sql)
    = migration_order sql_constraint layer_name sql_create lst_old_sql.
Proof.
  intros H. inversion_clear H as [|? ? Hc H1]. inversion_clear H1 as [|? ? Hd H2].
  inversion_clear H2 as [|? ? Ha Hold].
  unfold lst_sql_text, lst_sql_head, lst_sql_tail, migration_order.
  rewrite !map_app, (dispatch_no_commit _ Hold). simpl.
  unfold dispatch at 3 5 6. rewrite Hc, Hd, Ha. reflexivity.
Qed.

Lemma lst_sql_some (sql_constraint layer_name sql_create : string)
    (lst_old_sql : list string) :
  lst_sql sql_constraint layer_name sql_create (map Some lst_old_sql)
    = map Some (lst_sql_text sql_constraint layer_name sql_create lst_old_sql).
Proof. unfold lst_sql, lst_sql_text. now rewrite !map_app. Qed.

(** On statements that all have their text, the loop carries out their
    actions one after the other. *)
Lemma run_statements_text (fname : string) (l : list string) :
  forall w, run_statements fname (map Some l) w = run_actions fname (map dispatch l) w.
Proof.
  induction l as [|s l IH]; intros w; [reflexivity|].
  cbn [map run_statements run_actions].
  destruct (sqlite_step fname (dispatch s) w) as [w'|]; [|reflexivity].
  now rewrite IH.
Qed.

Lemma run_actions_app (fname : string) (l1 l2 : list db_action) :
  forall w,
  run_actions fname (l1 ++ l2) w
    = let '(r, done, w1) := run_actions fname l1 w in
      match r with
      | Raise e => (Raise e, done, w1)
      | Ok _ => let '(r', done', w2) := run_actions fname l2 w1 in (r', done ++ done', w2)
      end.
Proof.
  induction l1 as [|a l1 IH]; intros w.
  - cbn [app run_actions]. now destruct (run_actions fname l2 w) as [[r' done'] w2].
  - cbn [app run_actions]. destruct (sqlite_step fname a w) as [w'|]; [|reflexivity].
    rewrite IH. destruct (run_actions fname l1 w') as [[[[]|e] done] w1]; [|reflexivity].
    now destruct (run_actions fname l2 w1) as [[r' done'] w2].
Qed.

(** [_init_constraint] on a catalogue in which every row has its statement. *)
Lemma init_constraint_text (fname sql_constraint layer_name sql_create : string)
    (lst_old_sql : list string) (w w1 : W) :
  sqlite_step fname (Execute (select_sql layer_name)) w = Some w1 ->
  map snd (select_master fname layer_name w1) = Some sql_create :: map Some lst_old_sql ->
  _init_constraint fname sql_constraint layer_name w
    = let '(r, done, w2) :=
        run_actions fname
          (map dispatch (lst_sql_text sql_constraint layer_name sql_create lst_old_sql)
           ++ [Commit; Close]) w1 in
      (r, Execute (select_sql layer_name) :: done, w2).
Proof.
  intros Hsel Hrows. unfold _init_constraint.
  rewrite Hsel, Hrows, lst_sql_some, run_statements_text, run_actions_app.
  destruct (run_actions fname _ w1) as [[[[]|e] done] w2]; [|reflexivity].
  now destruct (run_actions fname [Commit; Close] w2) as [[r' done'] w3].
Qed.

(** X20. The order of the migration.  When every row captured from the
    catalogue has its statement and the text COMMIT occurs in none of the
    statements that depend on the table (the rewritten creation statement,
    the drop, the rename and the other captured statements), the actions
    carried out after the catalogue query are, in this order: foreign keys
    off; begin; the renamed table with the constraint; deferral on; drop;
    rename; deferral off; every other captured statement as captured;
    commit; foreign keys on; then the closing commit and close of the
    connection.  A call that raises has carried out a prefix of that
    sequence, a call that returns all of it, and the call returns when the
    engine raises on no action. *)
Theorem init_constraint_order (fname sql_constraint layer_name sql_create : string)
    (lst_old_sql : list string) (w w1 : W) :
  sqlite_step fname (Execute (select_sql layer_name)) w = Some w1 ->
  map snd (select_master fname layer_name w1) = Some sql_create :: map Some lst_old_sql ->
  Forall (fun s => PyStr.contains "COMMIT" s = false)
    ([rewrite_create sql_create layer_name sql_constraint;
      "DROP TABLE " +:+ PyStr.quoted layer_name;
      "ALTER TABLE " +:+ PyStr.quoted ("tmp_" +:+ layer_name) +:+ " RENAME TO "
         +:+ PyStr.quoted layer_name] ++ lst_old_sql) ->
  let expected :=
    Execute (select_sql layer_name)
    :: migration_order sql_constraint layer_name sql_create lst_old_sql ++ [Commit; Close] in
  let '(r, done, _) := _init_constraint fname sql_constraint layer_name w in
  done `prefix_of` expected /\ (r = Ok tt <-> done = expected) /\
  ((forall a w', is_Some (sqlite_step fname a w')) -> r = Ok tt).
Proof.
  intros Hsel Hrows Hno expected. subst expected.
  rewrite (init_constraint_text _ _ _ _ _ _ _ Hsel Hrows), (dispatch_lst_sql _ _ _ _ Hno).
  pose proof (run_actions_prefix fname
    (migration_order sql_constraint layer_name sql_create lst_old_sql ++ [Commit; Close]) w1) as Hp.
  pose proof (fun H => run_actions_total fname
    (migration_order sql_constraint layer_name sql_create lst_old_sql ++ [Commit; Close]) H w1) as Ht.
  destruct (run_actions fname _ w1) as [[r done] w2]. simpl in Ht.
  destruct Hp as [Hp Hiff]. split; [now apply prefix_cons|]. split; [|exact Ht].
  rewrite Hiff. split; [now intros ->|now intros [= ->]].
Qed.

End WithEnv.


Lemma init_constraint_order_witness :
  fst (@_init_constraint (demo_env gpkg_catalog) "/data/abc.gpkg" demo_constraint "Point_0"
         demo_files)
  = (Ok tt,
     Execute (@select_sql "Point_0")
     :: migration_order demo_constraint "Point_0"
          (snd (hd (EmptyString, EmptyString) (gpkg_catalog "Point_0")))
          (map snd (tl (gpkg_catalog "Point_0")))
        ++ [Commit; Close]).
Proof.
  assert (Hno : Forall (fun s => PyStr.contains "COMMIT" s = false)
    ([rewrite_create (snd (hd (EmptyString, EmptyString) (gpkg_catalog "Point_0"))) "Point_0"
        demo_constraint;
      "DROP TABLE " +:+ PyStr.quoted "Point_0";
      "ALTER TABLE " +:+ PyStr.quoted ("tmp_" +:+ "Point_0") +:+ " RENAME TO "
         +:+ PyStr.quoted "Point_0"] ++ map snd (tl (gpkg_catalog "Point_0")))).
  { repeat constructor. }
  pose proof (@init_constraint_order (demo_env gpkg_catalog) "/data/abc.gpkg" demo_constraint
                "Point_0" (snd (hd (EmptyString, EmptyString) (gpkg_catalog "Point_0")))
                (map snd (tl (gpkg_catalog "Point_0"))) demo_files demo_files
                eq_refl eq_refl Hno) as H.
  cbv zeta in H.
  destruct (@_init_constraint (demo_env gpkg_catalog) "/data/abc.gpkg" demo_constraint
              "Point_0" demo_files) as [[r done] w'].
  destruct H as (_ & Hiff & Ht).
  assert (Hr : r = Ok tt) by (apply Ht; intros a w0; exists w0; reflexivity).
  simpl. rewrite (proj1 Hiff Hr). now rewrite Hr.
Defined.


End StorageFacts.

(** ** The requests of the hub client *)

Module NetworkFacts.
Import Models Network Demo.

Lemma network_send_outbox (self : NetManager) (v : verb) (rq : request) (body : option json) :
  fst (network_send self v rq body) = length (outbox self) /\
  outbox (snd (network_send self v rq body))
    = outbox self ++ [{| s_verb := v; s_request := rq; s_body := body |}] /\
  timers (snd (network_send self v rq body)) = timers self /\
  states (snd (network_send self v rq body)) !! length (outbox self) = Some Running.
Proof.
  unfold network_send. simpl. repeat split. apply lookup_insert_eq.
Qed.

(** C3, as amended.  For a call of [_add_features] whose keyword arguments
    have a key [tags] (and no key [req_type]), the value of [tags] is copied
    to a key [addTags] before the request is made: the query parameters have
    [addTags] with that value, and they still have [tags] with it; so do the
    properties attached to the reply. *)
Theorem add_features_copies_tags (self : NetManager) (conn_info : SpaceConnectionInfo)
    (added_feat : json) (send_request : verb) (kw : gmap string value) (t : value) :
  kw !! "tags" = Some t ->
  kw !! "req_type" = None ->
  let '(r, self') := _add_features self conn_info added_feat send_request kw in
  exists rq,
    r = Ok (length (outbox self)) /\
    outbox self' = outbox self
      ++ [{| s_verb := send_request; s_request := rq; s_body := Some added_feat |}] /\
    rq_endpoint rq = "/spaces/{space_id}/features" /\
    rq_kw rq !! "addTags" = Some t /\ rq_kw rq !! "tags" = Some t /\
    query_items rq !! "addTags" = Some (serialize_value t) /\
    query_items rq !! "tags" = Some (serialize_value t) /\
    (exists p, props self' !! length (outbox self) = Some p /\
       rp_kw p !! "addTags" = Some t /\ rp_kw p !! "tags" = Some t).
Proof.
  intros Htags Hreq. unfold _add_features. rewrite Htags.
  rewrite lookup_insert_ne by discriminate. rewrite Hreq.
  unfold network_send, _post_send_request, _pre_send_request. simpl.
  eexists. split; [reflexivity|]. split; [reflexivity|]. split; [reflexivity|].
  unfold query_items. simpl.
  assert (Ha : (<["req_type" := VAtom (AStr "geo")]> (<["addTags" := t]> kw)) !! "addTags"
               = Some t).
  { rewrite lookup_insert_ne by discriminate. apply lookup_insert_eq. }
  assert (Ht : (<["req_type" := VAtom (AStr "geo")]> (<["addTags" := t]> kw)) !! "tags"
               = Some t).
  { rewrite !lookup_insert_ne by discriminate. exact Htags. }
  split; [exact Ha|]. split; [exact Ht|].
  rewrite !lookup_fmap, !lookup_delete_ne by discriminate. rewrite Ha, Ht.
  split; [reflexivity|]. split; [reflexivity|].
  rewrite lookup_insert_eq. eexists. split; [reflexivity|]. simpl. split.
  - apply lookup_union_Some_l. apply lookup_insert_eq.
  - apply lookup_union_Some_l. rewrite lookup_insert_ne by discriminate. exact Htags.
Qed.

Lemma add_features_copies_tags_witness :
  exists rq,
    outbox (snd (add_features empty_manager demo_conn demo_features demo_kw))
      = [{| s_verb := POST; s_request := rq; s_body := Some demo_features |}] /\
    query_items rq !! "addTags" = Some "a,b".
Proof.
  pose proof (add_features_copies_tags empty_manager demo_conn demo_features POST demo_kw
                (VSeq [AStr "a"; AStr "b"]) eq_refl eq_refl) as H.
  unfold add_features.
  destruct (_add_features empty_manager demo_conn demo_features POST demo_kw) as [r self'].
  destruct H as (rq & _ & Hout & _ & _ & _ & Ha & _).
  exists rq. split; [exact Hout|exact Ha].
Defined.

(** C3, as stated, fails: after the call the query parameters still have the
    key [tags]. *)
Lemma add_features_keeps_tags_counterexample :
  exists rq,
    outbox (snd (add_features empty_manager demo_conn demo_features demo_kw))
      = [{| s_verb := POST; s_request := rq; s_body := Some demo_features |}] /\
    query_items rq !! "tags" = Some "a,b" /\
    query_items rq !! "tags" <> None.
Proof.
  eexists. split; [reflexivity|]. split; [reflexivity|]. discriminate.
Qed.

(** C8. [del_features] sends one request with the verb DELETE to the
    endpoint [/spaces/{space_id}/features], and its query parameters give
    under [id] the ids joined by commas; for the ids [f1] and [f2] that text
    is [f1,f2]. *)
Theorem del_features_request (self : NetManager) (conn_info : SpaceConnectionInfo)
    (removed_feat : list atom) (kw : gmap string value) :
  (let '(reply, self') := del_features self conn_info removed_feat kw in
   exists rq,
     reply = length (outbox self) /\
     outbox self' = outbox self ++ [{| s_verb := DELETE; s_request := rq; s_body := None |}] /\
     rq_conn rq = conn_info /\
     rq_endpoint rq = "/spaces/{space_id}/features" /\
     rq_kw rq !! "id" = Some (VAtom (AStr (PyStr.join "," (map py_str removed_feat)))) /\
     query_items rq !! "id" = Some (PyStr.join "," (map py_str removed_feat))) /\
  PyStr.join "," (map py_str [AStr "f1"; AStr "f2"]) = "f1,f2".
Proof.
  split; [|reflexivity].
  unfold del_features, network_send, _post_send_request, _pre_send_request. simpl.
  eexists. repeat (split; [reflexivity|]).
  assert (Hid : ({[ "id" := VAtom (AStr (PyStr.join "," (map py_str removed_feat))) ]} ∪ kw)
                !! "id" = Some (VAtom (AStr (PyStr.join "," (map py_str removed_feat))))).
  { apply lookup_union_Some_l. apply lookup_singleton_eq. }
  split; [exact Hid|].
  unfold query_items. simpl.
  rewrite lookup_fmap, lookup_delete_ne by discriminate. now rewrite Hid.
Qed.

(** C9. [get_statistics] installs one single-shot timer, with the interval
    1000 and the slot that aborts the reply it returns; when the timer fires
    the slot is called whatever the state of the manager, and a reply still
    running is then aborted.  [get_count] and [get_meta] install no timer. *)
Theorem only_get_statistics_installs_timer (self : NetManager)
    (conn_info : SpaceConnectionInfo) :
  (let '(reply, self') := get_statistics self conn_info in
   reply = length (outbox self) /\
   timers self' = timers self ++ [(1000, AbortReply reply)] /\
   (forall later, fire later (AbortReply reply) = abort later reply) /\
   states self' !! reply = Some Running /\
   states (fire self' (AbortReply reply)) !! reply = Some Aborted) /\
  timers (snd (get_count self conn_info)) = timers self /\
  timers (snd (get_meta self conn_info)) = timers self.
Proof.
  split; [|split; reflexivity].
  unfold get_statistics, _get_space_, _send_request, network_send, _post_send_request,
    singleShot. simpl.
  split; [reflexivity|]. split; [reflexivity|]. split; [reflexivity|].
  split; [apply lookup_insert_eq|].
  unfold abort. simpl. rewrite lookup_insert_eq. simpl. apply lookup_insert_eq.
Qed.

End NetworkFacts.

(** ** Saving the provenance and loading it again *)

Module ProvenanceFacts.
Import Models Layer Demo.

Lemma map_layer_nodes (f : qnode -> qnode) (ls : list QgsVectorLayer) :
  (forall v, f (QLayerNode v) = QLayerNode v) ->
  map f (map QLayerNode ls) = map QLayerNode ls.
Proof.
  intros Hf. induction ls as [|v ls IH]; simpl; [reflexivity|].
  now rewrite Hf, IH.
Qed.

Lemma max_id_child (c : child) : max_id (child_node c) = c_id c.
Proof.
  unfold child_node. simpl. induction (c_layers c) as [|v ls IH]; simpl; [reflexivity|].
  exact IH.
Qed.

Lemma max_id_tree_eq (mid : nat) nm pr (view : list child) :
  max_id (tree_of mid nm pr view) = foldr Nat.max mid (map c_id view).
Proof.
  unfold tree_of. cbn [max_id]. fold max_id. rewrite map_map.
  f_equal. apply map_ext. intros c. apply max_id_child.
Qed.

Lemma max_id_tree_of (mid : nat) nm pr (view : list child) :
  (mid <= max_id (tree_of mid nm pr view))%nat /\
  Forall (fun c => (c_id c <= max_id (tree_of mid nm pr view))%nat) view.
Proof.
  rewrite max_id_tree_eq. induction view as [|c view [IH1 IH2]]; simpl.
  - split; [lia|constructor].
  - split; [lia|]. constructor; [lia|].
    eapply Forall_impl; [exact IH2|]. simpl. intros; lia.
Qed.

Lemma fresh_id_tree_of (mid : nat) nm pr (view : list child) :
  fresh_id (Some (tree_of mid nm pr view)) <> mid /\
  fresh_id (Some (tree_of mid nm pr view)) ∉ map c_id view.
Proof.
  destruct (max_id_tree_of mid nm pr view) as [H1 H2]. unfold fresh_id. split; [lia|].
  intros Hin. apply list_elem_of_fmap in Hin. destruct Hin as (c & Hc & Hin).
  rewrite Forall_forall in H2. specialize (H2 c Hin). lia.
Qed.

Lemma addLayer_child (gid : nat) (v : QgsVectorLayer) (c : child) :
  addLayer gid v (child_node c) = child_node (child_add gid v c).
Proof.
  unfold child_node, child_add. simpl.
  rewrite map_layer_nodes by reflexivity.
  destruct (Nat.eqb (c_id c) gid); simpl; [|reflexivity].
  now rewrite map_app.
Qed.

Lemma addLayer_tree_of (gid mid : nat) nm pr (v : QgsVectorLayer) (view : list child) :
  mid <> gid ->
  addLayer gid v (tree_of mid nm pr view) = tree_of mid nm pr (map (child_add gid v) view).
Proof.
  intros Hne. unfold tree_of. simpl.
  apply Nat.eqb_neq in Hne. rewrite Hne. f_equal.
  rewrite !map_map. apply map_ext. intros c. apply addLayer_child.
Qed.

Lemma insertGroup_child (mid index g : nat) (geom : string) (c : child) :
  c_id c <> mid ->
  insertGroup mid index g geom (child_node c) = child_node c.
Proof.
  intros Hne. unfold child_node. simpl.
  rewrite map_layer_nodes by reflexivity.
  apply Nat.eqb_neq in Hne. now rewrite Hne.
Qed.

Lemma addGroup_child (mid g : nat) (geom : string) (c : child) :
  c_id c <> mid ->
  addGroup mid g geom (child_node c) = child_node c.
Proof.
  intros Hne. unfold child_node. simpl.
  rewrite map_layer_nodes by reflexivity.
  apply Nat.eqb_neq in Hne. now rewrite Hne.
Qed.

Lemma insertGroup_tree_of (mid index g : nat) (geom : string) nm pr (view : list child) :
  mid ∉ map c_id view ->
  insertGroup mid index g geom (tree_of mid nm pr view)
    = tree_of mid nm pr (take index view ++ new_child g geom :: drop index view).
Proof.
  intros Hmid. unfold tree_of. simpl. rewrite Nat.eqb_refl. f_equal.
  assert (Hmap : map (insertGroup mid index g geom) (map child_node view) = map child_node view).
  { rewrite map_map. apply map_ext_in. intros c Hc. apply insertGroup_child.
    intros Heq. apply Hmid. apply list_elem_of_fmap. exists c. split; [now symmetry|].
    now apply list_elem_of_In. }
  rewrite Hmap, map_app. simpl.
  change (map child_node) with (fmap (M:=list) child_node).
  now rewrite fmap_take, fmap_drop.
Qed.

Lemma addGroup_tree_of (mid g : nat) (geom : string) nm pr (view : list child) :
  mid ∉ map c_id view ->
  addGroup mid g geom (tree_of mid nm pr view) = tree_of mid nm pr (view ++ [new_child g geom]).
Proof.
  intros Hmid. unfold tree_of. simpl. rewrite Nat.eqb_refl. f_equal.
  assert (Hmap : map (addGroup mid g geom) (map child_node view) = map child_node view).
  { rewrite map_map. apply map_ext_in. intros c Hc. apply addGroup_child.
    intros Heq. apply Hmid. apply list_elem_of_fmap. exists c. split; [now symmetry|].
    now apply list_elem_of_In. }
  now rewrite Hmap, map_app.
Qed.

Lemma setdefault_append_lookup {A} (d : gmap string (list A)) (k k' : string) (x : A) :
  default [] (setdefault_append d k x !! k')
    = default [] (d !! k') ++ (if String.eqb k k' then [x] else []).
Proof.
  unfold setdefault_append.
  pose proof (LayerFacts.setdefault_fst d k) as Hfst.
  pose proof (LayerFacts.setdefault_snd_lookup d k k') as Hsnd.
  destruct (setdefault d k) as [lst d']. simpl in Hfst, Hsnd. subst lst.
  destruct (String.eqb_spec k k') as [->|Hne].
  - now rewrite lookup_insert_eq.
  - rewrite lookup_insert_ne by assumption. rewrite Hsnd. now rewrite app_nil_r.
Qed.

Lemma of_kind_app (k : string) (l1 l2 : list QgsVectorLayer) :
  of_kind k (l1 ++ l2) = of_kind k l1 ++ of_kind k l2.
Proof. apply List.filter_app. Qed.

Lemma fold_load_vlayer (l : list QgsVectorLayer) :
  forall acc k,
  default [] (fst (foldl load_vlayer acc l) !! k) = default [] (fst acc !! k) ++ of_kind k l.
Proof.
  induction l as [|v l IH]; intros acc k.
  - simpl. now rewrite app_nil_r.
  - cbn [foldl]. rewrite IH. unfold load_vlayer. cbn [fst].
    rewrite setdefault_append_lookup, <- app_assoc. f_equal.
    unfold of_kind. cbn [List.filter].
    now destruct (String.eqb (vl_wkb v) k).
Qed.

Lemma findLayers_child (c : child) : findLayers (child_node c) = c_layers c.
Proof.
  unfold child_node. simpl. induction (c_layers c) as [|v ls IH]; simpl; [reflexivity|].
  now rewrite IH.
Qed.

Lemma fold_load_group (view : list child) :
  forall acc,
  snd (foldl load_group acc (map child_node view))
    = foldl load_vlayer (snd acc) (all_layers view).
Proof.
  induction view as [|c view IH]; intros acc; [reflexivity|].
  cbn [map foldl]. rewrite IH.
  unfold all_layers. cbn [flat_map]. rewrite foldl_app. f_equal.
  unfold load_group at 1. cbn [child_node snd]. fold (child_node c).
  now rewrite findLayers_child.
Qed.

Lemma findGroups_tree_of (mid : nat) nm pr (view : list child) :
  findGroups (tree_of mid nm pr view) = map child_node view.
Proof.
  unfold tree_of, findGroups. induction view as [|c view IH]; simpl; [reflexivity|].
  now rewrite IH.
Qed.

Lemma child_add_other (g : nat) (v : QgsVectorLayer) (vs : list child) :
  g ∉ map c_id vs -> map (child_add g v) vs = vs.
Proof.
  induction vs as [|c vs IH]; intros Hg; [reflexivity|].
  simpl in *. apply not_elem_of_cons in Hg. destruct Hg as [Hc Hg].
  rewrite (IH Hg). unfold child_add.
  destruct (Nat.eqb_spec (c_id c) g); [congruence|reflexivity].
Qed.

Lemma all_layers_app (v1 v2 : list child) :
  all_layers (v1 ++ v2) = all_layers v1 ++ all_layers v2.
Proof. apply flat_map_app. Qed.

Lemma all_layers_cons (c : child) (vs : list child) :
  all_layers (c :: vs) = c_layers c ++ all_layers vs.
Proof. reflexivity. Qed.

Lemma of_kind_none (k : string) (vs : list child) :
  (forall c x, c ∈ vs -> x ∈ c_layers c -> vl_wkb x <> k) ->
  of_kind k (all_layers vs) = [].
Proof.
  induction vs as [|c vs IH]; intros H; [reflexivity|].
  unfold all_layers. cbn [flat_map]. rewrite of_kind_app.
  fold (all_layers vs). rewrite IH.
  - rewrite app_nil_r. unfold of_kind.
    assert (Hc : forall x, x ∈ c_layers c -> vl_wkb x <> k).
    { intros x Hx. apply (H c x); [left|exact Hx]. }
    induction (c_layers c) as [|x ls IHl]; [reflexivity|].
    cbn [List.filter]. destruct (String.eqb_spec (vl_wkb x) k) as [Heq|_].
    + exfalso. apply (Hc x); [left|exact Heq].
    + apply IHl. intros y Hy. apply Hc. now right.
  - intros c' x Hc' Hx. apply (H c' x); [now right|exact Hx].
Qed.

Lemma of_kind_single (k : string) (v : QgsVectorLayer) :
  of_kind k [v] = if String.eqb (vl_wkb v) k then [v] else [].
Proof. reflexivity. Qed.

Section Attach.
Context {E : Env}.

(** The new layer joins the display group that exists for its kind. *)
Lemma attach_existing (s s' : XYZLayer) (mid g : nat) (view : list child)
    (v : QgsVectorLayer) :
  view_ok s mid view ->
  qgroups s !! _group_geom_name (vl_wkb v) = Some g ->
  _group_geom_name (vl_wkb v) <> "main" ->
  qgroups s' = <[_group_geom_name (vl_wkb v) := g]> (qgroups s) ->
  (forall k, partitions s' k = partitions s k ++ of_kind k [v]) ->
  mid <> g /\ view_ok s' mid (map (child_add g v) view).
Proof.
  intros Hok Hg Hmain Hq Hparts.
  destruct (vo_keys_inv _ _ _ Hok _ _ Hg Hmain) as (c0 & Hc0 & Hname & Hid).
  assert (Hids : map c_id (map (child_add g v) view) = map c_id view).
  { rewrite map_map. apply map_ext. intros c. unfold child_add.
    now destruct (Nat.eqb (c_id c) g). }
  assert (Hnames : map c_name (map (child_add g v) view) = map c_name view).
  { rewrite map_map. apply map_ext. intros c. unfold child_add.
    now destruct (Nat.eqb (c_id c) g). }
  assert (Hq' : qgroups s' = qgroups s).
  { rewrite Hq. now apply insert_id. }
  assert (Hmid : mid <> g).
  { intros ->. apply (vo_mid _ _ _ Hok). apply list_elem_of_fmap. exists c0. now split. }
  split; [exact Hmid|].
  assert (Hin : forall c, c ∈ map (child_add g v) view ->
                 exists c1, c1 ∈ view /\ c = child_add g v c1).
  { intros c Hc. apply list_elem_of_fmap in Hc. destruct Hc as (c1 & -> & Hc1). eauto. }
  assert (Hsame : forall c, c ∈ view -> c_id c = g -> c = c0).
  { intros c Hc Hcid. apply list_elem_of_lookup in Hc, Hc0.
    destruct Hc as [i Hi], Hc0 as [j Hj].
    assert (i = j) as ->.
    { apply (NoDup_lookup (c_id <$> view) i j g (vo_ids _ _ _ Hok)).
      - rewrite list_lookup_fmap, Hi. simpl. now f_equal.
      - rewrite list_lookup_fmap, Hj. simpl. now f_equal. }
    congruence. }
  constructor.
  - rewrite Hq'. apply (vo_main _ _ _ Hok).
  - rewrite Hids. apply (vo_ids _ _ _ Hok).
  - rewrite Hids. apply (vo_mid _ _ _ Hok).
  - rewrite Hnames. apply (vo_names _ _ _ Hok).
  - intros c x Hc Hx. destruct (Hin c Hc) as (c1 & Hc1 & ->).
    unfold child_add in *. destruct (Nat.eqb_spec (c_id c1) g) as [Heq|Hne].
    + simpl in *. apply elem_of_app in Hx. destruct Hx as [Hx|Hx].
      * apply (vo_group _ _ _ Hok c1 x Hc1 Hx).
      * apply list_elem_of_singleton in Hx. subst x.
        rewrite (Hsame c1 Hc1 Heq). now symmetry.
    + apply (vo_group _ _ _ Hok c1 x Hc1 Hx).
  - intros c Hc. destruct (Hin c Hc) as (c1 & Hc1 & ->). rewrite Hq'.
    replace (c_name (child_add g v c1)) with (c_name c1)
      by (unfold child_add; now destruct (Nat.eqb (c_id c1) g)).
    replace (c_id (child_add g v c1)) with (c_id c1)
      by (unfold child_add; now destruct (Nat.eqb (c_id c1) g)).
    apply (vo_keys _ _ _ Hok c1 Hc1).
  - intros g' gid Hg' Hne. rewrite Hq' in Hg'.
    destruct (vo_keys_inv _ _ _ Hok _ _ Hg' Hne) as (c1 & Hc1 & Hn1 & Hi1).
    exists (child_add g v c1). split; [apply list_elem_of_fmap; eauto|].
    unfold child_add. now destruct (Nat.eqb (c_id c1) g).
  - intros k. rewrite Hparts, (vo_parts _ _ _ Hok k).
    apply list_elem_of_split in Hc0. destruct Hc0 as (v1 & v2 & Hview).
    pose proof (vo_ids _ _ _ Hok) as Hnd. rewrite Hview, map_app in Hnd. simpl in Hnd.
    apply NoDup_app in Hnd. destruct Hnd as (_ & Hnd1 & Hnd2).
    apply NoDup_cons in Hnd2. destruct Hnd2 as [Hnd2 _].
    assert (Hg1 : g ∉ map c_id v1).
    { intros Hin1. apply (Hnd1 _ Hin1). rewrite Hid. left. }
    assert (Hg2 : g ∉ map c_id v2) by now rewrite <- Hid.
    rewrite Hview, map_app. cbn [map].
    rewrite (child_add_other _ _ _ Hg1), (child_add_other _ _ _ Hg2).
    unfold child_add. rewrite Hid, Nat.eqb_refl.
    rewrite !all_layers_app, !all_layers_cons. cbn [c_layers].
    rewrite !of_kind_app, <- !app_assoc. f_equal. f_equal.
    rewrite of_kind_single. destruct (String.eqb_spec (vl_wkb v) k) as [Hk|Hk];
      [|now rewrite app_nil_r].
    rewrite of_kind_none; [reflexivity|].
    intros c x Hc Hx Hwkb.
    pose proof (vo_names _ _ _ Hok) as Hnn. rewrite Hview, map_app in Hnn. simpl in Hnn.
    apply NoDup_app in Hnn. destruct Hnn as (_ & _ & Hnn).
    apply NoDup_cons in Hnn. destruct Hnn as [Hnn _]. apply Hnn.
    apply list_elem_of_fmap. exists c. split; [|exact Hc].
    rewrite Hname. rewrite <- (vo_group _ _ _ Hok c x); [now rewrite Hwkb, Hk|
      rewrite Hview; apply elem_of_app; right; now right|exact Hx].
Qed.

Lemma elem_of_insert_middle {A} (l : list A) (o : nat) (x y : A) :
  y ∈ take o l ++ x :: drop o l <-> y = x \/ y ∈ l.
Proof.
  rewrite elem_of_app, elem_of_cons. rewrite <- (take_drop o l) at 3.
  rewrite elem_of_app. tauto.
Qed.

Lemma NoDup_insert_middle {A} (l : list A) (o : nat) (x : A) :
  x ∉ l -> NoDup l -> NoDup (take o l ++ x :: drop o l).
Proof.
  intros Hx Hnd. rewrite <- (take_drop o l) in Hnd, Hx.
  apply NoDup_app in Hnd. destruct Hnd as (H1 & H2 & H3).
  apply NoDup_app. split; [exact H1|]. split.
  - intros y Hy Hin. apply elem_of_cons in Hin. destruct Hin as [->|Hin].
    + apply Hx. apply elem_of_app. now left.
    + now apply (H2 y).
  - apply NoDup_cons. split; [|exact H3].
    intros Hin. apply Hx. apply elem_of_app. now right.
Qed.

Lemma map_insert_middle {A B} (f : A -> B) (l : list A) (o : nat) (x : A) :
  map f (take o l ++ x :: drop o l) = take o (map f l) ++ f x :: drop o (map f l).
Proof.
  rewrite map_app. cbn [map].
  change (map f) with (fmap (M:=list) f). now rewrite fmap_take, fmap_drop.
Qed.

(** The new layer opens the display group of its kind, put at position [o]
    among the display groups. *)
Lemma attach_new (s s' : XYZLayer) (mid g o : nat) (view : list child)
    (v : QgsVectorLayer) :
  view_ok s mid view ->
  qgroups s !! _group_geom_name (vl_wkb v) = None ->
  _group_geom_name (vl_wkb v) <> "main" ->
  g <> mid ->
  g ∉ map c_id view ->
  qgroups s' = <[_group_geom_name (vl_wkb v) := g]> (qgroups s) ->
  (forall k, partitions s' k = partitions s k ++ of_kind k [v]) ->
  view_ok s' mid
    (take o view
     ++ {| c_id := g; c_name := _group_geom_name (vl_wkb v); c_layers := [v] |}
     :: drop o view).
Proof.
  intros Hok Hg Hmain Hgm Hgids Hq Hparts.
  set (geom := _group_geom_name (vl_wkb v)) in *.
  assert (Hfresh : geom ∉ map c_name view).
  { intros Hin. apply list_elem_of_fmap in Hin. destruct Hin as (c & Hc & Hin).
    destruct (vo_keys _ _ _ Hok c Hin) as [_ Hk]. rewrite <- Hc, Hg in Hk. discriminate Hk. }
  constructor.
  - rewrite Hq, lookup_insert_ne by assumption. apply (vo_main _ _ _ Hok).
  - rewrite map_insert_middle. apply NoDup_insert_middle; [exact Hgids|].
    apply (vo_ids _ _ _ Hok).
  - rewrite map_insert_middle. intros Hin. apply elem_of_insert_middle in Hin.
    destruct Hin as [Hin|Hin]; [now apply Hgm|]. now apply (vo_mid _ _ _ Hok).
  - rewrite map_insert_middle. apply NoDup_insert_middle; [exact Hfresh|].
    apply (vo_names _ _ _ Hok).
  - intros c x Hc Hx. apply elem_of_insert_middle in Hc. destruct Hc as [->|Hc].
    + simpl in *. apply list_elem_of_singleton in Hx. now subst x.
    + apply (vo_group _ _ _ Hok c x Hc Hx).
  - intros c Hc. apply elem_of_insert_middle in Hc. destruct Hc as [->|Hc].
    + simpl. split; [exact Hmain|]. rewrite Hq. apply lookup_insert_eq.
    + destruct (vo_keys _ _ _ Hok c Hc) as [Hn Hk]. split; [exact Hn|].
      rewrite Hq, lookup_insert_ne; [exact Hk|].
      intros Heq. apply Hfresh. apply list_elem_of_fmap. exists c. now split.
  - intros g' gid Hg' Hne. rewrite Hq in Hg'.
    destruct (decide (geom = g')) as [<-|Hgg].
    + rewrite lookup_insert_eq in Hg'. injection Hg' as <-.
      eexists. split; [apply elem_of_insert_middle; left; reflexivity|]. now split.
    + rewrite lookup_insert_ne in Hg' by assumption.
      destruct (vo_keys_inv _ _ _ Hok _ _ Hg' Hne) as (c & Hc & Hn & Hi).
      exists c. split; [apply elem_of_insert_middle; now right|]. now split.
  - intros k. rewrite Hparts, (vo_parts _ _ _ Hok k).
    rewrite <- (take_drop o view) at 1.
    rewrite !all_layers_app, all_layers_cons. cbn [c_layers].
    rewrite !of_kind_app, <- !app_assoc. f_equal.
    rewrite of_kind_single. destruct (String.eqb_spec (vl_wkb v) k) as [Hk|Hk];
      [|now rewrite app_nil_r].
    rewrite of_kind_none; [reflexivity|].
    intros c x Hc Hx Hwkb. apply Hfresh.
    apply list_elem_of_fmap. exists c. split.
    + unfold geom. rewrite <- (vo_group _ _ _ Hok c x); [now rewrite Hwkb, Hk| |exact Hx].
      rewrite <- (take_drop o view). apply elem_of_app. now right.
    + rewrite <- (take_drop o view). apply elem_of_app. now right.
Qed.

End Attach.

Lemma child_add_insert_middle (g o : nat) (geom : string) (v : QgsVectorLayer)
    (view : list child) :
  g ∉ map c_id view ->
  map (child_add g v) (take o view ++ new_child g geom :: drop o view)
    = take o view ++ {| c_id := g; c_name := geom; c_layers := [v] |} :: drop o view.
Proof.
  intros Hg. rewrite map_app. cbn [map].
  assert (H1 : g ∉ map c_id (take o view)).
  { intros Hin. apply Hg. apply list_elem_of_fmap in Hin. destruct Hin as (c & Hc & Hin).
    apply list_elem_of_fmap. exists c. split; [exact Hc|].
    rewrite <- (take_drop o view). apply elem_of_app. now left. }
  assert (H2 : g ∉ map c_id (drop o view)).
  { intros Hin. apply Hg. apply list_elem_of_fmap in Hin. destruct Hin as (c & Hc & Hin).
    apply list_elem_of_fmap. exists c. split; [exact Hc|].
    rewrite <- (take_drop o view). apply elem_of_app. now right. }
  rewrite (child_add_other _ _ _ H1), (child_add_other _ _ _ H2).
  unfold child_add, new_child. cbn [c_id c_name c_layers]. now rewrite Nat.eqb_refl.
Qed.

Lemma insert_then_add_layer (mid g o : nat) (geom : string) nm pr (v : QgsVectorLayer)
    (view : list child) :
  mid ∉ map c_id view -> g ∉ map c_id view -> mid <> g ->
  addLayer g v (insertGroup mid o g geom (tree_of mid nm pr view))
    = tree_of mid nm pr
        (take o view ++ {| c_id := g; c_name := geom; c_layers := [v] |} :: drop o view).
Proof.
  intros Hmid Hg Hne.
  rewrite (insertGroup_tree_of _ _ _ _ _ _ _ Hmid), (addLayer_tree_of _ _ _ _ _ _ Hne).
  now rewrite (child_add_insert_middle _ _ _ _ _ Hg).
Qed.

Lemma add_then_add_layer (mid g : nat) (geom : string) nm pr (v : QgsVectorLayer)
    (view : list child) :
  mid ∉ map c_id view -> g ∉ map c_id view -> mid <> g ->
  addLayer g v (addGroup mid g geom (tree_of mid nm pr view))
    = tree_of mid nm pr
        (take (length view) view
         ++ {| c_id := g; c_name := geom; c_layers := [v] |} :: drop (length view) view).
Proof.
  intros Hmid Hg Hne.
  rewrite (addGroup_tree_of _ _ _ _ _ _ Hmid), (addLayer_tree_of _ _ _ _ _ _ Hne).
  rewrite <- (child_add_insert_middle g (length view) geom v view Hg).
  now rewrite firstn_all, drop_all.
Qed.

Section Steps.
Context {E : Env}.

Lemma view_ok_transfer (s s' : XYZLayer) (mid : nat) (view : list child) :
  view_ok s mid view ->
  qgroups s' = qgroups s ->
  (forall k, partitions s' k = partitions s k) ->
  view_ok s' mid view.
Proof.
  intros Hok Hq Hp. destruct Hok. constructor; try assumption.
  - now rewrite Hq.
  - intros c Hc. rewrite Hq. now apply vo_keys0.
  - intros g gid. rewrite Hq. now apply vo_keys_inv0.
  - intros k. rewrite Hp. apply vo_parts0.
Qed.

Lemma inv_transfer (s s' : XYZLayer) :
  inv s ->
  qgroups s' = qgroups s -> qtree s' = qtree s ->
  (forall k, partitions s' k = partitions s k) ->
  inv s'.
Proof.
  intros Ht Hq Htree Hp. unfold inv in *.
  rewrite Htree. destruct (qtree s) as [q|].
  - destruct Ht as (mid & nm & pr & view & -> & Hok).
    exists mid, nm, pr, view. split; [reflexivity|].
    now apply (view_ok_transfer s s').
  - destruct Ht as [Hg Hparts]. split; [now rewrite Hq|].
    intros k. now rewrite Hp.
Qed.

Lemma inv_init (conn : SpaceConnectionInfo) (m : list (string * json)) (tgs : string)
    (unq : option Z) (name ex : string) (now10 : Z) :
  inv (__init__ conn m tgs unq name ex now10).
Proof.
  unfold inv. simpl. split; [reflexivity|]. intros k. reflexivity.
Qed.

(** After [add_empty_group] the store has its main group, and [qgroups] and
    the display groups agree. *)
Lemma add_empty_group_view (s : XYZLayer) (all_names : list string) :
  inv s ->
  let '(group, s2) := add_empty_group s all_names in
  unique s2 = unique s /\ map_vlayer s2 = map_vlayer s /\
  exists nm pr view,
    qtree s2 = Some (tree_of group nm pr view) /\ view_ok s2 group view.
Proof.
  intros Ht. unfold inv in Ht. unfold add_empty_group.
  destruct (qgroups s !! "main") as [group|] eqn:Hmain.
  - split; [reflexivity|]. split; [reflexivity|].
    destruct (qtree s) as [q|].
    + destruct Ht as (mid & nm & pr & view & -> & Hok).
      pose proof (vo_main _ _ _ Hok) as Hm. rewrite Hmain in Hm. injection Hm as ->.
      exists nm, pr, view. now split.
    + destruct Ht as [Hq _]. rewrite Hq, lookup_empty in Hmain. discriminate Hmain.
  - destruct (qtree s) as [q|] eqn:Htree.
    + destruct Ht as (mid & nm & pr & view & -> & Hok).
      pose proof (vo_main _ _ _ Hok) as Hm. rewrite Hmain in Hm. discriminate Hm.
    + destruct Ht as [Hq Hparts].
      split; [reflexivity|]. split; [reflexivity|].
      eexists _, _, []. split; [reflexivity|].
      constructor; simpl.
      * apply lookup_insert_eq.
      * constructor.
      * apply not_elem_of_nil.
      * constructor.
      * intros c v Hc. now apply elem_of_nil in Hc.
      * intros c Hc. now apply elem_of_nil in Hc.
      * intros g gid Hg Hne. rewrite lookup_insert_ne in Hg by congruence.
        rewrite Hq, lookup_empty in Hg. discriminate Hg.
      * intros k. apply Hparts.
Qed.

(** A call of [add_empty_group] neither adds nor drops a partition. *)
Lemma add_empty_group_partitions (s : XYZLayer) (all_names : list string) (k : string) :
  partitions (snd (add_empty_group s all_names)) k = partitions s k.
Proof.
  unfold add_empty_group. now destruct (qgroups s !! "main").
Qed.

Lemma add_layer_set_map (s : XYZLayer) (k : string) (v : QgsVectorLayer) (i : Z) :
  exists m, snd (_add_layer s k v i) = set_map_vlayer s m.
Proof.
  unfold _add_layer. destruct (setdefault (map_vlayer s) k) as [lst m].
  destruct (Z.eqb i (Z.of_nat (length lst))); simpl; eauto.
Qed.

Lemma add_empty_group_set_map (s : XYZLayer) (m : gmap string (list QgsVectorLayer))
    (all_names : list string) :
  add_empty_group (set_map_vlayer s m) all_names
    = (fst (add_empty_group s all_names),
       set_map_vlayer (snd (add_empty_group s all_names)) m).
Proof.
  unfold add_empty_group. cbn [qgroups set_map_vlayer].
  now destruct (qgroups s !! "main").
Qed.

(** Every call of [add_ext_layer] keeps the agreement of the store with its
    display groups, whether it returns or raises. *)
Lemma inv_step (s s' : XYZLayer) (k : string) (idx : Z) (all_names : list string)
    (w w' : W) (r : result QgsVectorLayer) :
  inv s ->
  add_ext_layer s k idx all_names w = (r, s', w') ->
  (forall v, r = Ok v -> vl_wkb v = k /\ _group_geom_name k <> "main") ->
  inv s'.
Proof.
  intros Hinv Hcall Hprem. unfold add_ext_layer in Hcall.
  destruct (_init_ext_layer s k idx crs_wkt w) as [[v|e] w1];
    [|injection Hcall as <- <- <-; exact Hinv].
  destruct (LayerFacts.add_layer_cases s k v idx) as (Hsame & Hok & Hraise).
  destruct (add_layer_set_map s k v idx) as [m Hm].
  destruct (_add_layer s k v idx) as [[[]|e] s1]; cbn [fst snd] in *.
  2:{ injection Hcall as <- <- <-.
      destruct Hsame as (Hq & Ht & _).
      destruct (Z.eq_dec idx (Z.of_nat (length (partitions s k)))) as [Heq|Hne].
      - destruct (Hok Heq) as [Hr _]. discriminate Hr.
      - destruct (Hraise Hne) as [_ Hp]. now apply (inv_transfer s s1). }
  destruct (Z.eq_dec idx (Z.of_nat (length (partitions s k)))) as [Heq|Hne];
    [|destruct (Hraise Hne) as [Hr _]; discriminate Hr].
  destruct (Hok Heq) as (_ & Happ & Hother). clear Hok Hraise.
  subst s1. rewrite add_empty_group_set_map in Hcall.
  pose proof (add_empty_group_view s all_names Hinv) as Hview.
  pose proof (add_empty_group_partitions s all_names) as Hparts2.
  destruct (add_empty_group s all_names) as [group s2]. cbn [fst snd] in *.
  destruct Hview as (Hu2 & _ & nm & pr & view & Htree & Hvok).
  cbn [qgroups qtree set_map_vlayer _group_name] in Hcall.
  rewrite Htree in Hcall.
  assert (Hr : r = Ok v).
  { destruct (qgroups s2 !! _group_geom_name k);
      [|destruct (GEOM_ORDER !! _group_geom_name k)];
      now injection Hcall as <- _ _. }
  destruct (Hprem v Hr) as [Hwkb Hmain]. subst k. clear Hprem.
  assert (Hnew : forall k', partitions (set_map_vlayer s m) k'
                            = partitions s2 k' ++ of_kind k' [v]).
  { intros k'. rewrite Hparts2, of_kind_single.
    destruct (String.eqb_spec (vl_wkb v) k') as [<-|Hkk]; [exact Happ|].
    rewrite app_nil_r. apply Hother. congruence. }
  destruct (qgroups s2 !! _group_geom_name (vl_wkb v)) as [g|] eqn:Hgeom.
  - injection Hcall as _ <- _.
    destruct (attach_existing s2
                (set_tree (set_map_vlayer s2 m) (_group_name s2)
                   (<[_group_geom_name (vl_wkb v) := g]> (qgroups s2))
                   (addLayer g v <$> Some (tree_of group nm pr view)))
                group g view v Hvok Hgeom Hmain eq_refl Hnew) as [Hne Hvok'].
    unfold inv. cbn [qtree set_tree].
    exists group, nm, pr, (map (child_add g v) view).
    split; [exact (addLayer_tree_of g group nm pr v view Hne)|exact Hvok'].
  - destruct (fresh_id_tree_of group nm pr view) as [Hfm Hfv].
    assert (Hmid : group ∉ map c_id view) by apply (vo_mid _ _ _ Hvok).
    destruct (GEOM_ORDER !! _group_geom_name (vl_wkb v)) as [o|];
      injection Hcall as _ <- _; unfold inv; cbn [qtree set_tree].
    + exists group, nm, pr,
        (take o view
         ++ {| c_id := fresh_id (Some (tree_of group nm pr view));
               c_name := _group_geom_name (vl_wkb v); c_layers := [v] |}
         :: drop o view).
      split.
      * exact (insert_then_add_layer group _ o _ nm pr v view Hmid Hfv (not_eq_sym Hfm)).
      * apply (view_ok_transfer
                 (set_tree (set_map_vlayer s2 m) (_group_name s2)
                    (<[_group_geom_name (vl_wkb v)
                       := fresh_id (Some (tree_of group nm pr view))]> (qgroups s2)) None));
          [|reflexivity|reflexivity].
        apply (attach_new s2 _ group _ o view v Hvok Hgeom Hmain Hfm Hfv);
          [reflexivity|exact Hnew].
    + exists group, nm, pr,
        (take (length view) view
         ++ {| c_id := fresh_id (Some (tree_of group nm pr view));
               c_name := _group_geom_name (vl_wkb v); c_layers := [v] |}
         :: drop (length view) view).
      split.
      * exact (add_then_add_layer group _ _ nm pr v view Hmid Hfv (not_eq_sym Hfm)).
      * apply (view_ok_transfer
                 (set_tree (set_map_vlayer s2 m) (_group_name s2)
                    (<[_group_geom_name (vl_wkb v)
                       := fresh_id (Some (tree_of group nm pr view))]> (qgroups s2)) None));
          [|reflexivity|reflexivity].
        apply (attach_new s2 _ group _ (length view) view v Hvok Hgeom Hmain Hfm Hfv);
          [reflexivity|exact Hnew].
Qed.

End Steps.

Lemma demo_added3_reachable : @reachable demo_env_gpkg demo_added3.
Proof.
  unfold demo_added3, demo_added2, demo_added1, demo_store.
  do 3 apply (@reach_add demo_env_gpkg). apply (@reach_init demo_env_gpkg).
Qed.

End ProvenanceFacts.

(** ** All requests of the hub client *)

Module ClientFacts.
Import Models Network Demo.

Section Calls.
Variable prepare_new_space_info : json -> json.

Local Abbreviation perform := (perform prepare_new_space_info).
Local Abbreviation perform_all := (perform_all prepare_new_space_info).

Lemma send_and_tag_sends_one (self : NetManager) (ci : SpaceConnectionInfo) (v : verb)
    (rq : request) (body : option json) (kw_prop : gmap string value) :
  rq_conn rq = ci ->
  is_Some (kw_prop !! "reply_tag") ->
  sends_one self
    (_post_send_request (snd (network_send self v rq body)) (fst (network_send self v rq body))
       ci kw_prop)
    ci (fst (network_send self v rq body)).
Proof.
  intros Hci Htag. unfold network_send, _post_send_request. simpl.
  constructor; simpl.
  - reflexivity.
  - eexists. split; [reflexivity|exact Hci].
  - reflexivity.
  - eexists. split; [reflexivity|]. split; [reflexivity|exact Htag].
Qed.

Lemma send_request_sends_one (self : NetManager) (ci : SpaceConnectionInfo)
    (endpoint : string) (kw_request kw_prop : gmap string value) :
  is_Some (kw_prop !! "reply_tag") ->
  sends_one self (snd (_send_request self ci endpoint kw_request kw_prop)) ci
    (fst (_send_request self ci endpoint kw_request kw_prop)).
Proof.
  intros Htag. unfold _send_request.
  exact (send_and_tag_sends_one self ci GET (_pre_send_request ci endpoint kw_request) None
           kw_prop eq_refl Htag).
Qed.

Lemma singleton_tag (t : value) : is_Some (({[ "reply_tag" := t ]} : gmap string value) !! "reply_tag").
Proof. rewrite lookup_singleton_eq. eauto. Qed.

Lemma union_tag (kw : gmap string value) (t : value) :
  is_Some ((kw ∪ {[ "reply_tag" := t ]}) !! "reply_tag").
Proof.
  destruct (kw !! "reply_tag") as [v|] eqn:Hk.
  - exists v. now apply lookup_union_Some_l.
  - exists t. rewrite lookup_union_r by assumption. apply lookup_singleton_eq.
Qed.

Lemma call_load_sends_one (self : NetManager) (endpoint : string) (ci : SpaceConnectionInfo)
    (tag : value) (kw : gmap string value) :
  match fst (call_load_features_endpoint self endpoint ci tag kw) with
  | Ok reply => sends_one self (snd (call_load_features_endpoint self endpoint ci tag kw)) ci reply
  | Raise _ => snd (call_load_features_endpoint self endpoint ci tag kw) = self
  end.
Proof.
  unfold call_load_features_endpoint. case_bool_decide; [reflexivity|].
  unfold _load_features_endpoint.
  pose proof (send_request_sends_one self ci endpoint kw (kw ∪ {[ "reply_tag" := tag ]})
                (union_tag kw tag)) as Hsend.
  now destruct (_send_request self ci endpoint kw _).
Qed.

Lemma add_features_sends_one (self : NetManager) (ci : SpaceConnectionInfo) (feat : json)
    (v : verb) (kw : gmap string value) :
  match fst (_add_features self ci feat v kw) with
  | Ok reply => sends_one self (snd (_add_features self ci feat v kw)) ci reply
  | Raise _ => snd (_add_features self ci feat v kw) = self
  end.
Proof.
  unfold _add_features.
  destruct (match kw !! "tags" with Some t => <["addTags":=t]> kw | None => kw end !! "req_type");
    [reflexivity|].
  apply send_and_tag_sends_one; [reflexivity|apply union_tag].
Qed.

Lemma perform_cases (self : NetManager) (c : call) :
  match fst (perform self c) with
  | Ok reply => sends_one self (snd (perform self c)) (call_conn c) reply
  | Raise _ => snd (perform self c) = self
  end.
Proof.
  destruct c as [ci|ci|ci|ci|ci info|ci info|ci|ci tid ts kw|ci kw|ci kw|ci feat kw
                |ci feat kw|ci feat kw|ci ids kw]; cbn [perform call_conn].
  - unfold get_statistics, _get_space_.
    pose proof (send_request_sends_one self ci ("/spaces/{space_id}" +:+ "/" +:+ "statistics")
                  ∅ {[ "reply_tag" := VAtom (AStr "statistics") ]} (singleton_tag _)) as Hs.
    cbn [String.eqb Ascii.eqb Bool.eqb].
    destruct (_send_request self ci _ ∅ _) as [reply self1]. cbn [fst snd no_raise] in *.
    destruct Hs. constructor; assumption.
  - apply send_request_sends_one, singleton_tag.
  - apply send_request_sends_one, singleton_tag.
  - apply send_request_sends_one, singleton_tag.
  - apply send_and_tag_sends_one; [reflexivity|apply singleton_tag].
  - apply send_and_tag_sends_one; [reflexivity|apply singleton_tag].
  - apply send_and_tag_sends_one; [reflexivity|apply singleton_tag].
  - apply call_load_sends_one.
  - apply call_load_sends_one.
  - apply call_load_sends_one.
  - apply add_features_sends_one.
  - apply add_features_sends_one.
  - apply add_features_sends_one.
  - apply send_and_tag_sends_one; [reflexivity|apply singleton_tag].
Qed.

(** X1. Every method sends at most one request.  When it returns, the reply
    is a new one, the request is appended to those sent before, the reply is
    running, and the connection and a reply tag are attached to it; the
    requests, states and properties of earlier replies stay as they were.
    When it raises, nothing is sent and the manager is as before. *)
Theorem perform_sends_one (self : NetManager) (c : call) :
  match fst (perform self c) with
  | Ok reply => sends_one self (snd (perform self c)) (call_conn c) reply
  | Raise _ => snd (perform self c) = self
  end.
Proof. exact (perform_cases self c). Qed.

Lemma perform_timers (self : NetManager) (c : call) :
  timers (snd (perform self c))
    = timers self ++ (if is_get_statistics c
                      then [(TIMEOUT_COUNT, AbortReply (length (outbox self)))] else []).
Proof.
  destruct c as [ci|ci|ci|ci|ci info|ci info|ci|ci tid ts kw|ci kw|ci kw|ci feat kw
                |ci feat kw|ci feat kw|ci ids kw]; cbn [perform is_get_statistics];
    try (symmetry; apply app_nil_r).
  - reflexivity.
  - unfold load_features_tile, call_load_features_endpoint.
    case_bool_decide; symmetry; apply app_nil_r.
  - unfold load_features_iterate, call_load_features_endpoint.
    case_bool_decide; symmetry; apply app_nil_r.
  - unfold load_features_search, call_load_features_endpoint.
    case_bool_decide; symmetry; apply app_nil_r.
  - unfold add_features, _add_features.
    destruct (match kw !! "tags" with Some t => <["addTags":=t]> kw | None => kw end
              !! "req_type"); symmetry; apply app_nil_r.
  - unfold modify_features, add_features, _add_features.
    destruct (match kw !! "tags" with Some t => <["addTags":=t]> kw | None => kw end
              !! "req_type"); symmetry; apply app_nil_r.
  - unfold replace_features, _add_features.
    destruct (match kw !! "tags" with Some t => <["addTags":=t]> kw | None => kw end
              !! "req_type"); symmetry; apply app_nil_r.
Qed.

Lemma get_statistics_outbox (self : NetManager) (ci : SpaceConnectionInfo) :
  outbox (snd (get_statistics self ci))
    = outbox self
      ++ [{| s_verb := GET;
             s_request := {| rq_conn := ci; rq_endpoint := "/spaces/{space_id}/statistics";
                             rq_kw := ∅ |};
             s_body := None |}].
Proof. reflexivity. Qed.

Lemma perform_consistent (self : NetManager) (c : call) :
  consistent self -> consistent (snd (perform self c)).
Proof.
  intros Hc. pose proof (perform_cases self c) as Hs.
  pose proof (perform_timers self c) as Ht.
  destruct (perform self c) as [[reply|e] self'] eqn:Hp; cbn [fst snd] in *;
    [|now subst self'].
  destruct Hs as [Hr (entry & Hout & _) Hst (p & Hpr & _ & _)].
  constructor.
  - intros r. rewrite Hout, length_app, Hpr. simpl.
    destruct (decide (r = reply)) as [->|Hne].
    + rewrite lookup_insert_eq. split; [eauto|lia].
    + rewrite lookup_insert_ne by congruence. rewrite <- (co_props _ Hc). lia.
  - intros r. rewrite Hout, length_app, Hst. simpl.
    destruct (decide (r = reply)) as [->|Hne].
    + rewrite lookup_insert_eq. split; [eauto|lia].
    + rewrite lookup_insert_ne by congruence. rewrite <- (co_states _ Hc). lia.
  - intros t slot Hin. rewrite Ht in Hin. apply elem_of_app in Hin.
    destruct Hin as [Hin|Hin].
    + destruct (co_timers _ Hc t slot Hin) as (r & e0 & -> & -> & Hl & Hv & He).
      exists r, e0. repeat split; try assumption.
      rewrite Hout. now apply lookup_app_l_Some.
    + destruct c; cbn [is_get_statistics] in Hin; try now apply elem_of_nil in Hin.
      apply list_elem_of_singleton in Hin. injection Hin as -> ->.
      assert (Ho : outbox self' = outbox (snd (get_statistics self conn_info))).
      { cbn [perform no_raise] in Hp. now injection Hp as _ <-. }
      rewrite get_statistics_outbox in Ho.
      eexists _, _. split; [reflexivity|]. split; [reflexivity|].
      rewrite Ho.
      split; [rewrite lookup_app_r, Nat.sub_diag by lia; reflexivity|split; reflexivity].
Qed.

Lemma perform_all_consistent (calls : list call) :
  forall n, consistent n ->
  consistent (perform_all n calls) /\
  length (timers (perform_all n calls))
    = (length (timers n) + length (List.filter is_get_statistics calls))%nat.
Proof.
  induction calls as [|c calls IH]; intros n Hn.
  - split; [exact Hn|]. simpl. lia.
  - cbn [perform_all Network.perform_all foldl List.filter].
    destruct (IH _ (perform_consistent n c Hn)) as [H1 H2].
    split; [exact H1|].
    unfold perform_all, Network.perform_all in H2. rewrite H2, perform_timers, length_app.
    destruct (is_get_statistics c); simpl; lia.
Qed.

Lemma empty_manager_consistent : consistent empty_manager.
Proof.
  constructor; simpl.
  - intros r. rewrite lookup_empty. split; [lia|intros [? H]; discriminate H].
  - intros r. rewrite lookup_empty. split; [lia|intros [? H]; discriminate H].
  - intros t slot H. now apply elem_of_nil in H.
Qed.

(** X2. Whatever methods are called on a new manager, and in whatever order,
    the replies that carry a state and properties are exactly those of the
    requests sent; there is one timer for each call of [get_statistics] and
    no other; and each timer has the interval 1000 and aborts the reply of a
    GET request for the statistics of a space. *)
Theorem manager_stays_consistent (calls : list call) :
  consistent (perform_all empty_manager calls) /\
  length (timers (perform_all empty_manager calls))
    = length (List.filter is_get_statistics calls).
Proof.
  destruct (perform_all_consistent calls empty_manager empty_manager_consistent) as [H1 H2].
  split; [exact H1|]. rewrite H2. reflexivity.
Qed.

End Calls.

Lemma no_collision (kw : gmap string value) :
  kw !! "self" = None -> kw !! "endpoint" = None -> kw !! "conn_info" = None ->
  kw !! "reply_tag" = None ->
  ~ Exists (fun name => is_Some (kw !! name)) ["self"; "endpoint"; "conn_info"; "reply_tag"].
Proof.
  intros H1 H2 H3 H4 Hex. rewrite !Exists_cons, Exists_nil in Hex.
  rewrite H1, H2, H3, H4 in Hex.
  destruct Hex as [[? H]|[[? H]|[[? H]|[[? H]|[]]]]]; discriminate H.
Qed.

(** What [call_load_features_endpoint] sends when no keyword argument names
    a parameter. *)
Lemma call_load_passes (self : NetManager) (endpoint : string) (ci : SpaceConnectionInfo)
    (tag : value) (kw : gmap string value) :
  kw !! "self" = None -> kw !! "endpoint" = None -> kw !! "conn_info" = None ->
  kw !! "reply_tag" = None ->
  call_load_features_endpoint self endpoint ci tag kw
  = (Ok (length (outbox self)),
     {| outbox := outbox self
                  ++ [{| s_verb := GET;
                         s_request := {| rq_conn := ci; rq_endpoint := endpoint; rq_kw := kw |};
                         s_body := None |}];
        states := <[length (outbox self) := Running]> (states self);
        props := <[length (outbox self)
                   := {| rp_conn := ci; rp_kw := kw ∪ {[ "reply_tag" := tag ]} |}]>
                 (props self);
        timers := timers self |}).
Proof.
  intros H1 H2 H3 H4. unfold call_load_features_endpoint.
  rewrite bool_decide_eq_false_2 by now apply no_collision.
  reflexivity.
Qed.

(** A keyword argument that names a parameter of [_load_features_endpoint]
    makes the call raise, with nothing sent. *)
Lemma call_load_collides (self : NetManager) (endpoint : string) (ci : SpaceConnectionInfo)
    (tag : value) (kw : gmap string value) :
  is_Some (kw !! "self") \/ is_Some (kw !! "endpoint") \/ is_Some (kw !! "conn_info") ->
  call_load_features_endpoint self endpoint ci tag (delete "reply_tag" kw)
    = (Raise TypeError, self).
Proof.
  intros Hkey. unfold call_load_features_endpoint.
  rewrite bool_decide_eq_true_2; [reflexivity|].
  rewrite !Exists_cons, !lookup_delete_ne by discriminate. tauto.
Qed.

(** X3. [load_features_iterate] and [load_features_search] pass the paging
    arguments through.  A keyword argument called [endpoint] (or [self] or
    [conn_info], which a call cannot hand over as extra keywords) makes the
    call raise [TypeError] with nothing sent.  Otherwise a GET request goes
    to the endpoint, every keyword argument other than [reply_tag] is a
    keyword argument of the request with its value unchanged, and is attached
    to the reply with that value; [reply_tag] is never a keyword argument of
    the request, and the tag attached to the reply is the one given as
    [reply_tag], or else [iterate] and [search]. *)
Theorem load_features_pass_cursor (self : NetManager) (ci : SpaceConnectionInfo)
    (kw : gmap string value)
    (method : NetManager -> SpaceConnectionInfo -> gmap string value
              -> result nat * NetManager) (name : string) :
  (method = load_features_iterate /\ name = "iterate") \/
  (method = load_features_search /\ name = "search") ->
  (is_Some (kw !! "self") \/ is_Some (kw !! "endpoint") \/ is_Some (kw !! "conn_info") ->
     method self ci kw = (Raise TypeError, self)) /\
  (kw !! "self" = None -> kw !! "endpoint" = None -> kw !! "conn_info" = None ->
   exists rq p,
     fst (method self ci kw) = Ok (length (outbox self)) /\
     outbox (snd (method self ci kw))
       = outbox self ++ [{| s_verb := GET; s_request := rq; s_body := None |}] /\
     rq_conn rq = ci /\
     rq_endpoint rq = "/spaces/{space_id}/" +:+ name /\
     props (snd (method self ci kw)) !! length (outbox self) = Some p /\
     rp_conn p = ci /\
     rq_kw rq !! "reply_tag" = None /\
     rp_kw p !! "reply_tag" = Some (default (VAtom (AStr name)) (kw !! "reply_tag")) /\
     forall key, key <> "reply_tag" ->
       rq_kw rq !! key = kw !! key /\ rp_kw p !! key = kw !! key).
Proof.
  intros Hm. split.
  { intros Hkey. destruct Hm as [[-> ->]|[-> ->]];
      unfold load_features_iterate, load_features_search;
      now apply call_load_collides. }
  intros H1 H2 H3.
  assert (Hcall : forall endpoint tag,
    exists rq p,
      fst (call_load_features_endpoint self endpoint ci tag (delete "reply_tag" kw))
        = Ok (length (outbox self)) /\
      outbox (snd (call_load_features_endpoint self endpoint ci tag (delete "reply_tag" kw)))
        = outbox self ++ [{| s_verb := GET; s_request := rq; s_body := None |}] /\
      rq_conn rq = ci /\ rq_endpoint rq = endpoint /\
      props (snd (call_load_features_endpoint self endpoint ci tag (delete "reply_tag" kw)))
        !! length (outbox self) = Some p /\
      rp_conn p = ci /\
      rq_kw rq !! "reply_tag" = None /\
      rp_kw p !! "reply_tag" = Some tag /\
      forall key, key <> "reply_tag" ->
        rq_kw rq !! key = kw !! key /\ rp_kw p !! key = kw !! key).
  { intros endpoint tag.
    rewrite (call_load_passes self endpoint ci tag (delete "reply_tag" kw))
      by (rewrite ?lookup_delete_eq, ?lookup_delete_ne by discriminate; trivial).
    eexists _, _. cbn [fst snd outbox props rq_conn rq_endpoint rq_kw].
    split; [reflexivity|]. split; [reflexivity|]. split; [reflexivity|].
    split; [reflexivity|]. split; [apply lookup_insert_eq|].
    cbn [rp_conn rp_kw rq_kw]. split; [reflexivity|]. split; [apply lookup_delete_eq|]. split.
    - rewrite lookup_union_r by apply lookup_delete_eq. apply lookup_singleton_eq.
    - intros key Hkey. rewrite lookup_delete_ne by congruence. split; [reflexivity|].
      destruct (kw !! key) as [v|] eqn:Hk.
      + apply lookup_union_Some_l. now rewrite lookup_delete_ne by congruence.
      + rewrite lookup_union_r by (now rewrite lookup_delete_ne by congruence).
        now rewrite lookup_singleton_ne by congruence. }
  destruct Hm as [[-> ->]|[-> ->]].
  - exact (Hcall "/spaces/{space_id}/iterate"
             (default (VAtom (AStr "iterate")) (kw !! "reply_tag"))).
  - exact (Hcall "/spaces/{space_id}/search"
             (default (VAtom (AStr "search")) (kw !! "reply_tag"))).
Qed.

Lemma load_features_pass_cursor_witness :
  (exists rq p,
     outbox (snd (load_features_iterate empty_manager demo_conn demo_page_tagged))
       = [{| s_verb := GET; s_request := rq; s_body := None |}] /\
     rq_kw rq !! "handle" = Some (VAtom (AStr "h-17")) /\
     rq_kw rq !! "reply_tag" = None /\
     props (snd (load_features_iterate empty_manager demo_conn demo_page_tagged)) !! 0%nat
       = Some p /\
     rp_kw p !! "reply_tag" = Some (VAtom (AStr "init_layer")) /\
     rp_kw p !! "handle" = Some (VAtom (AStr "h-17"))) /\
  load_features_search empty_manager demo_conn (<["endpoint" := VAtom (AStr "/x")]> demo_page)
    = (Raise TypeError, empty_manager).
Proof.
  split.
  - destruct (load_features_pass_cursor empty_manager demo_conn demo_page_tagged
                load_features_iterate "iterate" (or_introl (conj eq_refl eq_refl)))
      as [_ H].
    destruct (H eq_refl eq_refl eq_refl)
      as (rq & p & _ & Hout & _ & _ & Hp & _ & Hrt & Hpt & Hkeys).
    exists rq, p. split; [exact Hout|].
    destruct (Hkeys "handle" ltac:(discriminate)) as [Hq Hh].
    split; [rewrite Hq; reflexivity|]. split; [exact Hrt|]. split; [exact Hp|].
    split; [rewrite Hpt; reflexivity|]. rewrite Hh. reflexivity.
  - destruct (load_features_pass_cursor empty_manager demo_conn
                (<["endpoint" := VAtom (AStr "/x")]> demo_page)
                load_features_search "search" (or_intror (conj eq_refl eq_refl)))
      as [H _].
    apply H. right. left. rewrite lookup_insert_eq. eauto.
Defined.

(** X4. [load_features_tile] asks for the tile of the given schema and id.
    A keyword argument called [reply_tag], which [load_features_iterate]
    accepts as the tag of the reply, makes it raise [TypeError] without
    sending anything; so does one called [endpoint].  Otherwise the keyword
    arguments are the query parameters of the GET request, and the reply is
    tagged [tile]. *)
Theorem load_features_tile_request (self : NetManager) (ci : SpaceConnectionInfo)
    (tile_id tile_schema : atom) (kw : gmap string value) :
  (is_Some (kw !! "reply_tag") \/ is_Some (kw !! "endpoint") ->
     load_features_tile self ci tile_id tile_schema kw = (Raise TypeError, self)) /\
  (kw !! "self" = None -> kw !! "endpoint" = None -> kw !! "conn_info" = None ->
   kw !! "reply_tag" = None ->
     exists rq p,
       fst (load_features_tile self ci tile_id tile_schema kw) = Ok (length (outbox self)) /\
       outbox (snd (load_features_tile self ci tile_id tile_schema kw))
         = outbox self ++ [{| s_verb := GET; s_request := rq; s_body := None |}] /\
       rq_conn rq = ci /\
       rq_endpoint rq
         = "/spaces/{space_id}/tile/" +:+ py_str tile_schema +:+ "/" +:+ py_str tile_id /\
       rq_kw rq = kw /\
       props (snd (load_features_tile self ci tile_id tile_schema kw)) !! length (outbox self)
         = Some p /\
       rp_conn p = ci /\
       rp_kw p !! "reply_tag" = Some (VAtom (AStr "tile")) /\
       forall key, key <> "reply_tag" -> rp_kw p !! key = kw !! key).
Proof.
  split.
  - intros Hk. unfold load_features_tile, call_load_features_endpoint.
    rewrite bool_decide_eq_true_2; [reflexivity|].
    rewrite !Exists_cons. tauto.
  - intros H1 H2 H3 H4. unfold load_features_tile.
    rewrite (call_load_passes self _ ci _ kw H1 H2 H3 H4).
    eexists _, _. cbn [fst snd outbox props rq_conn rq_endpoint rq_kw].
    split; [reflexivity|]. split; [reflexivity|]. split; [reflexivity|].
    split; [reflexivity|]. split; [reflexivity|]. split; [apply lookup_insert_eq|].
    cbn [rp_conn rp_kw rq_kw]. split; [reflexivity|]. split.
    + rewrite lookup_union_r by assumption. apply lookup_singleton_eq.
    + intros key Hkey. destruct (kw !! key) as [v|] eqn:Hk.
      * now apply lookup_union_Some_l.
      * rewrite lookup_union_r by assumption. now rewrite lookup_singleton_ne by congruence.
Qed.

Lemma load_features_tile_request_witness :
  load_features_tile empty_manager demo_conn (AStr "120203") (AStr "quadkey") demo_page_tagged
    = (Raise TypeError, empty_manager) /\
  exists rq,
    outbox (snd (load_features_tile empty_manager demo_conn (AStr "120203") (AStr "quadkey")
                   demo_page))
      = [{| s_verb := GET; s_request := rq; s_body := None |}] /\
    rq_endpoint rq = "/spaces/{space_id}/tile/quadkey/120203".
Proof.
  destruct (load_features_tile_request empty_manager demo_conn (AStr "120203") (AStr "quadkey")
              demo_page_tagged) as [Hraise _].
  destruct (load_features_tile_request empty_manager demo_conn (AStr "120203") (AStr "quadkey")
              demo_page) as [_ Hok].
  split.
  - apply Hraise. left. eexists. reflexivity.
  - destruct (Hok eq_refl eq_refl eq_refl eq_refl) as (rq & p & _ & Hout & _ & He & _).
    exists rq. split; [exact Hout|]. rewrite He. reflexivity.
Defined.

(** X5. The keyword arguments of [_add_features] at the edges.  With a key
    [req_type] the call raises [TypeError] and sends nothing.  Without the
    keys [req_type] and [tags] the keyword arguments are sent as they are,
    with the body mode [geo] beside them, so [addTags] is a query parameter
    only if the caller gave it; and the reply is tagged [add_feat] unless the
    caller gave a [reply_tag], which then is the tag and a query parameter
    too. *)
Theorem add_features_keyword_edges (self : NetManager) (ci : SpaceConnectionInfo)
    (added_feat : json) (send_request : verb) (kw : gmap string value) :
  (is_Some (kw !! "req_type") ->
     _add_features self ci added_feat send_request kw = (Raise TypeError, self)) /\
  (kw !! "req_type" = None -> kw !! "tags" = None ->
     exists rq p,
       fst (_add_features self ci added_feat send_request kw) = Ok (length (outbox self)) /\
       outbox (snd (_add_features self ci added_feat send_request kw))
         = outbox self
           ++ [{| s_verb := send_request; s_request := rq; s_body := Some added_feat |}] /\
       rq_kw rq = <["req_type" := VAtom (AStr "geo")]> kw /\
       rq_kw rq !! "addTags" = kw !! "addTags" /\
       rq_kw rq !! "reply_tag" = kw !! "reply_tag" /\
       props (snd (_add_features self ci added_feat send_request kw)) !! length (outbox self)
         = Some p /\
       rp_kw p !! "reply_tag"
         = Some (default (VAtom (AStr "add_feat")) (kw !! "reply_tag"))).
Proof.
  split.
  - intros [v Hv]. unfold _add_features.
    destruct (kw !! "tags") as [t|].
    + rewrite lookup_insert_ne by discriminate. now rewrite Hv.
    + now rewrite Hv.
  - intros Hreq Htags. unfold _add_features. rewrite Htags, Hreq.
    unfold network_send, _post_send_request, _pre_send_request.
    eexists _, _. cbn [fst snd outbox props].
    split; [reflexivity|]. split; [reflexivity|]. cbn [rq_kw rp_kw].
    split; [reflexivity|].
    split; [now rewrite lookup_insert_ne by discriminate|].
    split; [now rewrite lookup_insert_ne by discriminate|].
    split; [apply lookup_insert_eq|]. cbn [rp_kw].
    destruct (kw !! "reply_tag") as [t|] eqn:Ht.
    + now apply lookup_union_Some_l.
    + rewrite lookup_union_r by assumption. apply lookup_singleton_eq.
Qed.

Lemma add_features_keyword_edges_witness :
  _add_features empty_manager demo_conn demo_features POST
      {[ "req_type" := VAtom (AStr "json") ]}
    = (Raise TypeError, empty_manager) /\
  exists rq,
    outbox (snd (_add_features empty_manager demo_conn demo_features POST demo_page))
      = [{| s_verb := POST; s_request := rq; s_body := Some demo_features |}] /\
    rq_kw rq !! "addTags" = None.
Proof.
  destruct (add_features_keyword_edges empty_manager demo_conn demo_features POST
              {[ "req_type" := VAtom (AStr "json") ]}) as [Hraise _].
  destruct (add_features_keyword_edges empty_manager demo_conn demo_features POST demo_page)
    as [_ Hok].
  split.
  - apply Hraise. eexists. reflexivity.
  - destruct (Hok eq_refl eq_refl) as (rq & p & _ & Hout & _ & Ha & _).
    exists rq. split; [exact Hout|]. rewrite Ha. reflexivity.
Defined.

(** X6. [add_features] and [replace_features] differ in the verb only: for
    the same arguments both return or both raise, the request, its body, and
    the properties and state of the reply are the same, and the verb is POST
    for the one and PUT for the other.  [modify_features] is
    [add_features]. *)
Theorem add_and_replace_differ_in_verb (self : NetManager) (ci : SpaceConnectionInfo)
    (added_feat : json) (kw : gmap string value) :
  let a := add_features self ci added_feat kw in
  let r := replace_features self ci added_feat kw in
  fst a = fst r /\
  map s_request (outbox (snd a)) = map s_request (outbox (snd r)) /\
  map s_body (outbox (snd a)) = map s_body (outbox (snd r)) /\
  props (snd a) = props (snd r) /\ states (snd a) = states (snd r) /\
  timers (snd a) = timers (snd r) /\
  (forall reply, fst a = Ok reply ->
     s_verb <$> outbox (snd a) !! reply = Some POST /\
     s_verb <$> outbox (snd r) !! reply = Some PUT) /\
  modify_features self ci added_feat kw = a.
Proof.
  intros a r. subst a r. unfold modify_features, add_features, replace_features, _add_features.
  destruct (match kw !! "tags" with Some t => <["addTags":=t]> kw | None => kw end
            !! "req_type").
  - repeat (split; [reflexivity|]). split; [|reflexivity]. intros reply H. discriminate H.
  - unfold network_send, _post_send_request, _pre_send_request. cbn [fst snd outbox props states timers].
    split; [reflexivity|]. rewrite !map_app. cbn [map s_request s_body].
    repeat (split; [reflexivity|]). split; [|reflexivity].
    intros reply [= <-]. now rewrite !lookup_app_r, Nat.sub_diag by lia.
Qed.

Lemma add_and_replace_differ_in_verb_witness :
  s_verb <$> outbox (snd (add_features empty_manager demo_conn demo_features demo_kw)) !! 0%nat
    = Some POST /\
  s_verb <$> outbox (snd (replace_features empty_manager demo_conn demo_features demo_kw)) !! 0%nat
    = Some PUT.
Proof.
  destruct (add_and_replace_differ_in_verb empty_manager demo_conn demo_features demo_kw)
    as (_ & _ & _ & _ & _ & _ & H & _).
  apply (H 0%nat). vm_compute. reflexivity.
Defined.

(** X7. [del_features] at the edges.  An [id] among the keyword arguments
    is replaced by the ids of the list, and the other keyword arguments are
    query parameters as they are; for the empty list the request is sent all
    the same, with an empty [id]; and the reply carries the connection and the
    tag [del_feat] but none of the keyword arguments. *)
Theorem del_features_edges (self : NetManager) (ci : SpaceConnectionInfo)
    (removed_feat : list atom) (kw : gmap string value) :
  exists rq,
    outbox (snd (del_features self ci removed_feat kw))
      = outbox self ++ [{| s_verb := DELETE; s_request := rq; s_body := None |}] /\
    rq_kw rq !! "id" = Some (VAtom (AStr (PyStr.join "," (map py_str removed_feat)))) /\
    (forall key, key <> "id" -> rq_kw rq !! key = kw !! key) /\
    (removed_feat = [] -> rq_kw rq !! "id" = Some (VAtom (AStr EmptyString))) /\
    props (snd (del_features self ci removed_feat kw)) !! length (outbox self)
      = Some {| rp_conn := ci; rp_kw := {[ "reply_tag" := VAtom (AStr "del_feat") ]} |}.
Proof.
  unfold del_features, network_send, _post_send_request, _pre_send_request.
  eexists. cbn [fst snd outbox props]. split; [reflexivity|]. cbn [rq_kw].
  assert (Hid : ({[ "id" := VAtom (AStr (PyStr.join "," (map py_str removed_feat))) ]} ∪ kw)
                !! "id" = Some (VAtom (AStr (PyStr.join "," (map py_str removed_feat))))).
  { apply lookup_union_Some_l. apply lookup_singleton_eq. }
  split; [exact Hid|]. split; [|split].
  - intros key Hkey. rewrite lookup_union_r; [reflexivity|].
    now rewrite lookup_singleton_ne by congruence.
  - intros ->. exact Hid.
  - apply lookup_insert_eq.
Qed.

Lemma del_features_edges_witness :
  exists rq,
    outbox (snd (del_features empty_manager demo_conn []
                   {[ "id" := VAtom (AStr "f9"); "tags" := VAtom (AStr "a") ]}))
      = [{| s_verb := DELETE; s_request := rq; s_body := None |}] /\
    rq_kw rq !! "id" = Some (VAtom (AStr EmptyString)) /\
    rq_kw rq !! "tags" = Some (VAtom (AStr "a")).
Proof.
  destruct (del_features_edges empty_manager demo_conn []
              {[ "id" := VAtom (AStr "f9"); "tags" := VAtom (AStr "a") ]})
    as (rq & Hout & _ & Hkeys & Hempty & _).
  exists rq. split; [exact Hout|]. split; [exact (Hempty eq_refl)|].
  rewrite (Hkeys "tags") by discriminate. reflexivity.
Defined.

End ClientFacts.

(** ** The partitions of a store and their tables *)

Module PartitionFacts.
Import Models Layer Demo.

Lemma occurs_app (c : ascii) (a b : string) :
  occurs c (a +:+ b) = occurs c a || occurs c b.
Proof.
  induction a as [|x a IH]; [reflexivity|].
  rewrite StorageFacts.append_cons. cbn [occurs]. rewrite IH. now rewrite orb_assoc.
Qed.

Lemma occurs_single (c x : ascii) : occurs c (String x EmptyString) = true -> x = c.
Proof.
  cbn [occurs]. rewrite orb_false_r. apply Ascii.eqb_eq.
Qed.

Lemma pretty_N_go_chars (P : ascii -> Prop) :
  (forall d, P (pretty_N_char d)) ->
  forall x s, (forall c, occurs c s = true -> P c) ->
  forall c, occurs c (pretty_N_go x s) = true -> P c.
Proof.
  intros Hd x. induction (N.lt_wf_0 x) as [x _ IH]. intros s Hs c Hc.
  destruct (N.eq_dec x 0%N) as [->|Hx].
  - rewrite pretty_N_go_0 in Hc. now apply Hs.
  - rewrite pretty_N_go_step in Hc by lia.
    apply (IH (x `div` 10)%N) with (s := String (pretty_N_char (x `mod` 10)) s) (c := c);
      [apply N.div_lt; lia| |exact Hc].
    intros c' Hc'. cbn [occurs] in Hc'. apply orb_true_iff in Hc'. destruct Hc' as [Heq|Hin].
    + apply Ascii.eqb_eq in Heq. subst c'. apply Hd.
    + now apply Hs.
Qed.

Lemma pretty_N_char_numeral (d : N) : numeral_char (pretty_N_char d) = true.
Proof.
  unfold pretty_N_char. destruct d as [|p]; [reflexivity|].
  do 4 (try destruct p as [p|p|]; try reflexivity).
Qed.

(** The characters of [str(n)] are digits and the minus sign. *)
Lemma str_int_chars (n : Z) (c : ascii) :
  occurs c (PyStr.str_int n) = true -> numeral_char c = true.
Proof.
  assert (HN : forall x, occurs c (pretty (N.pos x)) = true -> numeral_char c = true).
  { intros x. unfold pretty, pretty_N. destruct (decide (N.pos x = 0%N)) as [|_]; [lia|].
    apply (pretty_N_go_chars (fun c => numeral_char c = true) pretty_N_char_numeral).
    intros c' H. discriminate H. }
  unfold PyStr.str_int, pretty, pretty_Z. destruct n as [|x|x].
  - intros H. apply (occurs_single c "0"%char) in H. now subst c.
  - apply HN.
  - rewrite occurs_app. intros H. apply orb_true_iff in H. destruct H as [H|H]; [|exact (HN x H)].
    apply (occurs_single c "-"%char) in H. now subst c.
Qed.

Lemma split_at_last (sep : ascii) (g1 : string) :
  forall g2 d1 d2,
  occurs sep d1 = false -> occurs sep d2 = false ->
  g1 +:+ String sep d1 = g2 +:+ String sep d2 -> g1 = g2 /\ d1 = d2.
Proof.
  assert (Hin : forall a b, occurs sep (a +:+ String sep b) = true).
  { intros a b. rewrite occurs_app. cbn [occurs]. rewrite Ascii.eqb_refl.
    now rewrite orb_true_r. }
  induction g1 as [|x g1 IH]; intros [|y g2] d1 d2 H1 H2 Heq.
  - rewrite !StorageFacts.append_nil_l in Heq. injection Heq as ->. now split.
  - rewrite StorageFacts.append_nil_l, StorageFacts.append_cons in Heq.
    injection Heq as _ ->. now rewrite Hin in H1.
  - rewrite StorageFacts.append_nil_l, StorageFacts.append_cons in Heq.
    injection Heq as _ <-. now rewrite Hin in H2.
  - rewrite !StorageFacts.append_cons in Heq. injection Heq as -> Heq.
    destruct (IH g2 d1 d2 H1 H2 Heq) as [-> ->]. now split.
Qed.

Lemma str_int_no_char (n : Z) (c : ascii) :
  numeral_char c = false -> occurs c (PyStr.str_int n) = false.
Proof.
  intros Hc. destruct (occurs c (PyStr.str_int n)) eqn:Ho; [|reflexivity].
  apply str_int_chars in Ho. congruence.
Qed.

Lemma db_layer_name_split (geom_str : string) (idx : Z) :
  _db_layer_name geom_str idx = geom_str +:+ String "_" (PyStr.str_int idx).
Proof. reflexivity. Qed.

Lemma db_layer_name_inj (g1 g2 : string) (i1 i2 : Z) :
  _db_layer_name g1 i1 = _db_layer_name g2 i2 -> g1 = g2 /\ i1 = i2.
Proof.
  intros Heq. rewrite !db_layer_name_split in Heq.
  apply split_at_last in Heq; [|now apply str_int_no_char..].
  destruct Heq as [Hg Hi]. apply (inj PyStr.str_int) in Hi. now split.
Qed.

(** X8. Table names do not collide: two partitions that differ in the
    geometry kind or in the index have different table names, whatever
    characters the kinds are made of. *)
Theorem db_layer_name_distinct (g1 g2 : string) (i1 i2 : Z) :
  g1 <> g2 \/ i1 <> i2 -> _db_layer_name g1 i1 <> _db_layer_name g2 i2.
Proof.
  intros Hne Heq. apply db_layer_name_inj in Heq. tauto.
Qed.

Lemma db_layer_name_distinct_witness :
  _db_layer_name "Point_1" 0 <> _db_layer_name "Point" 10 /\
  _db_layer_name "Point" 1 <> _db_layer_name "Point" 10.
Proof.
  split; apply db_layer_name_distinct; [left|right]; discriminate.
Defined.

Lemma index_negative {A} (l : list A) (i : Z) :
  i < 0 ->
  PyStr.index l i
    = if Z.leb (- Z.of_nat (length l)) i then l !! Z.to_nat (Z.of_nat (length l) + i) else None.
Proof.
  intros Hi. unfold PyStr.index. now destruct (Z.leb_spec 0 i); [lia|].
Qed.

(** X9. For a negative index [has_layer] holds whenever the kind has an
    entry, and is no guard for [get_layer]: an index from [-len] on counts
    from the end of the list, and below [-len], so for every negative index
    when the list is empty, [get_layer] raises [IndexError]. *)
Theorem has_layer_negative_index (self : XYZLayer) (k : string) (i : Z) :
  i < 0 ->
  k ∈ dom (map_vlayer self) ->
  has_layer self k i = true /\
  (- Z.of_nat (length (partitions self k)) <= i ->
     exists v, get_layer self k i = Ok v /\
       partitions self k !! Z.to_nat (Z.of_nat (length (partitions self k)) + i) = Some v) /\
  (i < - Z.of_nat (length (partitions self k)) -> get_layer self k i = Raise IndexError).
Proof.
  intros Hi Hdom. split.
  - unfold has_layer. rewrite bool_decide_eq_true_2 by assumption.
    apply Z.ltb_lt. lia.
  - apply elem_of_dom in Hdom. destruct Hdom as [lst Hl].
    unfold get_layer, partitions. rewrite Hl. simpl.
    rewrite index_negative by assumption. split.
    + intros Hle. destruct (Z.leb_spec (- Z.of_nat (length lst)) i); [|lia].
      destruct (lookup_lt_is_Some_2 lst (Z.to_nat (Z.of_nat (length lst) + i))) as [v Hv];
        [lia|].
      exists v. now rewrite Hv.
    + intros Hlt. now destruct (Z.leb_spec (- Z.of_nat (length lst)) i); [lia|].
Qed.

Lemma has_layer_negative_index_witness :
  has_layer demo_store_failed "Line" (-1) = true /\
  get_layer demo_store_failed "Line" (-1) = Raise IndexError /\
  get_layer demo_store1 "Point" (-1) = Ok (demo_vlayer "Point_0").
Proof.
  destruct (has_layer_negative_index demo_store_failed "Line" (-1)) as (H1 & _ & H3);
    [lia|vm_compute; reflexivity|].
  destruct (has_layer_negative_index demo_store1 "Point" (-1)) as (_ & H2 & _);
    [lia|vm_compute; reflexivity|].
  split; [exact H1|]. split; [apply H3; vm_compute; reflexivity|].
  destruct H2 as (v & Hv & Hl); [vm_compute; discriminate|].
  rewrite Hv. vm_compute in Hl. now injection Hl as <-.
Defined.

Section Registered.
Context {E : Env}.

Lemma same_identity_refl (s : XYZLayer) : same_identity s s.
Proof. repeat split. Qed.

Lemma same_identity_trans (s1 s2 s3 : XYZLayer) :
  same_identity s1 s2 -> same_identity s2 s3 -> same_identity s1 s3.
Proof.
  intros (H1 & H2 & H3 & H4 & H5) (G1 & G2 & G3 & G4 & G5).
  repeat split; congruence.
Qed.

Lemma same_identity_opened_for (s s' : XYZLayer) (k : string) (i : nat) (v : QgsVectorLayer) :
  same_identity s s' -> opened_for s k i v -> opened_for s' k i v.
Proof.
  intros (H1 & H2 & H3 & H4 & H5).
  unfold opened_for, partition_source, _layer_fname, _layer_name, meta_text, tags_suffix.
  now rewrite H1, H3, H4, H5.
Qed.

Lemma add_empty_group_identity (s : XYZLayer) (all_names : list string) :
  same_identity s (snd (add_empty_group s all_names)).
Proof.
  unfold add_empty_group. destruct (qgroups s !! "main"); repeat split.
Qed.

(** What [_init_ext_layer] returns when it returns: the write and then the
    migration have succeeded, and the layer is opened on the table of the kind
    and index. *)
Lemma init_ext_layer_ok (s : XYZLayer) (k : string) (idx : Z) (crs : string) (w w' : W)
    (v : QgsVectorLayer) :
  _init_ext_layer s k idx crs w = (Ok v, w') ->
  let fname := make_fixed_full_path (_layer_fname repr_container s) (ext s) in
  let memory :=
    QgsVectorLayer_new (k +:+ "?crs=" +:+ crs +:+ "&index=yes")
      (_layer_name repr_container s k idx) "memory" w in
  (exists modes w1 done,
     write_partition memory fname (upper (ext s)) (_db_layer_name k idx) w = (Ok tt, modes, w1) /\
     _init_constraint fname (PyStr.quoted QGS_XYZ_ID +:+ " TEXT UNIQUE ON CONFLICT REPLACE")
       (_db_layer_name k idx) w1 = (Ok tt, done, w')) /\
  vl_source v = partition_source s k idx /\
  vl_name v = _layer_name repr_container s k idx /\
  vl_provider v = "ogr" /\
  vl_wkb v = provider_wkb (partition_source s k idx) "ogr" w' /\
  vl_props v = _save_meta_node s ∅.
Proof.
  intros Hcall fname memory. unfold _init_ext_layer in Hcall.
  fold fname memory in Hcall.
  destruct (write_partition memory fname (upper (ext s)) (_db_layer_name k idx) w)
    as [[[[]|e] modes] w1] eqn:Hwrite; [|discriminate Hcall].
  destruct (_init_constraint fname _ (_db_layer_name k idx) w1) as [[[[]|e] done] w2]
    eqn:Hmigrate; [|discriminate Hcall].
  injection Hcall as <- <-.
  split; [exists modes, w1, done; split; [reflexivity|exact Hmigrate]|]. repeat split.
Qed.

(** The outcomes of [add_ext_layer]. *)
Lemma add_ext_layer_cases (s : XYZLayer) (k : string) (idx : Z) (all_names : list string)
    (w : W) :
  same_identity s (snd (fst (add_ext_layer s k idx all_names w))) /\
  match fst (fst (add_ext_layer s k idx all_names w)) with
  | Ok v =>
      _init_ext_layer s k idx crs_wkt w = (Ok v, snd (add_ext_layer s k idx all_names w)) /\
      idx = Z.of_nat (length (partitions s k)) /\
      partitions (snd (fst (add_ext_layer s k idx all_names w))) k = partitions s k ++ [v] /\
      forall k', k' <> k ->
        partitions (snd (fst (add_ext_layer s k idx all_names w))) k' = partitions s k'
  | Raise e =>
      (forall k', partitions (snd (fst (add_ext_layer s k idx all_names w))) k'
                  = partitions s k') /\
      qtree (snd (fst (add_ext_layer s k idx all_names w))) = qtree s /\
      qgroups (snd (fst (add_ext_layer s k idx all_names w))) = qgroups s /\
      snd (add_ext_layer s k idx all_names w) = snd (_init_ext_layer s k idx crs_wkt w) /\
      (fst (_init_ext_layer s k idx crs_wkt w) = Raise e \/
       (exists v, fst (_init_ext_layer s k idx crs_wkt w) = Ok v) /\
       idx <> Z.of_nat (length (partitions s k)) /\
       e = AssertionError "vlayer count mismatch")
  end.
Proof.
  unfold add_ext_layer.
  destruct (_init_ext_layer s k idx crs_wkt w) as [[v|e] w1]; cbn [fst snd].
  2:{ split; [apply same_identity_refl|]. repeat split. now left. }
  destruct (LayerFacts.add_layer_cases s k v idx) as (Hsame & Hok & Hraise).
  destruct (ProvenanceFacts.add_layer_set_map s k v idx) as [m Hm].
  destruct (_add_layer s k v idx) as [[[]|e] s1]; cbn [fst snd] in *.
  - destruct (Z.eq_dec idx (Z.of_nat (length (partitions s k)))) as [Heq|Hne];
      [|destruct (Hraise Hne) as [Hr _]; discriminate Hr].
    destruct (Hok Heq) as (_ & Happ & Hother).
    pose proof (add_empty_group_identity s1 all_names) as Hid.
    pose proof (ProvenanceFacts.add_empty_group_partitions s1 all_names) as Hparts.
    destruct (add_empty_group s1 all_names) as [group s2]. cbn [fst snd] in *.
    assert (Hid1 : same_identity s s1).
    { destruct Hsame as (H1 & H2 & H3 & H4 & H5 & H6 & H7). subst s1. repeat split. }
    destruct (qgroups s2 !! _group_geom_name k) as [g|];
      [|destruct (GEOM_ORDER !! _group_geom_name k)]; cbn [fst snd];
      (split; [apply (same_identity_trans s s1); [exact Hid1|];
               destruct Hid as (H1 & H2 & H3 & H4 & H5); repeat split; assumption|]);
      (split; [reflexivity|]); (split; [exact Heq|]);
      (split; [exact (eq_trans (Hparts k) Happ)
              |intros k' Hk'; exact (eq_trans (Hparts k') (Hother k' Hk'))]).
  - destruct (Z.eq_dec idx (Z.of_nat (length (partitions s k)))) as [Heq|Hne];
      [destruct (Hok Heq) as [Hr _]; discriminate Hr|].
    destruct (Hraise Hne) as [Hr Hp]. injection Hr as ->.
    destruct Hsame as (H1 & H2 & H3 & H4 & H5 & H6 & H7).
    split; [subst s1; repeat split|].
    split; [exact Hp|]. split; [exact H2|]. split; [exact H1|]. split; [reflexivity|].
    right. split; [eauto|]. now split.
Qed.

Lemma partitions_lookup_dom (s : XYZLayer) (k : string) (i : nat) (v : QgsVectorLayer) :
  partitions s k !! i = Some v -> map_vlayer s !! k = Some (partitions s k).
Proof.
  unfold partitions. destruct (map_vlayer s !! k); [reflexivity|discriminate].
Qed.

(** X10. A call of [add_ext_layer] that returns has written the table of the
    kind and index into the file of the store and then migrated it, was given
    the number of partitions of the kind as its index, and has appended the
    layer it returns to the partitions of that kind and of no other, where
    [has_layer] and [get_layer] find it under the index; the layer is opened
    with the OGR provider on that table and carries the provenance of the
    store, and the identity of the store is unchanged. *)
Theorem add_ext_layer_registers (s s' : XYZLayer) (k : string) (idx : Z)
    (all_names : list string) (w w' : W) (v : QgsVectorLayer) :
  add_ext_layer s k idx all_names w = (Ok v, s', w') ->
  let fname := make_fixed_full_path (_layer_fname repr_container s) (ext s) in
  let memory :=
    QgsVectorLayer_new (k +:+ "?crs=" +:+ crs_wkt +:+ "&index=yes")
      (_layer_name repr_container s k idx) "memory" w in
  (exists modes w1 done,
     write_partition memory fname (upper (ext s)) (_db_layer_name k idx) w = (Ok tt, modes, w1) /\
     _init_constraint fname (PyStr.quoted QGS_XYZ_ID +:+ " TEXT UNIQUE ON CONFLICT REPLACE")
       (_db_layer_name k idx) w1 = (Ok tt, done, w')) /\
  idx = Z.of_nat (length (partitions s k)) /\
  partitions s' k = partitions s k ++ [v] /\
  (forall k', k' <> k -> partitions s' k' = partitions s k') /\
  has_layer s' k idx = true /\
  get_layer s' k idx = Ok v /\
  same_identity s s' /\
  opened_for s' k (length (partitions s k)) v /\
  vl_wkb v = provider_wkb (partition_source s k idx) "ogr" w'.
Proof.
  intros Hcall fname memory.
  pose proof (add_ext_layer_cases s k idx all_names w) as [Hid Hcase].
  rewrite Hcall in Hid, Hcase. cbn [fst snd] in Hid, Hcase.
  destruct Hcase as (Hinit & Hidx & Happ & Hother).
  destruct (init_ext_layer_ok s k idx crs_wkt w w' v Hinit)
    as (Hstore & Hsrc & Hname & Hprov & Hwkb & Hprops).
  assert (Hlast : partitions s' k !! length (partitions s k) = Some v).
  { rewrite Happ, lookup_app_r by lia. now rewrite Nat.sub_diag. }
  pose proof (partitions_lookup_dom s' k _ v Hlast) as Hdom.
  split; [exact Hstore|]. split; [exact Hidx|]. split; [exact Happ|].
  split; [exact Hother|]. split; [|split; [|split; [exact Hid|split; [|exact Hwkb]]]].
  - unfold has_layer. rewrite bool_decide_eq_true_2 by (apply elem_of_dom; eauto).
    rewrite Happ, length_app. cbn [length andb]. apply Z.ltb_lt. lia.
  - unfold get_layer. rewrite Hdom, Happ, Hidx.
    now rewrite LayerFacts.index_last.
  - apply (same_identity_opened_for s s' _ _ _ Hid).
    unfold opened_for. rewrite <- Hidx, Hsrc, Hname, Hprov, Hprops.
    repeat split.
Qed.

(** X11. A call of [add_ext_layer] only ever appends: whatever its outcome,
    the store keeps its identity and every kind keeps its partitions as a
    prefix of the new ones.  A call that raises leaves the partitions, the
    groups and the tree as they were.  The index is checked last: a call with
    an index other than the number of partitions of the kind raises, and
    leaves the files as the write and the migration have left them. *)
Theorem add_ext_layer_append_only (s : XYZLayer) (k : string) (idx : Z)
    (all_names : list string) (w : W) :
  let r := add_ext_layer s k idx all_names w in
  same_identity s (snd (fst r)) /\
  (forall k', partitions s k' `prefix_of` partitions (snd (fst r)) k') /\
  (forall e, fst (fst r) = Raise e ->
     (forall k', partitions (snd (fst r)) k' = partitions s k') /\
     qtree (snd (fst r)) = qtree s /\ qgroups (snd (fst r)) = qgroups s) /\
  (idx <> Z.of_nat (length (partitions s k)) ->
     (exists e, fst (fst r) = Raise e) /\
     snd r = snd (_init_ext_layer s k idx crs_wkt w)).
Proof.
  intros r. subst r.
  pose proof (add_ext_layer_cases s k idx all_names w) as [Hid Hcase].
  split; [exact Hid|].
  destruct (fst (fst (add_ext_layer s k idx all_names w))) as [v|e].
  - destruct Hcase as (Hinit & Hidx & Happ & Hother).
    split; [|split; [intros e He; discriminate He|intros Hne; contradiction]].
    intros k'. destruct (decide (k' = k)) as [->|Hk'].
    + rewrite Happ. now apply prefix_app_r.
    + now rewrite Hother.
  - destruct Hcase as (Hparts & Htree & Hgroups & Hfiles & _).
    split; [intros k'; now rewrite Hparts|].
    split; [intros e' _; now split|].
    intros _. split; [eauto|exact Hfiles].
Qed.

Lemma reachable_opened_for (s : XYZLayer) :
  reachable s ->
  forall k i v, partitions s k !! i = Some v -> opened_for s k i v.
Proof.
  induction 1 as [conn m tgs unq name ex now10|s k idx names w _ IH]; intros k' i v' Hl.
  - discriminate Hl.
  - pose proof (add_ext_layer_cases s k idx names w) as [Hid Hcase].
    apply (same_identity_opened_for s _ _ _ _ Hid).
    destruct (fst (fst (add_ext_layer s k idx names w))) as [v|e].
    + destruct Hcase as (Hinit & Hidx & Happ & Hother).
      destruct (decide (k' = k)) as [->|Hk']; [|rewrite (Hother k' Hk') in Hl; now apply IH].
      rewrite Happ in Hl. apply lookup_app_Some in Hl.
      destruct Hl as [Hl|[Hge Hl]]; [now apply IH|].
      destruct (i - length (partitions s k))%nat as [|j] eqn:Hj; [|discriminate Hl].
      injection Hl as <-. assert (i = length (partitions s k)) as -> by lia.
      destruct (init_ext_layer_ok s k idx crs_wkt w _ v Hinit)
        as (_ & Hsrc & Hname & Hprov & _ & Hprops).
      unfold opened_for. rewrite <- Hidx, Hsrc, Hname, Hprov, Hprops.
      repeat split.
    + destruct Hcase as (Hparts & _). rewrite Hparts in Hl. now apply IH.
Qed.

(** X12. In a store built by this code every registered partition is where
    its kind and position say: the layer at position [i] of the kind [k] is
    opened with the OGR provider on the table [k_i] of the file of the store,
    is named after the kind and [i], and carries the token and the tags of the store in its
    properties. *)
Theorem partitions_opened_for (s : XYZLayer) (k : string) (i : nat) (v : QgsVectorLayer) :
  reachable s ->
  partitions s k !! i = Some v ->
  opened_for s k i v.
Proof.
  intros Hreach. exact (reachable_opened_for s Hreach k i v).
Qed.

(** X13. In a store built by this code no two registered partitions share a
    table: partitions registered under different kinds or at different
    positions have different data sources, so no layer is registered twice. *)
Theorem partitions_distinct_tables (s : XYZLayer) (k1 k2 : string) (i1 i2 : nat)
    (v1 v2 : QgsVectorLayer) :
  reachable s ->
  partitions s k1 !! i1 = Some v1 ->
  partitions s k2 !! i2 = Some v2 ->
  k1 <> k2 \/ i1 <> i2 ->
  vl_source v1 <> vl_source v2 /\ v1 <> v2.
Proof.
  intros Hreach H1 H2 Hne.
  destruct (reachable_opened_for s Hreach k1 i1 v1 H1) as (Hs1 & _).
  destruct (reachable_opened_for s Hreach k2 i2 v2 H2) as (Hs2 & _).
  assert (Hsrc : vl_source v1 <> vl_source v2).
  { rewrite Hs1, Hs2. unfold partition_source. intros Heq.
    apply (inj (String.append _)) in Heq. apply (inj (String.append _)) in Heq.
    apply db_layer_name_inj in Heq. destruct Heq as [Hk Hi].
    destruct Hne as [Hne|Hne]; [contradiction|lia]. }
  split; [exact Hsrc|]. intros ->. now apply Hsrc.
Qed.

End Registered.

Lemma add_ext_layer_registers_witness :
  get_layer demo_added1 "Point" 0
    = Ok (returned (@add_ext_layer demo_env_gpkg demo_store "Point" 0 [] ∅)) /\
  vl_source (returned (@add_ext_layer demo_env_gpkg demo_store "Point" 0 [] ∅))
    = "/data/abc_a_b_15710.gpkg|layername=Point_0".
Proof.
  destruct (@add_ext_layer_registers demo_env_gpkg demo_store demo_added1 "Point" 0 [] ∅
              demo_files1 (returned (@add_ext_layer demo_env_gpkg demo_store "Point" 0 [] ∅)))
    as (_ & _ & _ & _ & _ & Hget & _ & (Hsrc & _) & _); [vm_compute; reflexivity|].
  split; [exact Hget|]. rewrite Hsrc. vm_compute. reflexivity.
Defined.

Lemma add_ext_layer_append_only_witness :
  (exists e, fst (fst (@add_ext_layer demo_env_gpkg demo_added1 "Point" 3 [] demo_files1))
             = Raise e) /\
  partitions (snd (fst (@add_ext_layer demo_env_gpkg demo_added1 "Point" 3 [] demo_files1)))
    "Point" = partitions demo_added1 "Point".
Proof.
  destruct (@add_ext_layer_append_only demo_env_gpkg demo_added1 "Point" 3 [] demo_files1)
    as (_ & _ & Hraise & Hidx).
  destruct Hidx as [[e He] _]; [vm_compute; discriminate|].
  split; [exists e; exact He|].
  destruct (Hraise e He) as (Hparts & _). apply Hparts.
Defined.

Lemma partitions_opened_for_witness :
  exists v,
    partitions demo_added3 "Point" !! 1%nat = Some v /\
    vl_source v = "/data/abc_a_b_15710.gpkg|layername=Point_1" /\ vl_provider v = "ogr".
Proof.
  exists (returned (@add_ext_layer demo_env_gpkg demo_added2 "Point" 1 [] demo_files2)).
  assert (Hv : partitions demo_added3 "Point" !! 1%nat
               = Some (returned (@add_ext_layer demo_env_gpkg demo_added2 "Point" 1 []
                                   demo_files2)))
    by (vm_compute; reflexivity).
  split; [exact Hv|].
  destruct (@partitions_opened_for demo_env_gpkg demo_added3 "Point" 1 _
              ProvenanceFacts.demo_added3_reachable Hv) as (Hsrc & _ & Hprov & _).
  split; [rewrite Hsrc; vm_compute; reflexivity|exact Hprov].
Defined.

Lemma partitions_distinct_tables_witness :
  exists v1 v2,
    partitions demo_added3 "Point" !! 0%nat = Some v1 /\
    partitions demo_added3 "Point" !! 1%nat = Some v2 /\
    vl_source v1 <> vl_source v2.
Proof.
  exists (returned (@add_ext_layer demo_env_gpkg demo_store "Point" 0 [] ∅)),
         (returned (@add_ext_layer demo_env_gpkg demo_added2 "Point" 1 [] demo_files2)).
  assert (H1 : partitions demo_added3 "Point" !! 0%nat
               = Some (returned (@add_ext_layer demo_env_gpkg demo_store "Point" 0 [] ∅)))
    by (vm_compute; reflexivity).
  assert (H2 : partitions demo_added3 "Point" !! 1%nat
               = Some (returned (@add_ext_layer demo_env_gpkg demo_added2 "Point" 1 []
                                   demo_files2)))
    by (vm_compute; reflexivity).
  split; [exact H1|]. split; [exact H2|].
  destruct (@partitions_distinct_tables demo_env_gpkg demo_added3 "Point" "Point" 0 1 _ _
              ProvenanceFacts.demo_added3_reachable H1 H2) as [Hsrc _];
    [right; discriminate|exact Hsrc].
Defined.

End PartitionFacts.

(** ** The registries of a store and its layer tree *)

Module TreeFacts.
Import Models Layer Demo.

Section WithEnv.
Context {E : Env}.

Lemma all_layers_findLayers (view : list child) :
  flat_map findLayers (map child_node view) = all_layers view.
Proof.
  unfold all_layers. induction view as [|c view IH]; [reflexivity|].
  cbn [map flat_map]. now rewrite IH, ProvenanceFacts.findLayers_child.
Qed.

Lemma node_name_child (view : list child) :
  map node_name (map child_node view) = map c_name view.
Proof. rewrite map_map. now apply map_ext. Qed.

Lemma add_ext_layer_map_fields (s : XYZLayer) (k : string) (idx : Z)
    (all_names : list string) (w : W) :
  map_fields (snd (fst (add_ext_layer s k idx all_names w))) = map_fields s.
Proof.
  unfold add_ext_layer.
  destruct (_init_ext_layer s k idx crs_wkt w) as [[v|e] w1]; [|reflexivity].
  destruct (ProvenanceFacts.add_layer_set_map s k v idx) as [m Hm].
  destruct (_add_layer s k v idx) as [[[]|e] s1]; cbn [fst snd] in *; subst s1;
    [|reflexivity].
  rewrite ProvenanceFacts.add_empty_group_set_map.
  unfold add_empty_group. destruct (qgroups s !! "main") as [g|]; cbn [fst snd];
    match goal with
    | |- context [match ?x with Some _ => _ | None => _ end] => destruct x
    end; try reflexivity;
    match goal with
    | |- context [match ?x with Some _ => _ | None => _ end] => destruct x
    end; reflexivity.
Qed.

Lemma reachable_map_fields (s : XYZLayer) : reachable s -> map_fields s = ∅.
Proof.
  induction 1 as [|s k idx names w _ IH]; [reflexivity|].
  now rewrite add_ext_layer_map_fields.
Qed.

(** The partitions of a store are those of the store it was grown from, and
    the layer that the last call returned. *)
Lemma kinds_reported_before (s : XYZLayer) (k : string) (idx : Z) (all_names : list string)
    (w : W) :
  kinds_reported (snd (fst (add_ext_layer s k idx all_names w))) ->
  kinds_reported s /\
  forall v, fst (fst (add_ext_layer s k idx all_names w)) = Ok v ->
            vl_wkb v = k /\ _group_geom_name k <> "main".
Proof.
  intros Hkinds.
  pose proof (PartitionFacts.add_ext_layer_cases s k idx all_names w) as [_ Hcase].
  destruct (fst (fst (add_ext_layer s k idx all_names w))) as [v|e].
  - destruct Hcase as (_ & _ & Happ & Hother). split.
    + intros k' v' Hv'. apply Hkinds.
      destruct (decide (k' = k)) as [->|Hk']; [|now rewrite (Hother k' Hk')].
      rewrite Happ. apply elem_of_app. now left.
    + intros v0 [= <-]. apply Hkinds. rewrite Happ. apply elem_of_app. right.
      now apply list_elem_of_singleton.
  - destruct Hcase as (Hparts & _). split; [|intros v H; discriminate H].
    intros k' v' Hv'. apply Hkinds. now rewrite Hparts.
Qed.

(** Every call of [add_ext_layer] keeps the agreement of the store with its
    display groups, as long as the layers report the kinds they are
    registered under. *)
Lemma reachable_inv (s : XYZLayer) : reachable s -> kinds_reported s -> inv s.
Proof.
  induction 1 as [conn m tgs unq name ex now10|s k idx names w _ IH]; intros Hkinds.
  - apply ProvenanceFacts.inv_init.
  - destruct (kinds_reported_before s k idx names w Hkinds) as [Hs Hv].
    destruct (add_ext_layer s k idx names w) as [[r s'] w'] eqn:Hadd.
    cbn [fst snd] in *.
    apply (ProvenanceFacts.inv_step s s' k idx names w w' r (IH Hs) Hadd).
    intros v ->. now apply Hv.
Qed.

(** X14. In a store built by this code [get_map_fields] is empty, since
    [add_ext_layer] never records the fields of a layer.  When moreover every
    partition is registered under the kind that the data provider reports for
    its layer, and the display group of no such kind is called [main], the
    registries agree with the layer tree.  Before the first partition there
    is no main group, no display group and no partition.  Afterwards
    [qgroups] holds the main group under [main] and each display group under
    its name, and nothing else; the display groups have distinct names, none
    of them [main]; every layer sits in the display group named after the
    geometry of its kind; and the partitions of a kind are the layers of that
    kind below the display groups, in display order. *)
Theorem registries_agree_with_tree (s : XYZLayer) :
  reachable s ->
  get_map_fields s = ∅ /\
  (kinds_reported s ->
   match qtree s with
   | None => qgroups s = ∅ /\ forall k, partitions s k = []
   | Some q =>
       (exists mid nm pr ch, q = QGroup mid nm pr ch /\ qgroups s !! "main" = Some mid) /\
       (forall k, partitions s k = of_kind k (flat_map findLayers (findGroups q))) /\
       NoDup (map node_name (findGroups q)) /\
       (forall g, g ∈ findGroups q ->
          node_name g <> "main" /\
          exists gid ch, g = QGroup gid (node_name g) ∅ ch /\
                         qgroups s !! node_name g = Some gid) /\
       (forall name, is_Some (qgroups s !! name) ->
          name = "main" \/ name ∈ map node_name (findGroups q)) /\
       (forall g v, g ∈ findGroups q -> v ∈ findLayers g ->
          _group_geom_name (vl_wkb v) = node_name g)
   end).
Proof.
  intros Hreach. split; [exact (reachable_map_fields s Hreach)|]. intros Hkinds.
  pose proof (reachable_inv s Hreach Hkinds) as Hinv. unfold inv in Hinv.
  destruct (qtree s) as [q|]; [|exact Hinv].
  destruct Hinv as (mid & nm & pr & view & -> & Hok).
  rewrite ProvenanceFacts.findGroups_tree_of, all_layers_findLayers, node_name_child.
  split; [exists mid, nm, pr, (map child_node view); split;
          [reflexivity|exact (vo_main _ _ _ Hok)]|].
  split; [exact (vo_parts _ _ _ Hok)|]. split; [exact (vo_names _ _ _ Hok)|].
  split; [|split].
  - intros g Hg. apply list_elem_of_fmap in Hg. destruct Hg as (c & -> & Hc).
    destruct (vo_keys _ _ _ Hok c Hc) as [Hmain Hkey].
    split; [exact Hmain|]. exists (c_id c), (map QLayerNode (c_layers c)).
    split; [reflexivity|exact Hkey].
  - intros name [gid Hgid]. destruct (decide (name = "main")) as [->|Hne]; [now left|].
    right. destruct (vo_keys_inv _ _ _ Hok name gid Hgid Hne) as (c & Hc & Hname & _).
    apply list_elem_of_fmap. exists c. split; [now symmetry|exact Hc].
  - intros g v Hg Hv. apply list_elem_of_fmap in Hg. destruct Hg as (c & -> & Hc).
    rewrite ProvenanceFacts.findLayers_child in Hv.
    exact (vo_group _ _ _ Hok c v Hc Hv).
Qed.

Lemma findGroups_groups (node : qnode) :
  Forall (fun g => is_group g = true) (findGroups node).
Proof.
  destruct node as [id nm pr children|v]; [|constructor].
  apply List.Forall_forall. intros g Hg. apply List.filter_In in Hg. tauto.
Qed.

Lemma fold_load_groups (gs : list qnode) :
  Forall (fun g => is_group g = true) gs ->
  forall acc,
  snd (foldl load_group acc gs) = foldl load_vlayer (snd acc) (flat_map findLayers gs).
Proof.
  induction 1 as [|g gs Hg _ IH]; intros acc; [reflexivity|].
  cbn [foldl flat_map]. rewrite IH, foldl_app. f_equal.
  destruct g as [id nm pr children|v]; [reflexivity|discriminate Hg].
Qed.

Lemma fold_load_main (gs : list qnode) :
  (forall g, g ∈ gs -> node_name g <> "main") ->
  forall acc, fst (foldl load_group acc gs) !! "main" = fst acc !! "main".
Proof.
  induction gs as [|g gs IH]; intros Hgs acc; [reflexivity|].
  cbn [foldl]. rewrite IH by (intros g' Hg'; apply Hgs; now right).
  assert (Hg : node_name g <> "main") by (apply Hgs; now left).
  destruct g as [id nm pr children|v]; [|reflexivity].
  cbn [load_group fst]. now rewrite lookup_insert_ne.
Qed.

Lemma fold_load_fields (l : list QgsVectorLayer) :
  forall acc k,
  default [] (snd (foldl load_vlayer acc l) !! k)
    = default [] (snd acc !! k) ++ map vl_fields (of_kind k l).
Proof.
  induction l as [|v l IH]; intros acc k.
  - simpl. now rewrite app_nil_r.
  - cbn [foldl]. rewrite IH. unfold load_vlayer. cbn [snd].
    rewrite ProvenanceFacts.setdefault_append_lookup, <- app_assoc. f_equal.
    unfold of_kind. cbn [List.filter].
    now destruct (String.eqb (vl_wkb v) k).
Qed.

(** What [load_from_qnode] makes of a group whose two documents decode. *)
Lemma load_group_node (id : nat) (name : string) (props : gmap string qvariant)
    (children : list qnode) (now10 : Z) (meta_doc conn_doc : json)
    (conn : SpaceConnectionInfo) :
  let node := QGroup id name props children in
  loads_property props "xyz-hub" = Ok meta_doc ->
  loads_property props "xyz-hub-conn" = Ok conn_doc ->
  from_dict conn_doc = Some conn ->
  exists obj,
    load_from_qnode node now10 = Ok obj /\
    ld_meta obj = meta_doc /\ ld_conn_info obj = conn /\
    ld_tags obj = props !! "xyz-hub-tags" /\
    ld_unique obj = unique_or_property (props !! "xyz-hub-id") now10 /\
    ld_group_name obj = name /\ ld_ext obj = "gpkg" /\ ld_qtree obj = Some node /\
    (forall k, ld_partitions obj k = of_kind k (flat_map findLayers (findGroups node))) /\
    (forall k, default [] (ld_map_fields obj !! k) = map vl_fields (ld_partitions obj k)) /\
    ((forall g, g ∈ findGroups node -> node_name g <> "main") ->
       ld_qgroups obj !! "main" = Some id).
Proof.
  intros node Hmeta Hconn Hfrom. unfold node at 1, load_from_qnode.
  cbn [node_props node_name]. rewrite Hmeta, Hconn, Hfrom. fold node.
  pose proof (fold_load_groups (findGroups node) (findGroups_groups node)
                (<["main" := id]> ∅, (∅, ∅))) as Hfold.
  pose proof (fun Hg => fold_load_main (findGroups node) Hg
                (<["main" := id]> ∅, (∅, ∅))) as Hmain.
  destruct (foldl load_group _ (findGroups node)) as [groups [vlayers fields]].
  cbn [fst snd] in Hfold, Hmain.
  eexists. split; [reflexivity|]. cbn [ld_meta ld_conn_info ld_tags ld_unique ld_group_name
                                      ld_ext ld_qtree ld_qgroups ld_map_fields].
  do 7 (split; [reflexivity|]).
  assert (Hparts : forall k,
    default [] (vlayers !! k) = of_kind k (flat_map findLayers (findGroups node))).
  { intros k.
    pose proof (ProvenanceFacts.fold_load_vlayer
                  (flat_map findLayers (findGroups node)) (∅, ∅) k) as Hk.
    rewrite <- Hfold in Hk. cbn [fst] in Hk. rewrite Hk. now rewrite lookup_empty. }
  split; [exact Hparts|]. split.
  - intros k. unfold ld_partitions. cbn [ld_map_vlayer]. rewrite Hparts.
    pose proof (fold_load_fields (flat_map findLayers (findGroups node)) (∅, ∅) k) as Hk.
    rewrite <- Hfold in Hk. cbn [snd] in Hk. rewrite Hk. now rewrite lookup_empty.
  - intros Hg. rewrite (Hmain Hg). now rewrite lookup_insert_eq.
Qed.


(** X22. The round trip of the provenance.  Take a store built by this code
    whose token is not zero, in which every partition is registered under the
    kind that the data provider reports for its layer and the display group
    of no such kind is called [main].  Saving its provenance with
    [_save_meta_node] into its main group, whatever name and properties the
    group has by then, and loading the group with [load_from_qnode] gives a
    store with the same space metadata, connection descriptor, tags and token,
    hence the same file name, and with the same list of partitions, in the
    same order, for every geometry kind.  The JSON codec is taken to give
    back the two documents that are saved. *)
Theorem save_load_roundtrip_reported (s : XYZLayer) (id : nat) (nm nm' : string)
    (pr0 pr : gmap string qvariant) (children : list qnode) (now10 : Z) :
  reachable s ->
  kinds_reported s ->
  unique s <> 0 ->
  qtree s = Some (QGroup id nm pr0 children) ->
  json_loads (json_dumps (JObj (meta s))) = Some (JObj (meta s)) ->
  json_loads (json_dumps (to_dict (conn_info s))) = Some (to_dict (conn_info s)) ->
  exists obj s',
    load_from_qnode (save_to_node s (QGroup id nm' pr children)) now10 = Ok obj /\
    as_XYZLayer obj = Some s' /\
    meta s' = meta s /\ conn_info s' = conn_info s /\ tags s' = tags s /\
    unique s' = unique s /\
    _layer_fname repr_container s' = _layer_fname repr_container s /\
    forall k, partitions s' k = partitions s k.
Proof.
  intros Hreach Hkinds Hu Htree Hmeta Hconn.
  pose proof (reachable_inv s Hreach Hkinds) as Hinv. unfold inv in Hinv.
  rewrite Htree in Hinv. destruct Hinv as (mid & nm0 & pr1 & view & Heq & Hok).
  unfold tree_of in Heq. injection Heq as -> -> -> ->.
  cbn [save_to_node].
  destruct (load_group_node mid nm' (_save_meta_node s pr) (map child_node view) now10
              (JObj (meta s)) (to_dict (conn_info s)) (conn_info s))
    as (obj & Hload & Hm & Hc & Ht & Hun & Hn & He & Hq & Hp & _).
  { unfold loads_property, _save_meta_node.
    rewrite !lookup_insert_ne by discriminate. now rewrite lookup_insert_eq, Hmeta. }
  { unfold loads_property, _save_meta_node.
    rewrite !lookup_insert_ne by discriminate. now rewrite lookup_insert_eq, Hconn. }
  { apply ModelsFacts.from_dict_to_dict. }
  assert (Htags : ld_tags obj = Some (QvStr (tags s))).
  { rewrite Ht. unfold _save_meta_node.
    rewrite lookup_insert_ne by discriminate. now rewrite lookup_insert_eq. }
  assert (Huniq : ld_unique obj = QvInt (unique s)).
  { rewrite Hun. unfold _save_meta_node, get_id. rewrite lookup_insert_eq.
    cbn [unique_or_property]. now destruct (Z.eqb_spec (unique s) 0). }
  exists obj. unfold as_XYZLayer. rewrite Hm, Htags, Huniq.
  eexists. split; [exact Hload|]. split; [reflexivity|].
  cbn [meta conn_info tags unique]. split; [reflexivity|]. split; [exact Hc|].
  split; [reflexivity|]. split; [reflexivity|]. split.
  - unfold _layer_fname, meta_text. reflexivity.
  - intros k. unfold partitions at 1. cbn [map_vlayer].
    fold (ld_partitions obj k). rewrite Hp.
    change (findGroups (QGroup mid nm' (_save_meta_node s pr) (map child_node view)))
      with (findGroups (tree_of mid nm' (_save_meta_node s pr) view)).
    rewrite ProvenanceFacts.findGroups_tree_of, all_layers_findLayers.
    symmetry. apply (vo_parts _ _ _ Hok).
Qed.

Lemma startswith_refl (s : string) : PyStr.startswith s s = true.
Proof.
  induction s as [|c s IH]; [reflexivity|]. cbn [PyStr.startswith].
  now rewrite Ascii.eqb_refl.
Qed.

Lemma startswith_append (a b : string) : PyStr.startswith a (a +:+ b) = true.
Proof.
  induction a as [|c a IH]; [reflexivity|].
  rewrite StorageFacts.append_cons. cbn [PyStr.startswith].
  now rewrite Ascii.eqb_refl.
Qed.

(** X16. [add_empty_group] makes the main group once.  A store that has its
    main group is returned it and is left as it is, so a second call changes
    nothing, whatever the names in the project are by then.  A store without
    one gets a new, empty group that carries the provenance of the store,
    registered under [main] and named after the store: with the plain name
    when no group of the project has a name that starts with it, so that the
    name is new, and otherwise with the plain name followed by the number of
    such groups.  The partitions and the identity of the store are kept. *)
Theorem add_empty_group_once (s : XYZLayer) (all_names later_names : list string) :
  let base := _make_group_name repr_container s None in
  let dupes := List.filter (PyStr.startswith base) all_names in
  let r := add_empty_group s all_names in
  add_empty_group (snd r) later_names = r /\
  qgroups (snd r) !! "main" = Some (fst r) /\
  same_identity s (snd r) /\
  (forall k, partitions (snd r) k = partitions s k) /\
  (forall g, qgroups s !! "main" = Some g -> r = (g, s)) /\
  (qgroups s !! "main" = None ->
     qtree (snd r) = Some (QGroup (fst r) (get_name (snd r)) (_save_meta_node s ∅) []) /\
     PyStr.startswith base (get_name (snd r)) = true /\
     (dupes = [] -> get_name (snd r) = base /\ get_name (snd r) ∉ all_names) /\
     (dupes <> [] ->
        get_name (snd r) = base +:+ "-" +:+ PyStr.str_int (Z.of_nat (length dupes)))).
Proof.
  intros base dupes r.
  assert (Hr : r = match qgroups s !! "main" with
                   | Some g => (g, s)
                   | None =>
                       let name := if Nat.eqb (length dupes) 0 then base
                                   else _make_group_name repr_container s (Some (length dupes)) in
                       (fresh_id (qtree s),
                        set_tree s name (<["main" := fresh_id (qtree s)]> (qgroups s))
                          (Some (QGroup (fresh_id (qtree s)) name (_save_meta_node s ∅) [])))
                   end) by reflexivity.
  clearbody r. subst r.
  destruct (qgroups s !! "main") as [g|] eqn:Hmain; cbn [fst snd].
  - split; [unfold add_empty_group; now rewrite Hmain|].
    split; [exact Hmain|]. split; [apply PartitionFacts.same_identity_refl|].
    split; [reflexivity|]. split; [now intros g' [= <-]|]. intros H. discriminate H.
  - split; [unfold add_empty_group; cbn [qgroups set_tree]; now rewrite lookup_insert_eq|].
    cbn [qgroups set_tree]. split; [now rewrite lookup_insert_eq|].
    split; [repeat split|]. split; [reflexivity|]. split; [intros g H; discriminate H|].
    intros _. cbn [qtree get_name _group_name].
    split; [reflexivity|].
    destruct dupes as [|d dupes'] eqn:Hd; cbn [length Nat.eqb].
    + split; [apply startswith_refl|]. split; [|intros H; now contradiction H].
      intros _. split; [reflexivity|]. intros Hin.
      assert (Hf : base ∈ List.filter (PyStr.startswith base) all_names).
      { apply list_elem_of_In, List.filter_In. split; [now apply list_elem_of_In|].
        apply startswith_refl. }
      fold dupes in Hf. rewrite Hd in Hf. now apply not_elem_of_nil in Hf.
    + assert (Hname : _make_group_name repr_container s (Some (S (length dupes')))
                      = base +:+ "-" +:+ PyStr.str_int (Z.of_nat (S (length dupes')))).
      { unfold base, _make_group_name. now rewrite !StorageFacts.append_assoc. }
      rewrite Hname.
      split; [apply startswith_append|]. split; [intros H; discriminate H|].
      intros _. reflexivity.
Qed.

(** X17. [_save_meta_node] writes the four provenance properties and no
    other: every other property of the node is kept.  A later save replaces
    an earlier one altogether, so saving twice is saving once, and the node
    then reads the token and the tags of the store that saved last. *)
Theorem save_meta_node_last_wins (s1 s2 : XYZLayer) (props : gmap string qvariant) :
  _save_meta_node s2 (_save_meta_node s1 props) = _save_meta_node s2 props /\
  _save_meta_node s1 (_save_meta_node s1 props) = _save_meta_node s1 props /\
  (forall key, key ∉ ["xyz-hub"; "xyz-hub-conn"; "xyz-hub-tags"; "xyz-hub-id"] ->
     _save_meta_node s1 props !! key = props !! key) /\
  _save_meta_node s2 (_save_meta_node s1 props) !! "xyz-hub-id" = Some (QvInt (get_id s2)) /\
  _save_meta_node s2 (_save_meta_node s1 props) !! "xyz-hub-tags" = Some (QvStr (tags s2)).
Proof.
  assert (Hwins : forall a b, _save_meta_node a (_save_meta_node b props)
                              = _save_meta_node a props).
  { intros a b. apply map_eq. intros key. unfold _save_meta_node.
    destruct (decide (key = "xyz-hub-id")) as [->|H1]; [now rewrite !lookup_insert_eq|].
    rewrite !(lookup_insert_ne _ "xyz-hub-id") by (intros Heq; now apply H1).
    destruct (decide (key = "xyz-hub-tags")) as [->|H2]; [now rewrite !lookup_insert_eq|].
    rewrite !(lookup_insert_ne _ "xyz-hub-tags") by (intros Heq; now apply H2).
    destruct (decide (key = "xyz-hub-conn")) as [->|H3]; [now rewrite !lookup_insert_eq|].
    rewrite !(lookup_insert_ne _ "xyz-hub-conn") by (intros Heq; now apply H3).
    destruct (decide (key = "xyz-hub")) as [->|H4]; [now rewrite !lookup_insert_eq|].
    rewrite !(lookup_insert_ne _ "xyz-hub") by (intros Heq; now apply H4).
    rewrite !(lookup_insert_ne _ "xyz-hub-id") by (intros Heq; now apply H1).
    rewrite !(lookup_insert_ne _ "xyz-hub-tags") by (intros Heq; now apply H2).
    rewrite !(lookup_insert_ne _ "xyz-hub-conn") by (intros Heq; now apply H3).
    now rewrite !(lookup_insert_ne _ "xyz-hub") by (intros Heq; now apply H4). }
  split; [apply Hwins|]. split; [apply Hwins|]. split.
  - intros key Hkey. unfold _save_meta_node.
    rewrite !lookup_insert_ne; [reflexivity|..]; intros <-; apply Hkey;
      repeat ((by left) || right).
  - rewrite Hwins. unfold _save_meta_node. split; [now rewrite lookup_insert_eq|].
    rewrite lookup_insert_ne by discriminate. now rewrite lookup_insert_eq.
Qed.

End WithEnv.


Lemma add_empty_group_once_witness :
  get_name (snd (@add_empty_group demo_env_gpkg demo_store ["roads-abc-(a,b)"; "other"]))
    = "roads-abc-(a,b)-1" /\
  get_name (snd (@add_empty_group demo_env_gpkg demo_store ["other"])) = "roads-abc-(a,b)".
Proof.
  destruct (@add_empty_group_once demo_env_gpkg demo_store ["roads-abc-(a,b)"; "other"] [])
    as (_ & _ & _ & _ & _ & H1).
  destruct (@add_empty_group_once demo_env_gpkg demo_store ["other"] [])
    as (_ & _ & _ & _ & _ & H2).
  destruct H1 as (_ & _ & _ & H1); [reflexivity|].
  destruct H2 as (_ & _ & H2 & _); [reflexivity|].
  split.
  - rewrite H1; [vm_compute; reflexivity|vm_compute; discriminate].
  - destruct H2 as [H2 _]; [vm_compute; reflexivity|]. rewrite H2. vm_compute. reflexivity.
Defined.

Lemma save_meta_node_last_wins_witness :
  @_save_meta_node demo_env_gpkg demo_store_x demo_loose_tree_props !! "xyz-hub-id"
    = Some (QvInt 15712).
Proof.
  destruct (@save_meta_node_last_wins demo_env_gpkg demo_store demo_store_x ∅)
    as (_ & _ & _ & H & _).
  exact H.
Defined.

Lemma demo_added3_kinds : @kinds_reported demo_env_gpkg demo_added3.
Proof.
  intros k v Hv. unfold partitions in Hv.
  assert (Hm : map_vlayer demo_added3
               = {[ "Point" := [returned (@add_ext_layer demo_env_gpkg demo_store "Point" 0 [] ∅);
                                returned (@add_ext_layer demo_env_gpkg demo_added2 "Point" 1 []
                                            demo_files2)];
                    "LineString" := [returned (@add_ext_layer demo_env_gpkg demo_added1
                                                 "LineString" 0 [] demo_files1)] ]})
    by (vm_compute; reflexivity).
  rewrite Hm in Hv. clear Hm.
  destruct (decide (k = "Point")) as [->|HP].
  { rewrite lookup_insert_eq in Hv. cbn [default] in Hv.
    apply elem_of_cons in Hv. destruct Hv as [->|Hv];
      [split; [vm_compute; reflexivity|vm_compute; discriminate]|].
    apply list_elem_of_singleton in Hv. subst v.
    split; [vm_compute; reflexivity|vm_compute; discriminate]. }
  rewrite lookup_insert_ne in Hv by congruence.
  destruct (decide (k = "LineString")) as [->|HL].
  { rewrite lookup_singleton_eq in Hv. cbn [default] in Hv.
    apply list_elem_of_singleton in Hv. subst v.
    split; [vm_compute; reflexivity|vm_compute; discriminate]. }
  rewrite lookup_singleton_ne in Hv by congruence.
  now apply not_elem_of_nil in Hv.
Qed.

Lemma registries_agree_with_tree_witness :
  partitions demo_added3 "Point" = of_kind "Point" (flat_map findLayers (findGroups demo_tree3)) /\
  length (partitions demo_added3 "Point") = 2%nat.
Proof.
  pose proof (@registries_agree_with_tree demo_env_gpkg demo_added3
                ProvenanceFacts.demo_added3_reachable) as [_ H].
  specialize (H demo_added3_kinds).
  change (qtree demo_added3) with (Some demo_tree3) in H.
  destruct H as (_ & Hparts & _).
  split; [exact (Hparts "Point")|vm_compute; reflexivity].
Defined.

Lemma save_load_roundtrip_reported_witness :
  exists obj s',
    @load_from_qnode demo_env_gpkg
      (@save_to_node demo_env_gpkg demo_added3
         (QGroup (group_id demo_tree3) "renamed" ∅ (group_children demo_tree3))) 7 = Ok obj /\
    as_XYZLayer obj = Some s' /\
    unique s' = 15710 /\
    _layer_fname (@repr_container demo_env_gpkg) s' = "abc_a_b_15710" /\
    length (partitions s' "Point") = 2%nat /\
    length (partitions s' "LineString") = 1%nat.
Proof.
  destruct (@save_load_roundtrip_reported demo_env_gpkg demo_added3 (group_id demo_tree3)
              (node_name demo_tree3) "renamed" (node_props demo_tree3) ∅
              (group_children demo_tree3) 7
              ProvenanceFacts.demo_added3_reachable demo_added3_kinds)
    as (obj & s' & Hload & Has & _ & _ & _ & Hu & Hf & Hp);
    [vm_compute; discriminate | vm_compute; reflexivity | vm_compute; reflexivity
    | vm_compute; reflexivity |].
  exists obj, s'. split; [exact Hload|]. split; [exact Has|].
  split; [rewrite Hu; reflexivity|].
  split; [rewrite Hf; vm_compute; reflexivity|].
  rewrite !Hp. split; vm_compute; reflexivity.
Defined.

(** C4. A store with a partition of the empty kind, the kind of features
    without geometry, does not come back from the round trip: the layer of
    the partition reports the kind [NoGeometry], and the store loaded from the
    saved main group has the same identity but holds the partition under
    [NoGeometry] and none under the empty kind, where [has_layer] found it
    before. *)
Theorem falsy_kind_rekeyed_on_reload :
  @reachable demo_env_nogeom demo_nogeom_added /\
  length (partitions demo_nogeom_added "") = 1%nat /\
  partitions demo_nogeom_added "NoGeometry" = [] /\
  has_layer demo_nogeom_added "" 0 = true /\
  exists obj s',
    demo_nogeom_loaded = Ok obj /\ as_XYZLayer obj = Some s' /\
    meta s' = meta demo_nogeom_added /\ conn_info s' = conn_info demo_nogeom_added /\
    tags s' = tags demo_nogeom_added /\ unique s' = unique demo_nogeom_added /\
    partitions s' "" = [] /\
    partitions s' "NoGeometry" = partitions demo_nogeom_added "" /\
    partitions s' "" <> partitions demo_nogeom_added "" /\
    has_layer s' "" 0 = false.
Proof.
  split; [unfold demo_nogeom_added, demo_store; apply (@reach_add demo_env_nogeom);
          apply (@reach_init demo_env_nogeom)|].
  split; [vm_compute; reflexivity|]. split; [vm_compute; reflexivity|].
  split; [vm_compute; reflexivity|].
  destruct demo_nogeom_loaded as [obj|e] eqn:Hload; [|vm_compute in Hload; discriminate Hload].
  destruct (as_XYZLayer obj) as [s'|] eqn:Has.
  2:{ vm_compute in Hload. injection Hload as <-. vm_compute in Has. discriminate Has. }
  exists obj, s'. split; [reflexivity|]. split; [exact Has|].
  vm_compute in Hload. injection Hload as <-. vm_compute in Has. injection Has as <-.
  repeat split; try (vm_compute; reflexivity).
  intros H. vm_compute in H. discriminate H.
Qed.

End TreeFacts.

(** ** The connection of the migration, and the file name *)

Module MigrationFacts.
Import Models Layer Demo.

Section WithEnv.
Context {E : Env}.

Lemma dispatch_not_close (l : list string) : Close ∉ map dispatch l.
Proof.
  intros Hin. apply list_elem_of_fmap in Hin. destruct Hin as (s & Hs & _).
  unfold dispatch in Hs. destruct (PyStr.contains "COMMIT" s); discriminate Hs.
Qed.

(** The loop never closes the connection. *)
Lemma run_statements_no_close (fname : string) (lst : list (option string)) :
  forall w, Close ∉ snd (fst (run_statements fname lst w)).
Proof.
  induction lst as [|[s|] lst IH]; intros w; cbn [run_statements];
    [apply not_elem_of_nil| |apply not_elem_of_nil].
  destruct (sqlite_step fname (dispatch s) w) as [w1|]; [|apply not_elem_of_nil].
  specialize (IH w1). destruct (run_statements fname lst w1) as [[r done] w2].
  cbn [fst snd] in *. apply not_elem_of_cons. split; [|exact IH].
  unfold dispatch. destruct (PyStr.contains "COMMIT" s); discriminate.
Qed.

(** With an engine that raises on no action, the loop stops at the first
    statement that is [None], with the statements in front of it done. *)
Lemma run_statements_until_none (fname : string) (l : list string)
    (rest : list (option string)) :
  (forall a w', is_Some (sqlite_step fname a w')) ->
  forall w,
  fst (run_statements fname (map Some l ++ None :: rest) w) = (Raise TypeError, map dispatch l).
Proof.
  intros Hacc. induction l as [|s l IH]; intros w; [reflexivity|].
  cbn [map app run_statements]. destruct (Hacc (dispatch s) w) as [w1 ->].
  specialize (IH w1). destruct (run_statements fname _ w1) as [[r done] w2].
  cbn [fst] in *. now injection IH as -> ->.
Qed.

(** X18. [_init_constraint] closes the connection exactly when it returns:
    whatever the catalogue holds, [close] is the last action of a call that
    returns, after the closing commit, and is not among the actions of a call
    that raises.  A table that the catalogue does not know raises [No layer
    found in GPKG] after the query alone, with the files as the query left
    them.  A captured row without a statement makes the call raise: when it
    is the first row, [AttributeError] after the query alone; when it comes
    later and the engine raises on no action, [TypeError] in the middle of the
    loop, with the statements in front of it carried out and nothing after
    them. *)
Theorem init_constraint_closes_iff_returns (fname sql_constraint layer_name : string) (w : W) :
  let '(r, done, w') := _init_constraint fname sql_constraint layer_name w in
  (r = Ok tt <-> Close ∈ done) /\
  (r = Ok tt ->
     exists body, done = Execute (select_sql layer_name) :: body ++ [Commit; Close]) /\
  (forall w1, sqlite_step fname (Execute (select_sql layer_name)) w = Some w1 ->
     select_master fname layer_name w1 = [] ->
     r = Raise (Exception "No layer found in GPKG") /\
     done = [Execute (select_sql layer_name)] /\ w' = w1) /\
  (forall w1 rows, sqlite_step fname (Execute (select_sql layer_name)) w = Some w1 ->
     map snd (select_master fname layer_name w1) = None :: rows ->
     r = Raise AttributeError /\ done = [Execute (select_sql layer_name)] /\ w' = w1) /\
  (forall w1 sql_create before after,
     sqlite_step fname (Execute (select_sql layer_name)) w = Some w1 ->
     map snd (select_master fname layer_name w1)
       = Some sql_create :: map Some before ++ None :: after ->
     (forall a w2, is_Some (sqlite_step fname a w2)) ->
     r = Raise TypeError /\
     done = Execute (select_sql layer_name)
            :: map dispatch (lst_sql_head sql_constraint layer_name sql_create ++ before)).
Proof.
  unfold _init_constraint.
  destruct (sqlite_step fname (Execute (select_sql layer_name)) w) as [w1|].
  2:{ split; [|split; [intros H; discriminate H|]].
      - split; [intros H; discriminate H|]. intros Hin. now apply not_elem_of_nil in Hin.
      - split; [|split]; intros; discriminate. }
  destruct (map snd (select_master fname layer_name w1)) as [|[sql_create|] lst_old_sql]
    eqn:Hrows.
  - split; [|split; [intros H; discriminate H|split; [|split]]].
    + split; [intros H; discriminate H|].
      intros Hin. apply list_elem_of_singleton in Hin. discriminate Hin.
    + intros w1' [= <-] _. now split.
    + intros w1' rows [= <-] H. rewrite Hrows in H. discriminate H.
    + intros w1' sc before after [= <-] H. rewrite Hrows in H. discriminate H.
  - pose proof (run_statements_no_close fname
                  (lst_sql sql_constraint layer_name sql_create lst_old_sql) w1) as Hno.
    pose proof (fun before after (Heq : lst_old_sql = map Some before ++ None :: after) Hacc =>
                  run_statements_until_none fname
                    (lst_sql_head sql_constraint layer_name sql_create ++ before)
                    (after ++ map Some lst_sql_tail) Hacc w1) as Hnone.
    assert (Hsplit : forall before after, lst_old_sql = map Some before ++ None :: after ->
              lst_sql sql_constraint layer_name sql_create lst_old_sql
              = map Some (lst_sql_head sql_constraint layer_name sql_create ++ before)
                ++ None :: (after ++ map Some lst_sql_tail)).
    { intros before after ->. unfold lst_sql. rewrite map_app, <- !app_assoc. reflexivity. }
    destruct (run_statements fname _ w1) as [[[[]|e] done] w2] eqn:Hrun; cbn [fst snd] in *.
    + destruct (sqlite_step fname Commit w2) as [w3|] eqn:Hc; cbn [run_actions];
        rewrite Hc; [destruct (sqlite_step fname Close w3) as [w4|] eqn:Hcl|].
      * split; [|split; [|split; [|split]]].
        -- split; [intros _|reflexivity]. right. apply elem_of_app. right. set_solver.
        -- intros _. exists done. reflexivity.
        -- intros w1' [= <-] Hempty. rewrite Hempty in Hrows. discriminate Hrows.
        -- intros w1' rows [= <-] H. rewrite Hrows in H. discriminate H.
        -- intros w1' sc before after [= <-] H Hacc. rewrite Hrows in H. injection H as <- Heq.
           specialize (Hnone before after Heq Hacc).
           rewrite <- (Hsplit before after Heq), Hrun in Hnone. discriminate Hnone.
      * split; [|split; [intros H; discriminate H|split; [|split]]].
        -- split; [intros H; discriminate H|]. intros Hin.
           apply elem_of_cons in Hin. destruct Hin as [Hin|Hin]; [discriminate Hin|].
           apply elem_of_app in Hin. destruct Hin as [Hin|Hin]; [now apply Hno in Hin|].
           apply list_elem_of_singleton in Hin. discriminate Hin.
        -- intros w1' [= <-] Hempty. rewrite Hempty in Hrows. discriminate Hrows.
        -- intros w1' rows [= <-] H. rewrite Hrows in H. discriminate H.
        -- intros w1' sc before after _ _ Hacc.
           destruct (Hacc Close w3) as [w4 Hw4]. rewrite Hw4 in Hcl. discriminate Hcl.
      * split; [|split; [intros H; discriminate H|split; [|split]]].
        -- split; [intros H; discriminate H|]. intros Hin.
           apply elem_of_cons in Hin. destruct Hin as [Hin|Hin]; [discriminate Hin|].
           rewrite app_nil_r in Hin. now apply Hno in Hin.
        -- intros w1' [= <-] Hempty. rewrite Hempty in Hrows. discriminate Hrows.
        -- intros w1' rows [= <-] H. rewrite Hrows in H. discriminate H.
        -- intros w1' sc before after _ _ Hacc.
           destruct (Hacc Commit w2) as [w4 Hw4]. rewrite Hw4 in Hc. discriminate Hc.
    + split; [|split; [intros H; discriminate H|split; [|split]]].
      * split; [intros H; discriminate H|]. intros Hin.
        apply elem_of_cons in Hin. destruct Hin as [Hin|Hin]; [discriminate Hin|].
        now apply Hno in Hin.
      * intros w1' [= <-] Hempty. rewrite Hempty in Hrows. discriminate Hrows.
      * intros w1' rows [= <-] H. rewrite Hrows in H. discriminate H.
      * intros w1' sc before after [= <-] H Hacc. rewrite Hrows in H. injection H as <- Heq.
        specialize (Hnone before after Heq Hacc).
        rewrite <- (Hsplit before after Heq), Hrun in Hnone. cbn [fst] in Hnone.
        injection Hnone as -> ->. now split.
  - split; [|split; [intros H; discriminate H|split; [|split]]].
    + split; [intros H; discriminate H|].
      intros Hin. apply list_elem_of_singleton in Hin. discriminate Hin.
    + intros w1' [= <-] Hempty. rewrite Hempty in Hrows. discriminate Hrows.
    + intros w1' rows [= <-] _. now split.
    + intros w1' sc before after [= <-] H. rewrite Hrows in H. discriminate H.
Qed.

End WithEnv.

Lemma init_constraint_closes_iff_returns_witness :
  fst (fst (@_init_constraint demo_env_gpkg "/data/abc.gpkg" demo_constraint "Line_0"
              demo_files))
    = Raise (Exception "No layer found in GPKG") /\
  fst (fst (@_init_constraint demo_env_unique "/data/abc.gpkg" demo_constraint "Point_0"
              demo_files))
    = Raise TypeError.
Proof.
  split.
  - pose proof (@init_constraint_closes_iff_returns demo_env_gpkg "/data/abc.gpkg"
                  demo_constraint "Line_0" demo_files) as H.
    destruct (@_init_constraint demo_env_gpkg "/data/abc.gpkg" demo_constraint "Line_0"
                demo_files) as [[r done] w'].
    destruct H as (_ & _ & H & _). destruct (H demo_files) as [Hr _]; [reflexivity..|].
    exact Hr.
  - pose proof (@init_constraint_closes_iff_returns demo_env_unique "/data/abc.gpkg"
                  demo_constraint "Point_0" demo_files) as H.
    destruct (@_init_constraint demo_env_unique "/data/abc.gpkg" demo_constraint "Point_0"
                demo_files) as [[r done] w'].
    destruct H as (_ & _ & _ & _ & H).
    destruct (H demo_files
                ("CREATE TABLE " +:+ PyStr.quoted "Point_0" +:+ " ( " +:+ PyStr.quoted "fid"
                 +:+ " INTEGER PRIMARY KEY AUTOINCREMENT NOT NULL, " +:+ PyStr.quoted "xyz_id"
                 +:+ " TEXT UNIQUE ON CONFLICT REPLACE)") [] []) as [Hr _];
      [reflexivity | reflexivity | intros a w2; exists w2; reflexivity |].
    exact Hr.
Defined.

Lemma length_append (a b : string) :
  String.length (a +:+ b) = (String.length a + String.length b)%nat.
Proof.
  induction a as [|x a IH]; [reflexivity|].
  rewrite StorageFacts.append_cons. cbn [String.length]. now rewrite IH.
Qed.

Lemma replace_char_go (c d : ascii) (s : string) :
  c <> d ->
  occurs c (PyStr.replace_go (String c EmptyString) (String d EmptyString) s 0) = false /\
  String.length (PyStr.replace_go (String c EmptyString) (String d EmptyString) s 0)
    = String.length s.
Proof.
  intros Hne. induction s as [|x s [IH1 IH2]]; [now split|].
  cbn [PyStr.replace_go PyStr.startswith String.length Nat.pred].
  destruct (Ascii.eqb_spec c x) as [<-|Hx].
  - rewrite StorageFacts.append_cons, StorageFacts.append_nil_l.
    cbn [occurs String.length]. rewrite IH1, IH2.
    destruct (Ascii.eqb_spec d c) as [->|_]; [now contradiction Hne|now split].
  - cbn [occurs String.length]. rewrite IH1, IH2.
    destruct (Ascii.eqb_spec x c) as [->|_]; [now contradiction Hx|now split].
Qed.

(** X19. The file name takes no comma from the tags: a comma occurs in the
    file name exactly when one occurs in the text of the space id.  The tags
    keep their length in it, and the name is as long as the id, the tags and
    the numeral of the token together with the two underscores between
    them. *)
Theorem layer_fname_commas (repr_container : json -> string) (s : XYZLayer) :
  occurs "," (_layer_fname repr_container s) = occurs "," (meta_text repr_container s "id") /\
  String.length (_layer_fname repr_container s)
    = (String.length (meta_text repr_container s "id") + String.length (tags s)
       + String.length (PyStr.str_int (unique s)) + 2)%nat.
Proof.
  unfold _layer_fname.
  assert (Htags : occurs "," (if Nat.eqb (String.length (tags s)) 0 then ""
                              else PyStr.replace (tags s) "," "_") = false /\
                  String.length (if Nat.eqb (String.length (tags s)) 0 then ""
                                 else PyStr.replace (tags s) "," "_")
                    = String.length (tags s)).
  { destruct (Nat.eqb_spec (String.length (tags s)) 0) as [H0|_]; [now rewrite H0|].
    apply replace_char_go. discriminate. }
  destruct Htags as [Hocc Hlen]. split.
  - rewrite !PartitionFacts.occurs_app, Hocc.
    rewrite (PartitionFacts.str_int_no_char (unique s) ",") by reflexivity.
    cbn [occurs]. now rewrite !orb_false_r.
  - rewrite !length_append, Hlen. cbn [String.length]. lia.
Qed.

End MigrationFacts.
